(** * UAT scheduling optimizer: the CP-SAT model built by [solver.py]

    A shallow embedding of [find_optimal_schedule] (solver.py) and of the
    button handler of [app] (app.py).

    The function builds a constraint model through the OR-tools
    [cp_model.CpModel] interface, hands it to [cp_model.CpSolver] and
    formats the solved values.  The embedding keeps that shape:

    - the model under construction is an explicit state ([CpModel]: the
      variables in creation order, the constraints in creation order, the
      objective), threaded through the two loops by a small state monad;
    - the constraints the code posts are an inductive type, with the
      meaning OR-tools documents for each of them ([holds]);
    - the solver is a parameter [Solve]; what is assumed about it is the
      contract of the search engine ([response_sound], [SolverContract]);
    - the [datetime] calls are a parameter as well ([DateTimeLib]). *)

From Stdlib Require Import ZArith QArith Lia.
From stdpp Require Import base list strings gmap pretty.

Open Scope Z_scope.

(** ** Input records *)

(** A row of [personnel]: [{'name': ..., 'workstream': ...}]. *)
Record Person := mkPerson {
  name : string;
  workstream : string
}.

(** A row of [scenarios].  [scenario_name] is [scenario['name']];
    [duration_hours] is the value after [int(...)]. *)
Record Scenario := mkScenario {
  scenario_name : string;
  duration_hours : Z;
  required_workstreams : list string
}.

(** ** The CP-SAT model *)

(** A variable is its index in the model, in creation order. *)
Definition IntVar := nat.

Record IntVarDecl := mkVar {
  var_lb : Z;
  var_ub : Z;
  var_name : string
}.

(** A Boolean variable [b] or its negation [b.Not()]. *)
Inductive Literal :=
| Lit (b : IntVar)
| Not (b : IntVar).

(** [NewIntervalVar(start, size, end, name)] and
    [NewOptionalIntervalVar(start, size, end, is_present, name)]. *)
Record IntervalVar := mkInterval {
  iv_start : IntVar;
  iv_size : Z;
  iv_end : IntVar;
  iv_is_present : option IntVar;
  iv_name : string
}.

Inductive Constraint :=
| LinearEq (e s : IntVar) (d : Z)
    (* model.Add(e == s + d) *)
| VarEq (v : IntVar) (c : Z) (only_enforce_if : Literal)
    (* model.Add(v == c).OnlyEnforceIf(l) *)
| VarNe (v : IntVar) (c : Z) (only_enforce_if : Literal)
    (* model.Add(v != c).OnlyEnforceIf(l) *)
| AllowedAssignments (v : IntVar) (tuples : list Z)
    (* model.AddAllowedAssignments([v], [(c,) for c in tuples]) *)
| Interval (iv : IntervalVar)
    (* the interval itself: start + size == end when present *)
| NoOverlap (ivs : list IntervalVar)
    (* model.AddNoOverlap(ivs) *)
| MaxEquality (target : IntVar) (exprs : list IntVar).
    (* model.AddMaxEquality(target, exprs) *)

Record CpModel := mkModel {
  variables : list IntVarDecl;
  constraints : list Constraint;
  objective : option IntVar       (* model.Minimize(v) *)
}.

Definition empty_model : CpModel := mkModel [] [] None.

(** ** Meaning of a model *)

(** A candidate solution gives a value to every variable, by index. *)
Definition Solution := list Z.

Definition Value (sol : Solution) (v : IntVar) : Z := default 0 (sol !! v).

Definition lit_true (sol : Solution) (l : Literal) : bool :=
  match l with
  | Lit b => Value sol b =? 1
  | Not b => negb (Value sol b =? 1)
  end.

Definition is_present (sol : Solution) (iv : IntervalVar) : bool :=
  match iv_is_present iv with
  | None => true
  | Some b => lit_true sol (Lit b)
  end.

(** Two intervals do not overlap when one of them is absent or one ends
    before the other starts. *)
Definition disjoint (sol : Solution) (a b : IntervalVar) : bool :=
  negb (is_present sol a) || negb (is_present sol b)
  || (Value sol (iv_end a) <=? Value sol (iv_start b))
  || (Value sol (iv_end b) <=? Value sol (iv_start a)).

Fixpoint no_overlap (sol : Solution) (ivs : list IntervalVar) : bool :=
  match ivs with
  | [] => true
  | iv :: rest => forallb (disjoint sol iv) rest && no_overlap sol rest
  end.

Definition max_list (x : Z) (xs : list Z) : Z := foldr Z.max x xs.

Definition holds (sol : Solution) (c : Constraint) : bool :=
  match c with
  | LinearEq e s d => Value sol e =? Value sol s + d
  | VarEq v c l => negb (lit_true sol l) || (Value sol v =? c)
  | VarNe v c l => negb (lit_true sol l) || negb (Value sol v =? c)
  | AllowedAssignments v tuples => existsb (Z.eqb (Value sol v)) tuples
  | Interval iv =>
      negb (is_present sol iv)
      || ((0 <=? iv_size iv)
          && (Value sol (iv_start iv) + iv_size iv =? Value sol (iv_end iv)))
  | NoOverlap ivs => no_overlap sol ivs
  | MaxEquality target exprs =>
      match exprs with
      | [] => false
      | e :: es => Value sol target =? max_list (Value sol e) (map (Value sol) es)
      end
  end.

Definition in_domain (d : IntVarDecl) (x : Z) : bool :=
  (var_lb d <=? x) && (x <=? var_ub d).

Fixpoint in_domains (ds : list IntVarDecl) (sol : Solution) : bool :=
  match ds, sol with
  | [], [] => true
  | d :: ds', x :: sol' => in_domain d x && in_domains ds' sol'
  | _, _ => false
  end.

(** [sol] is a solution of [m]: one value per variable, each in its
    domain, and every constraint holds. *)
Definition is_solution (m : CpModel) (sol : Solution) : bool :=
  in_domains (variables m) sol && forallb (holds sol) (constraints m).

Definition objective_of (m : CpModel) (sol : Solution) : Z :=
  match objective m with
  | Some v => Value sol v
  | None => 0
  end.

(** ** The solver *)

Inductive CpSolverStatus := UNKNOWN | MODEL_INVALID | FEASIBLE | INFEASIBLE | OPTIMAL.

#[global] Instance CpSolverStatus_eq_dec : EqDecision CpSolverStatus.
Proof. solve_decision. Defined.

(** What [solver.Solve(model)] leaves behind: the status, the values read
    by [solver.Value(var)] and the number read by [solver.ObjectiveValue()]. *)
Record CpSolverResponse := mkResponse {
  status : CpSolverStatus;
  solution : Solution;
  objective_value : Z
}.

Definition solved (r : CpSolverResponse) : bool :=
  bool_decide (status r = OPTIMAL) || bool_decide (status r = FEASIBLE).

(** The part of the contract every solved response obeys: on OPTIMAL or
    FEASIBLE the values form a solution and the objective value is the
    objective at that solution. *)
Definition response_sound (m : CpModel) (r : CpSolverResponse) : bool :=
  negb (solved r)
  || (is_solution m (solution r)
      && (objective_value r =? objective_of m (solution r))).

(** The contract of the search engine: OPTIMAL is a solution no other
    solution beats, FEASIBLE is a solution, INFEASIBLE means there is none. *)
Record SolverContract (m : CpModel) (r : CpSolverResponse) : Prop := {
  contract_sound : response_sound m r = true;
  contract_optimal :
    status r = OPTIMAL ->
    forall sol, is_solution m sol = true -> objective_value r <= objective_of m sol;
  contract_infeasible :
    status r = INFEASIBLE -> forall sol, is_solution m sol = false
}.

(** ** Building the model: explicit state *)

(** The state of the first half of [find_optimal_schedule]: the model
    being filled in and the lines written by [print]. *)
Record BuildState := mkState {
  model : CpModel;
  stdout : list string
}.

Definition Build (A : Type) : Type := BuildState -> A * BuildState.

Definition ret {A} (x : A) : Build A := fun st => (x, st).

Definition bind {A B} (c : Build A) (k : A -> Build B) : Build B :=
  fun st => let (x, st') := c st in k x st'.

Notation "'let*' x ':=' c1 'in' c2" := (bind c1 (fun x => c2))
  (at level 10, x pattern, c1 at level 100, c2 at level 200).

(** [for x in xs: acc = body(acc, x)]. *)
Fixpoint for_fold {A S} (body : S -> A -> Build S) (acc : S) (xs : list A) : Build S :=
  match xs with
  | [] => ret acc
  | x :: xs' => let* acc' := body acc x in for_fold body acc' xs'
  end.

(** [enumerate(xs)], counting from [i]. *)
Fixpoint enumerate_from {A} (i : nat) (xs : list A) : list (nat * A) :=
  match xs with
  | [] => []
  | x :: xs' => (i, x) :: enumerate_from (S i) xs'
  end.

Definition enumerate {A} (xs : list A) : list (nat * A) := enumerate_from 0 xs.

Definition NewIntVar (lb ub : Z) (nm : string) : Build IntVar :=
  fun st =>
    let m := model st in
    (length (variables m),
     mkState (mkModel (variables m ++ [mkVar lb ub nm]) (constraints m) (objective m))
             (stdout st)).

Definition NewBoolVar (nm : string) : Build IntVar := NewIntVar 0 1 nm.

Definition Add (c : Constraint) : Build unit :=
  fun st =>
    let m := model st in
    (tt, mkState (mkModel (variables m) (constraints m ++ [c]) (objective m)) (stdout st)).

Definition NewIntervalVar (s : IntVar) (size : Z) (e : IntVar) (nm : string)
  : Build IntervalVar :=
  let iv := mkInterval s size e None nm in
  let* _ := Add (Interval iv) in ret iv.

Definition NewOptionalIntervalVar (s : IntVar) (size : Z) (e : IntVar)
    (is_present : IntVar) (nm : string) : Build IntervalVar :=
  let iv := mkInterval s size e (Some is_present) nm in
  let* _ := Add (Interval iv) in ret iv.

Definition Minimize (v : IntVar) : Build unit :=
  fun st =>
    let m := model st in
    (tt, mkState (mkModel (variables m) (constraints m) (Some v)) (stdout st)).

Definition print (line : string) : Build unit :=
  fun st => (tt, mkState (model st) (stdout st ++ [line])).

(** ** [find_optimal_schedule], part 1: variables per scenario component *)

Definition earliest_start : Z := 0.
Definition horizon : Z := 60 * 24.

(** [{p['name']: i for i, p in enumerate(personnel)}]: a later person of
    the same name replaces the earlier index. *)
Definition people_map (personnel : list Person) : gmap string nat :=
  foldl (fun (m : gmap string nat) (ip : nat * Person) => <[name ip.2 := ip.1]> m)
        empty (enumerate personnel).

(** [[people_map[p['name']] for p in personnel
      if p['workstream'] == required_workstream]]. *)
Definition valid_people_indices (personnel : list Person)
    (required_workstream : string) : list nat :=
  map (fun p => people_map personnel !!! name p)
      (filter (fun p => workstream p = required_workstream) personnel).

(** An entry of [all_subtasks]. *)
Record Subtask := mkSubtask {
  st_scenario_name : string;
  st_workstream : string;
  st_duration : Z;
  st_start : IntVar;
  st_end : IntVar;
  st_person : IntVar;
  st_interval : IntervalVar
}.

(** The body of the loop over [enumerate(scenario['required_workstreams'])]. *)
Definition add_subtask (personnel : list Person) (scenario_idx : nat)
    (scenario_name : string) (duration_hours : Z) (start_var end_var : IntVar)
    (all_subtasks : list Subtask) (entry : nat * string) : Build (list Subtask) :=
  let '(ws_idx, required_workstream) := entry in
  let task_suffix := "_" +:+ pretty scenario_idx +:+ "_" +:+ pretty ws_idx in
  let* assigned_person_var :=
    NewIntVar 0 (Z.of_nat (length personnel) - 1) ("person" +:+ task_suffix) in
  let valid := valid_people_indices personnel required_workstream in
  let* _ :=
    match valid with
    | _ :: _ => Add (AllowedAssignments assigned_person_var (map Z.of_nat valid))
    | [] => print ("ERROR: No personnel found for workstream: " +:+ required_workstream)
    end in
  let* interval :=
    NewIntervalVar start_var duration_hours end_var ("interval" +:+ task_suffix) in
  ret (all_subtasks ++
       [mkSubtask scenario_name required_workstream duration_hours
                  start_var end_var assigned_person_var interval]).

(** The body of the loop over [enumerate(scenarios)]. *)
Definition add_scenario (personnel : list Person)
    (all_subtasks : list Subtask) (entry : nat * Scenario) : Build (list Subtask) :=
  let '(scenario_idx, scenario) := entry in
  let nm := scenario_name scenario in
  let duration := duration_hours scenario in
  let* start_var := NewIntVar earliest_start horizon (nm +:+ "_start") in
  let* end_var := NewIntVar earliest_start horizon (nm +:+ "_end") in
  let* _ := Add (LinearEq end_var start_var duration) in
  for_fold (add_subtask personnel scenario_idx nm duration start_var end_var)
           all_subtasks (enumerate (required_workstreams scenario)).

Definition create_subtasks (scenarios : list Scenario) (personnel : list Person)
  : Build (list Subtask) :=
  for_fold (add_scenario personnel) [] (enumerate scenarios).

(** ** Part 2: no two tasks on the same person at the same time *)

(** The body of [for person_index in range(len(personnel))]. *)
Definition link_person (subtask : Subtask)
    (person_to_intervals : list (list IntervalVar)) (person_index : nat)
  : Build (list (list IntervalVar)) :=
  let* is_assigned_to_person :=
    NewBoolVar ("is_subtask_" +:+ st_scenario_name subtask
                +:+ "_to_person_" +:+ pretty person_index) in
  let* _ := Add (VarEq (st_person subtask) (Z.of_nat person_index)
                       (Lit is_assigned_to_person)) in
  let* _ := Add (VarNe (st_person subtask) (Z.of_nat person_index)
                       (Not is_assigned_to_person)) in
  let* optional_interval :=
    NewOptionalIntervalVar (st_start subtask) (st_duration subtask) (st_end subtask)
      is_assigned_to_person
      ("optional_interval_" +:+ st_scenario_name subtask +:+ "_" +:+ pretty person_index) in
  ret (alter (fun ivs => ivs ++ [optional_interval]) person_index person_to_intervals).

(** The body of [for subtask in all_subtasks]. *)
Definition link_subtask (personnel : list Person)
    (person_to_intervals : list (list IntervalVar)) (subtask : Subtask)
  : Build (list (list IntervalVar)) :=
  for_fold (link_person subtask) person_to_intervals (seq 0 (length personnel)).

Definition add_no_overlap (_ : unit) (person_intervals : list IntervalVar) : Build unit :=
  Add (NoOverlap person_intervals).

Definition no_double_booking (personnel : list Person) (all_subtasks : list Subtask)
  : Build unit :=
  let person_to_intervals := map (fun _ => []) personnel in
  let* person_to_intervals :=
    for_fold (link_subtask personnel) person_to_intervals all_subtasks in
  for_fold add_no_overlap tt person_to_intervals.

(** ** Part 3: the objective *)

(** [list(set([subtask['end'] for subtask in all_subtasks]))]: the distinct
    end variables (the order Python gives them is immaterial to a maximum). *)
Definition all_end_vars (all_subtasks : list Subtask) : list IntVar :=
  remove_dups (map st_end all_subtasks).

Definition minimize_makespan (all_subtasks : list Subtask) : Build IntVar :=
  let* max_end_time := NewIntVar 0 horizon "max_end_time" in
  let* _ := Add (MaxEquality max_end_time (all_end_vars all_subtasks)) in
  let* _ := Minimize max_end_time in
  ret max_end_time.

(** Everything up to [solver.Solve(model)]. *)
Definition build (scenarios : list Scenario) (personnel : list Person)
  : Build (list Subtask) :=
  let* all_subtasks := create_subtasks scenarios personnel in
  let* _ := no_double_booking personnel all_subtasks in
  let* _ := minimize_makespan all_subtasks in
  ret all_subtasks.

Definition initial_state : BuildState := mkState empty_model [].

Definition built_subtasks (scenarios : list Scenario) (personnel : list Person)
  : list Subtask :=
  (build scenarios personnel initial_state).1.

Definition built_model (scenarios : list Scenario) (personnel : list Person) : CpModel :=
  model (build scenarios personnel initial_state).2.

Definition built_stdout (scenarios : list Scenario) (personnel : list Person)
  : list string :=
  stdout (build scenarios personnel initial_state).2.

(** ** Part 4: solve and format the output *)

(** The three [datetime] calls of the function:
    [datetime.strptime(s, '%Y-%m-%d')] ([None] stands for its ValueError),
    [d + timedelta(hours=h)] and [d.strftime('%Y-%m-%d %H:%M')]. *)
Class DateTimeLib := {
  datetime : Type;
  strptime : string -> option datetime;
  plus_hours : datetime -> Z -> datetime;
  strftime : datetime -> string
}.

Inductive Exception := ValueError | IndexError | TypeError.

(** [xs[i]] for a Python list: a negative index counts from the end, an
    index out of range raises IndexError ([None]). *)
Definition py_index {A} (xs : list A) (i : Z) : option A :=
  if 0 <=? i then xs !! Z.to_nat i
  else if - Z.of_nat (length xs) <=? i then xs !! Z.to_nat (Z.of_nat (length xs) + i)
  else None.

(** A value of [scenario_results] while the sub-tasks are regrouped. *)
Record ScenarioResult := mkResult {
  res_Scenario : string;
  res_Duration : Z;
  res_Start_Time : string;
  res_End_Time : string;
  res_Assigned_Persons : list string;
  res_Workstreams : list string
}.

(** A row of the returned DataFrame. *)
Record ScheduleRow := mkRow {
  row_Scenario : string;
  row_Duration : Z;
  row_Start_Time : string;
  row_End_Time : string;
  row_Assigned_Persons : string;
  row_Workstreams : string
}.

Definition DataFrame := list ScheduleRow.

(** [scenario_results] is a dict read back in insertion order: an
    association list with one entry per key. *)
Definition ResultDict := list (string * ScenarioResult).

Definition dict_mem (k : string) (d : ResultDict) : bool :=
  bool_decide (k ∈ d.*1).

Fixpoint dict_alter (f : ScenarioResult -> ScenarioResult) (k : string) (d : ResultDict)
  : ResultDict :=
  match d with
  | [] => []
  | (k', v) :: d' =>
      if decide (k' = k) then (k', f v) :: d' else (k', v) :: dict_alter f k d'
  end.

Definition append_assignment (assigned_person assigned_workstream : string)
    (r : ScenarioResult) : ScenarioResult :=
  mkResult (res_Scenario r) (res_Duration r) (res_Start_Time r) (res_End_Time r)
           (res_Assigned_Persons r ++ [assigned_person])
           (res_Workstreams r ++ [assigned_workstream]).

Section Extraction.
Context `{DateTimeLib}.

(** The body of [for subtask in all_subtasks] of the result extractor. *)
Definition record_subtask (personnel : list Person) (start_date : datetime)
    (sol : Solution) (scenario_results : ResultDict) (subtask : Subtask)
  : Exception + ResultDict :=
  let scenario_name := st_scenario_name subtask in
  let start_hour_offset := Value sol (st_start subtask) in
  let end_hour_offset := Value sol (st_end subtask) in
  let person_index := Value sol (st_person subtask) in
  match py_index personnel person_index with
  | None => inl IndexError
  | Some p =>
      let assigned_person := name p in
      let assigned_workstream := workstream p in
      let scenario_results :=
        if dict_mem scenario_name scenario_results then scenario_results
        else
          let start_dt := plus_hours start_date start_hour_offset in
          let end_dt := plus_hours start_date end_hour_offset in
          scenario_results ++
            [(scenario_name,
              mkResult scenario_name (st_duration subtask)
                       (strftime start_dt) (strftime end_dt) [] [])] in
      inr (dict_alter (append_assignment assigned_person assigned_workstream)
                      scenario_name scenario_results)
  end.

Fixpoint regroup (personnel : list Person) (start_date : datetime) (sol : Solution)
    (scenario_results : ResultDict) (all_subtasks : list Subtask)
  : Exception + ResultDict :=
  match all_subtasks with
  | [] => inr scenario_results
  | subtask :: rest =>
      match record_subtask personnel start_date sol scenario_results subtask with
      | inl e => inl e
      | inr scenario_results' => regroup personnel start_date sol scenario_results' rest
      end
  end.
End Extraction.

(** [sorted(xs)] on strings: insertion into increasing code-point order. *)
Fixpoint insert_sorted (x : string) (xs : list string) : list string :=
  match xs with
  | [] => [x]
  | y :: ys => if String.leb x y then x :: xs else y :: insert_sorted x ys
  end.

Definition sorted (xs : list string) : list string := foldr insert_sorted [] xs.

(** [sep.join(xs)]. *)
Fixpoint join (sep : string) (xs : list string) : string :=
  match xs with
  | [] => ""
  | [x] => x
  | x :: rest => x +:+ sep +:+ join sep rest
  end.

(** The body of [for res in scenario_results.values()]. *)
Definition format_result (res : ScenarioResult) : ScheduleRow :=
  mkRow (res_Scenario res) (res_Duration res) (res_Start_Time res) (res_End_Time res)
        (join ", " (sorted (res_Assigned_Persons res)))
        (join ", " (sorted (res_Workstreams res))).

(** [solver.ObjectiveValue() / 24.0], as an exact rational. *)
Definition days_of_hours (h : Z) : Q := inject_Z h / inject_Z 24.

(** What a call of [find_optimal_schedule] does: the value it returns or
    the exception it raises, the lines it printed, and the models it
    handed to the solver. *)
Record Outcome := mkOutcome {
  returned : Exception + (DataFrame * option Q);
  printed : list string;
  solver_calls : list CpModel
}.

Section Engine.
Context `{DateTimeLib}.
Variable Solve : CpModel -> CpSolverResponse.

Definition find_optimal_schedule (scenarios : list Scenario)
    (personnel : list Person) (start_date_str : string) : Outcome :=
  match strptime start_date_str with
  | None => mkOutcome (inl ValueError) [] []
  | Some start_date =>
      let '(all_subtasks, st) := build scenarios personnel initial_state in
      let response := Solve (model st) in
      if solved response then
        match regroup personnel start_date (solution response) [] all_subtasks with
        | inl e => mkOutcome (inl e) (stdout st) [model st]
        | inr scenario_results =>
            let final_results := map (fun kv => format_result kv.2) scenario_results in
            mkOutcome (inr (final_results,
                            Some (days_of_hours (objective_value response))))
                      (stdout st) [model st]
        end
      else mkOutcome (inr ([], None)) (stdout st) [model st]
  end.

(** ** The button handler of [app] *)

Inductive UiEvent :=
| st_error (msg : string)
| st_success (msg : string)
| show_results (schedule_df : DataFrame) (total_days : Q).

(** What a click does: the messages shown, and the call of
    [find_optimal_schedule] when it takes place. *)
Record Click := mkClick {
  shown : list UiEvent;
  engine_call : option Outcome;
  uncaught : option Exception
}.

Definition empty_data_message : string :=
  "Oops! Please make sure both Personnel and Scenario tables have data before running.".

Definition no_schedule_message : string :=
  " The solver couldn't find a way to make it work. Check if every required workstream has at least one person available.".

Definition on_click (personnel_data : list Person) (scenario_data : list Scenario)
    (start_date_str : string) : Click :=
  if bool_decide (personnel_data = []) || bool_decide (scenario_data = []) then
    mkClick [st_error empty_data_message] None None
  else
    let call := find_optimal_schedule scenario_data personnel_data start_date_str in
    match returned call with
    | inl e => mkClick [] (Some call) (Some e)
    | inr ([], _) => mkClick [st_error no_schedule_message] (Some call) None
    | inr (schedule_df, Some total_days) =>
        mkClick [st_success "Optimization Complete! We found the best schedule.";
                 show_results schedule_df total_days] (Some call) None
    | inr (_, None) =>
        mkClick [st_success "Optimization Complete! We found the best schedule."]
                (Some call) (Some TypeError)
    end.
End Engine.

(** ** Where the loops put things *)

(** Number of sub-tasks, and of variables, the first loop creates for a
    list of scenarios: two shared variables per scenario and one person
    variable per required workstream. *)
Definition subtask_count (scs : list Scenario) : nat :=
  sum_list_with (fun sc => length (required_workstreams sc)) scs.

Definition var_count (scs : list Scenario) : nat :=
  sum_list_with (fun sc => (2 + length (required_workstreams sc))%nat) scs.

(** The shared start and end variable of the scenario at index [i]. *)
Definition scenario_start_var (scenarios : list Scenario) (i : nat) : IntVar :=
  var_count (take i scenarios).

Definition scenario_end_var (scenarios : list Scenario) (i : nat) : IntVar :=
  S (scenario_start_var scenarios i).

(** Position in [all_subtasks] of the sub-task for the [k]-th required
    workstream of the scenario at index [i]. *)
Definition subtask_index (scenarios : list Scenario) (i k : nat) : nat :=
  (subtask_count (take i scenarios) + k)%nat.

(** A later state of the same model: variables and constraints are only
    ever appended. *)
Definition extends (m m' : CpModel) : Prop :=
  variables m `prefix_of` variables m' /\ constraints m `prefix_of` constraints m'.

(** What the first loop posts for one sub-task [s]. *)
Record subtask_posted (personnel : list Person) (m : CpModel)
    (nm ws : string) (d : Z) (sv ev pv : IntVar) (s : Subtask) : Prop := {
  posted_name : st_scenario_name s = nm;
  posted_workstream : st_workstream s = ws;
  posted_duration : st_duration s = d;
  posted_start : st_start s = sv;
  posted_end : st_end s = ev;
  posted_person : st_person s = pv;
  posted_domain :
    exists vn, variables m !! pv = Some (mkVar 0 (Z.of_nat (length personnel) - 1) vn);
  posted_allowed :
    valid_people_indices personnel ws <> [] ->
    AllowedAssignments pv (map Z.of_nat (valid_people_indices personnel ws))
      ∈ constraints m;
  posted_interval :
    exists inm, st_interval s = mkInterval sv d ev None inm
                /\ Interval (st_interval s) ∈ constraints m
}.

(** What the first loop posts for one scenario [sc] whose shared start
    variable is [sv] and whose sub-tasks start at position [off] of
    [subs]. *)
Record scenario_posted (personnel : list Person) (m : CpModel)
    (subs : list Subtask) (sc : Scenario) (sv : IntVar) (off : nat) : Prop := {
  sp_start :
    variables m !! sv
      = Some (mkVar earliest_start horizon (scenario_name sc +:+ "_start"));
  sp_end :
    variables m !! S sv
      = Some (mkVar earliest_start horizon (scenario_name sc +:+ "_end"));
  sp_link : LinearEq (S sv) sv (duration_hours sc) ∈ constraints m;
  sp_subtasks :
    forall k ws, required_workstreams sc !! k = Some ws ->
      exists s, subs !! (off + k)%nat = Some s
        /\ subtask_posted personnel m (scenario_name sc) ws (duration_hours sc)
             sv (S sv) (sv + 2 + k)%nat s
}.

(** What the second loop posts to tie sub-task [s] to person [p]: an
    indicator [b] with [b <-> person == p], and an interval over the
    sub-task's shared start and end that is present exactly when [b]. *)
Definition linked (m : CpModel) (s : Subtask) (p : nat) (iv : IntervalVar) : Prop :=
  exists b bn nm,
    iv = mkInterval (st_start s) (st_duration s) (st_end s) (Some b) nm
    /\ variables m !! b = Some (mkVar 0 1 bn)
    /\ VarEq (st_person s) (Z.of_nat p) (Lit b) ∈ constraints m
    /\ VarNe (st_person s) (Z.of_nat p) (Not b) ∈ constraints m
    /\ Interval iv ∈ constraints m.

(** What [build] has posted when it hands the model to the solver. *)
Record build_facts (scenarios : list Scenario) (personnel : list Person)
    (subs : list Subtask) (m : CpModel) : Prop := {
  bf_count : length subs = subtask_count scenarios;
  bf_scenarios :
    forall i sc, scenarios !! i = Some sc ->
      scenario_posted personnel m subs sc
        (scenario_start_var scenarios i) (subtask_count (take i scenarios));
  bf_no_overlap :
    forall p, (p < length personnel)%nat ->
      exists ivs, NoOverlap ivs ∈ constraints m
        /\ Forall2 (fun s iv => linked m s p iv) subs ivs;
  bf_objective :
    exists mx, objective m = Some mx
      /\ variables m !! mx = Some (mkVar 0 horizon "max_end_time")
      /\ MaxEquality mx (all_end_vars subs) ∈ constraints m
}.

(** ** Worked inputs *)

(** A clock for the worked examples: a date is the reference string with
    an hour offset, printed as ["<date> +<hours>h"]. *)
Definition offset_clock : DateTimeLib := {|
  datetime := string * Z;
  strptime := fun s => Some (s, 0);
  plus_hours := fun d h => (d.1, d.2 + h);
  strftime := fun d => d.1 +:+ " +" +:+ pretty d.2 +:+ "h"
|}.

(** The default tables of [app]. *)
Definition default_personnel_data : list Person :=
  [mkPerson "Alice" "Finance"; mkPerson "Bob" "Logistics"; mkPerson "Charlie" "IT"].

Definition default_scenario_data : list Scenario :=
  [mkScenario "P2P End-to-End" 12 ["Finance"; "Logistics"; "IT"];
   mkScenario "Invoice Posting" 6 ["Finance"]].

(** A solution of the default model: P2P End-to-End on [0, 12] with Alice,
    Bob and Charlie, then Invoice Posting on [12, 18] with Alice. *)
Definition default_solution : Solution :=
  [0; 12; 0; 1; 2;  12; 18; 0;
   1; 0; 0;  0; 1; 0;  0; 0; 1;  1; 0; 0;
   18].

Definition default_response : CpSolverResponse :=
  mkResponse OPTIMAL default_solution 18.

(** The values [solver.Value] reads in a call on these inputs. *)
Definition solved_values (Solve : CpModel -> CpSolverResponse)
    (scenarios : list Scenario) (personnel : list Person) : Solution :=
  solution (Solve (built_model scenarios personnel)).

(** Two people of one workstream and a scenario that needs it twice. *)
Definition finance_pair : list Person :=
  [mkPerson "Alice" "Finance"; mkPerson "Dana" "Finance"].

Definition month_end_close : list Scenario :=
  [mkScenario "Month-End Close" 4 ["Finance"; "Finance"]].

Definition month_end_response : CpSolverResponse :=
  mkResponse OPTIMAL [0; 4; 0; 1;  1; 0;  0; 1;  4] 4.

(** The solved end of every scenario, in input order. *)
Definition solved_ends (sol : Solution) (scenarios : list Scenario) : list Z :=
  map (fun i => Value sol (scenario_end_var scenarios i)) (seq 0 (length scenarios)).

(** The reading of "total_days * 24 is the largest solved end over all
    scenarios" for one call. *)
Definition total_days_is_max_end_of_all_scenarios (call : Outcome) (sol : Solution)
    (scenarios : list Scenario) : Prop :=
  forall df days, returned call = inr (df, Some days) ->
    match solved_ends sol scenarios with
    | [] => False
    | e :: es => (days * inject_Z 24 == inject_Z (max_list e es))%Q
    end.

(** One accountant, one scenario she can staff and one whose workstream
    list came out empty. *)
Definition one_accountant : list Person := [mkPerson "Alice" "Finance"].

Definition posting_and_unparsed : list Scenario :=
  [mkScenario "Invoice Posting" 5 ["Finance"]; mkScenario "Data Migration" 10 []].

Definition posting_response : CpSolverResponse :=
  mkResponse OPTIMAL [0; 5; 0;  0; 10;  1;  5] 5.

(** The schedule of the default tables when P2P End-to-End starts at hour
    [p2p_start] and Invoice Posting at hour [invoice_start]. *)
Definition calibration_rows `{DateTimeLib} (start_date : datetime)
    (p2p_start invoice_start : Z) : DataFrame :=
  [mkRow "P2P End-to-End" 12
         (strftime (plus_hours start_date p2p_start))
         (strftime (plus_hours start_date (p2p_start + 12)))
         "Alice, Bob, Charlie" "Finance, IT, Logistics";
   mkRow "Invoice Posting" 6
         (strftime (plus_hours start_date invoice_start))
         (strftime (plus_hours start_date (invoice_start + 6)))
         "Alice" "Finance"].

(** The other optimal order: Invoice Posting on [0, 6], then P2P
    End-to-End on [6, 18]. *)
Definition default_solution_invoice_first : Solution :=
  [6; 18; 0; 1; 2;  0; 6; 0;
   1; 0; 0;  0; 1; 0;  0; 0; 1;  1; 0; 0;
   18].

(** The search ran to its end: it proved optimality or infeasibility
    (neither stopped at a merely feasible solution nor gave up). *)
Definition search_completed (r : CpSolverResponse) : Prop :=
  status r = OPTIMAL \/ status r = INFEASIBLE.

(** A scenario that needs a workstream nobody belongs to. *)
Definition security_review : list Scenario :=
  [mkScenario "Security Review" 3 ["IT"]].

Definition security_review_response : CpSolverResponse :=
  mkResponse OPTIMAL [0; 3; 0;  1;  3] 3.

Definition payroll_run : list Scenario :=
  [mkScenario "Payroll Run" 2 ["HR"]].

Definition payroll_run_response : CpSolverResponse :=
  mkResponse OPTIMAL [0; 2; 1;  0; 1; 0;  2] 2.

(** The reading of "an empty list is reported before any model
    construction" for one call of [find_optimal_schedule]: nothing is
    handed to the solver and no value is returned. *)
Definition halts_before_model_construction (call : Outcome) : Prop :=
  solver_calls call = [] /\ forall result, returned call <> inr result.

(** A solver answer for a model without solutions. *)
Definition infeasible_response : CpSolverResponse := mkResponse INFEASIBLE [] 0.

(** ** Records merged by scenario name *)

(** The sub-tasks that carry the scenario name [n], in order. *)
Definition subtasks_named (n : string) (subs : list Subtask) : list Subtask :=
  filter (fun s => st_scenario_name s = n) subs.

(** The scenario names of the sub-tasks, each once, in order of first
    appearance. *)
Fixpoint distinct_names (subs : list Subtask) : list string :=
  match subs with
  | [] => []
  | s :: rest =>
      st_scenario_name s
        :: filter (fun n => n <> st_scenario_name s) (distinct_names rest)
  end.

(** [p] is the person the solution assigns to [s]. *)
Definition assigned_to (personnel : list Person) (sol : Solution)
    (s : Subtask) (p : Person) : Prop :=
  py_index personnel (Value sol (st_person s)) = Some p.

(** [r] is the entry of [scenario_results] for the name [n]: duration and
    timestamps of the first sub-task of that name, and the persons and
    workstreams of all sub-tasks of that name, in order. *)
Definition merged_result `{DateTimeLib} (personnel : list Person)
    (start_date : datetime) (sol : Solution) (subs : list Subtask)
    (n : string) (r : ScenarioResult) : Prop :=
  exists first rest persons,
    subtasks_named n subs = first :: rest
    /\ Forall2 (assigned_to personnel sol) (first :: rest) persons
    /\ r = mkResult n (st_duration first)
             (strftime (plus_hours start_date (Value sol (st_start first))))
             (strftime (plus_hours start_date (Value sol (st_end first))))
             (map name persons) (map workstream persons).

(** The same for a row of the returned DataFrame. *)
Definition merged_row `{DateTimeLib} (personnel : list Person)
    (start_date : datetime) (sol : Solution) (subs : list Subtask)
    (n : string) (row : ScheduleRow) : Prop :=
  exists first rest persons,
    subtasks_named n subs = first :: rest
    /\ Forall2 (assigned_to personnel sol) (first :: rest) persons
    /\ row = mkRow n (st_duration first)
               (strftime (plus_hours start_date (Value sol (st_start first))))
               (strftime (plus_hours start_date (Value sol (st_end first))))
               (join ", " (sorted (map name persons)))
               (join ", " (sorted (map workstream persons))).

(** Two scenarios entered under one name. *)
Definition two_regressions : list Scenario :=
  [mkScenario "Regression" 4 ["Finance"]; mkScenario "Regression" 6 ["IT"]].

Definition two_regressions_response : CpSolverResponse :=
  mkResponse OPTIMAL [0; 4; 0;  0; 6; 2;  1; 0; 0;  0; 0; 1;  6] 6.

(** ** Moving a model two variables up *)

(** The variables a constraint reads. *)
Definition literal_var (l : Literal) : IntVar :=
  match l with Lit b => b | Not b => b end.

Definition interval_vars (iv : IntervalVar) : list IntVar :=
  iv_start iv :: iv_end iv
    :: match iv_is_present iv with Some b => [b] | None => [] end.

Definition constraint_vars (c : Constraint) : list IntVar :=
  match c with
  | LinearEq e s _ => [e; s]
  | VarEq v _ l => [v; literal_var l]
  | VarNe v _ l => [v; literal_var l]
  | AllowedAssignments v _ => [v]
  | Interval iv => interval_vars iv
  | NoOverlap ivs => flat_map interval_vars ivs
  | MaxEquality target exprs => target :: exprs
  end.

(** Where the variable [v] of the model without the scenario sits in the
    model with it, when the scenario's two variables are [x] and [x + 1]. *)
Definition shift_var (x : nat) (v : IntVar) : IntVar :=
  if (v <? x)%nat then v else (v + 2)%nat.

Definition shift_literal (x : nat) (l : Literal) : Literal :=
  match l with
  | Lit b => Lit (shift_var x b)
  | Not b => Not (shift_var x b)
  end.

(** The same declaration, constraint or sub-task up to the shift of its
    variables; names, which the solver does not read, are left free. *)
Definition same_domain (d d' : IntVarDecl) : Prop :=
  var_lb d = var_lb d' /\ var_ub d = var_ub d'.

Definition shifted_interval (x : nat) (iv iv' : IntervalVar) : Prop :=
  iv_start iv = shift_var x (iv_start iv')
  /\ iv_size iv = iv_size iv'
  /\ iv_end iv = shift_var x (iv_end iv')
  /\ iv_is_present iv = shift_var x <$> iv_is_present iv'.

Definition shifted_constraint (x : nat) (c c' : Constraint) : Prop :=
  match c, c' with
  | LinearEq e s d, LinearEq e' s' d' =>
      e = shift_var x e' /\ s = shift_var x s' /\ d = d'
  | VarEq v k l, VarEq v' k' l' =>
      v = shift_var x v' /\ k = k' /\ l = shift_literal x l'
  | VarNe v k l, VarNe v' k' l' =>
      v = shift_var x v' /\ k = k' /\ l = shift_literal x l'
  | AllowedAssignments v tuples, AllowedAssignments v' tuples' =>
      v = shift_var x v' /\ tuples = tuples'
  | Interval iv, Interval iv' => shifted_interval x iv iv'
  | NoOverlap ivs, NoOverlap ivs' => Forall2 (shifted_interval x) ivs ivs'
  | MaxEquality target exprs, MaxEquality target' exprs' =>
      target = shift_var x target'
      /\ forall e, e ∈ exprs <-> exists e', e' ∈ exprs' /\ e = shift_var x e'
  | _, _ => False
  end.

Definition shifted_subtask (x : nat) (s s' : Subtask) : Prop :=
  st_scenario_name s = st_scenario_name s'
  /\ st_workstream s = st_workstream s'
  /\ st_duration s = st_duration s'
  /\ st_start s = shift_var x (st_start s')
  /\ st_end s = shift_var x (st_end s')
  /\ st_person s = shift_var x (st_person s').

(** [sol] gives to every shifted variable the value [sol'] gives to the
    variable itself. *)
Definition corresponds (x : nat) (sol sol' : Solution) : Prop :=
  forall v', Value sol (shift_var x v') = Value sol' v'.

(** Two states of two builds that run in step, one with the scenario
    (from the state [b] on) and one without it (from [b'] on): since [b]
    and [b'] both builds appended declarations of equal domains and
    constraints equal up to the shift. *)
Definition in_step (x : nat) (b b' st st' : BuildState) : Prop :=
  extends (model b) (model st)
  /\ extends (model b') (model st')
  /\ Forall2 same_domain
       (drop (length (variables (model b))) (variables (model st)))
       (drop (length (variables (model b'))) (variables (model st')))
  /\ Forall2 (shifted_constraint x)
       (drop (length (constraints (model b))) (constraints (model st)))
       (drop (length (constraints (model b'))) (constraints (model st')))
  /\ objective (model st) = shift_var x <$> objective (model st').

(** Two computations that keep two builds in step and return related
    results. *)
Definition simulates {A A'} (x : nat) (b b' : BuildState) (R : A -> A' -> Prop)
    (c : Build A) (c' : Build A') : Prop :=
  forall st st', in_step x b b' st st' ->
    R (c st).1 (c' st').1 /\ in_step x b b' (c st).2 (c' st').2.

(** Every constraint posted so far reads only variables that exist, and
    so does every sub-task recorded so far. *)
Definition scoped_constraint (n : nat) (c : Constraint) : Prop :=
  Forall (fun v => (v < n)%nat) (constraint_vars c).

Definition scoped_subtask (n : nat) (s : Subtask) : Prop :=
  (st_start s < n)%nat /\ (st_end s < n)%nat /\ (st_person s < n)%nat.

Definition scoped (st : BuildState) (all_subtasks : list Subtask) : Prop :=
  Forall (scoped_constraint (length (variables (model st)))) (constraints (model st))
  /\ Forall (scoped_subtask (length (variables (model st)))) all_subtasks.

(** The rest of [build] once the scenarios before position [j] are done. *)
Definition build_tail (personnel : list Person) (j : nat)
    (all_subtasks : list Subtask) (rest : list Scenario) : Build (list Subtask) :=
  let* all_subtasks :=
    for_fold (add_scenario personnel) all_subtasks (enumerate_from j rest) in
  let* _ := no_double_booking personnel all_subtasks in
  let* _ := minimize_makespan all_subtasks in
  ret all_subtasks.

(** A solution of the model with the scenario, from one of the model
    without it: the scenario starts at hour 0. *)
Definition with_scenario (x : nat) (d : Z) (sol' : Solution) : Solution :=
  take x sol' ++ [0; d] ++ drop x sol'.

(** And back: forget the scenario's two values. *)
Definition without_scenario (x : nat) (sol : Solution) : Solution :=
  take x sol ++ drop (x + 2) sol.

(** The second component of what a call returns. *)
Definition total_days_of (call : Outcome) : option Q :=
  match returned call with
  | inr (_, total_days) => total_days
  | inl _ => None
  end.

(** The reading of "the scenario at [i] does not affect total_days": the
    call returns the same total with and without it. *)
Definition leaves_total_days_unchanged `{DateTimeLib}
    (Solve : CpModel -> CpSolverResponse) (scenarios : list Scenario)
    (personnel : list Person) (d : string) (i : nat) : Prop :=
  total_days_of (find_optimal_schedule Solve scenarios personnel d)
  = total_days_of (find_optimal_schedule Solve (delete i scenarios) personnel d).

(** A scenario whose workstream list is empty and that is longer than the
    horizon. *)
Definition posting_and_long_unparsed : list Scenario :=
  [mkScenario "Invoice Posting" 5 ["Finance"]; mkScenario "Data Migration" 2000 []].

(** The optimum of [posting_and_unparsed] without its second scenario. *)
Definition posting_only_response : CpSolverResponse :=
  mkResponse OPTIMAL [0; 5; 0;  1;  5] 5.

(** A solver that answers INFEASIBLE on the seven-variable model with the
    long scenario and the optimum on the model without it. *)
Definition posting_solver (m : CpModel) : CpSolverResponse :=
  if decide (length (variables m) = 7%nat) then infeasible_response
  else posting_only_response.

(** A solver that answers the optimum on both models of
    [posting_and_unparsed], with and without its second scenario. *)
Definition posting_or_unparsed_solver (m : CpModel) : CpSolverResponse :=
  if decide (length (variables m) = 7%nat) then posting_response
  else posting_only_response.

(** ** Staffing of a workstream *)

(** The persons of a workstream, and how often a scenario asks for it. *)
Definition members (personnel : list Person) (ws : string) : list Person :=
  filter (fun p => workstream p = ws) personnel.

Definition times_required (sc : Scenario) (ws : string) : nat :=
  length (filter (fun w => w = ws) (required_workstreams sc)).

(** ** What a build leaves behind: printed lines and model size *)

(** The line printed for a workstream nobody belongs to. *)
Definition error_line (ws : string) : string :=
  "ERROR: No personnel found for workstream: " +:+ ws.

Definition unstaffed (personnel : list Person) (ws : string) : Prop :=
  Forall (fun p => workstream p <> ws) personnel.

#[global] Instance unstaffed_dec personnel ws : Decision (unstaffed personnel ws).
Proof. unfold unstaffed. apply _. Defined.

(** Every required workstream of every scenario, in input order: one per
    sub-task. *)
Definition all_requirements (scenarios : list Scenario) : list string :=
  concat (map required_workstreams scenarios).

Definition error_lines (personnel : list Person) (wss : list string) : list string :=
  map error_line (filter (unstaffed personnel) wss).

(** Constraints posted for a list of required workstreams by the first
    loop: the interval of each sub-task, and its allowed assignments when
    the workstream has a member. *)
Definition subtask_constraints (personnel : list Person) (wss : list string) : nat :=
  (length wss + length (filter (fun ws => ~ unstaffed personnel ws) wss))%nat.

(** [st'] is [st] after printing [lines] and appending [nv] variables and
    [nc] constraints. *)
Definition grows_by (st : BuildState) (lines : list string) (nv nc : nat)
    (st' : BuildState) : Prop :=
  stdout st' = stdout st ++ lines
  /\ length (variables (model st')) = (length (variables (model st)) + nv)%nat
  /\ length (constraints (model st')) = (length (constraints (model st)) + nc)%nat.

(** ** Hours booked *)

Definition sum_with {A} (f : A -> Z) (l : list A) : Z :=
  foldr (fun a acc => f a + acc) 0 l.

(** The hours of the sub-tasks a solution gives to the person at index [p]. *)
Definition person_hours (sol : Solution) (subs : list Subtask) (p : Z) : Z :=
  sum_with st_duration (filter (fun s => Value sol (st_person s) = p) subs).

(** The hours the scenarios ask of a workstream: each scenario's duration,
    once per time it lists the workstream. *)
Definition workstream_hours (scenarios : list Scenario) (ws : string) : Z :=
  sum_with (fun sc => duration_hours sc * Z.of_nat (times_required sc ws)) scenarios.

(** The required workstreams of the scenarios entered under the name [n],
    in input order. *)
Definition requirements_named (n : string) (scenarios : list Scenario) : list string :=
  concat (map required_workstreams (filter (fun sc => scenario_name sc = n) scenarios)).

(** ** A schedule built by hand: one scenario after the other *)

(** [g] gives values to the variables created so far, within their
    domains, and however it is continued the constraints posted so far
    hold. *)
Definition satisfied (st : BuildState) (g : Solution) : Prop :=
  in_domains (variables (model st)) g = true
  /\ forall ext, forallb (holds (g ++ ext)) (constraints (model st)) = true.

(** The person at index [p] may take a sub-task of workstream [ws]: any
    index when the workstream has no member, an index of
    [valid_people_indices] otherwise. *)
Definition eligible (personnel : list Person) (ws : string) (p : nat) : Prop :=
  (p < length personnel)%nat
  /\ (valid_people_indices personnel ws <> [] -> p ∈ valid_people_indices personnel ws).

(** A staffing of one scenario: an eligible person per required
    workstream, pairwise different when the scenario takes time. *)
Definition staffing_plan (personnel : list Person) (sc : Scenario) (ps : list nat)
  : Prop :=
  0 <= duration_hours sc
  /\ Forall2 (eligible personnel) (required_workstreams sc) ps
  /\ (0 < duration_hours sc -> NoDup ps).

(** What the hand-built values say about a recorded sub-task: it runs for
    its duration from a non-negative hour and is over by [clock]. *)
Record planned (g : Solution) (clock : Z) (s : Subtask) : Prop := {
  pl_scope : scoped_subtask (length g) s;
  pl_start : 0 <= Value g (st_start s);
  pl_dur : 0 <= st_duration s;
  pl_end : Value g (st_end s) = Value g (st_start s) + st_duration s;
  pl_clock : Value g (st_end s) <= clock
}.

(** Two sub-tasks of one person do not overlap. *)
Definition apart (g : Solution) (a b : Subtask) : Prop :=
  Value g (st_person a) = Value g (st_person b) ->
  Value g (st_end a) <= Value g (st_start b)
  \/ Value g (st_end b) <= Value g (st_start a).

(** ** Reading a solution *)

Lemma in_domains_lookup ds : forall sol v d,
  in_domains ds sol = true -> ds !! v = Some d ->
  in_domain d (Value sol v) = true.
Proof.
  unfold Value.
  induction ds as [|d0 ds IH]; intros [|x sol] v d Hd Hv; simpl in *; try discriminate.
  apply andb_prop in Hd as [Hx Hrest].
  destruct v as [|v]; simpl in *.
  - by simplify_eq.
  - by apply (IH sol v d).
Qed.

Lemma is_solution_holds m sol c :
  is_solution m sol = true -> c ∈ constraints m -> holds sol c = true.
Proof.
  unfold is_solution. intros [_ Hc]%andb_prop Hin.
  rewrite forallb_forall in Hc. apply Hc. by apply list_elem_of_In.
Qed.

Lemma is_solution_domain m sol v d :
  is_solution m sol = true -> variables m !! v = Some d ->
  var_lb d <= Value sol v <= var_ub d.
Proof.
  unfold is_solution. intros [Hd _]%andb_prop Hv.
  pose proof (in_domains_lookup _ _ _ _ Hd Hv) as Hin.
  unfold in_domain in Hin. apply andb_prop in Hin as [? ?]. lia.
Qed.

Lemma no_overlap_lookup sol ivs : forall i j a b,
  no_overlap sol ivs = true -> (i < j)%nat ->
  ivs !! i = Some a -> ivs !! j = Some b -> disjoint sol a b = true.
Proof.
  induction ivs as [|iv ivs IH]; intros i j a b Hno Hij Ha Hb; simpl in *.
  - done.
  - apply andb_prop in Hno as [Hhd Htl].
    destruct j as [|j]; [lia|]. simpl in Hb.
    destruct i as [|i]; simpl in Ha.
    + simplify_eq. rewrite forallb_forall in Hhd. apply Hhd.
      apply list_elem_of_In. by eapply list_elem_of_lookup_2.
    + apply (IH i j); auto with lia.
Qed.

(** ** The builder only appends *)

#[local] Instance extends_preorder : PreOrder extends.
Proof.
  split.
  - intros m. by split.
  - intros m1 m2 m3 [? ?] [? ?]. split; by etrans.
Qed.

Lemma extends_var m m' v d :
  extends m m' -> variables m !! v = Some d -> variables m' !! v = Some d.
Proof. intros [Hv _] Hl. by eapply prefix_lookup_Some. Qed.

Lemma extends_constraint m m' c :
  extends m m' -> c ∈ constraints m -> c ∈ constraints m'.
Proof.
  intros [_ [cs Hc]] Hin. rewrite Hc. apply elem_of_app. by left.
Qed.

Lemma subtask_posted_mono personnel m m' nm ws d sv ev pv s :
  extends m m' ->
  subtask_posted personnel m nm ws d sv ev pv s ->
  subtask_posted personnel m' nm ws d sv ev pv s.
Proof.
  intros Hext [? ? ? ? ? ? [vn Hvn] Hal [inm [Hi Hic]]].
  split; auto.
  - exists vn. by eapply extends_var.
  - intros Hne. eapply extends_constraint; eauto.
  - exists inm. split; auto. by eapply extends_constraint.
Qed.


Lemma add_subtask_step personnel i nm d sv ev acc k ws st :
  exists s st',
    add_subtask personnel i nm d sv ev acc (k, ws) st = (acc ++ [s], st')
    /\ extends (model st) (model st')
    /\ objective (model st') = objective (model st)
    /\ length (variables (model st')) = S (length (variables (model st)))
    /\ subtask_posted personnel (model st') nm ws d sv ev
         (length (variables (model st))) s.
Proof.
  unfold add_subtask, bind, NewIntVar, NewIntervalVar, bind, Add, print, ret.
  destruct (valid_people_indices personnel ws) as [|v0 vs] eqn:Hvalid; simpl.
  all: eexists _, _; split; [reflexivity|]; simpl.
  all: split; [split; simpl; rewrite <- ?app_assoc; try apply prefix_app_r; reflexivity|].
  all: split; [reflexivity|].
  all: split; [rewrite length_app; simpl; lia|].
  all: split; simpl; auto.
  all: try (eexists; apply list_lookup_middle; reflexivity).
  all: try (rewrite Hvalid; intros Hne; try done).
  all: try (eexists; split; [reflexivity|]).
  all: rewrite ?elem_of_app, ?list_elem_of_singleton; auto.
Qed.

Lemma add_subtask_loop personnel i nm d sv ev : forall wss k0 acc st,
  exists subs st',
    for_fold (add_subtask personnel i nm d sv ev) acc (enumerate_from k0 wss) st
      = (acc ++ subs, st')
    /\ extends (model st) (model st')
    /\ objective (model st') = objective (model st)
    /\ length (variables (model st')) = (length (variables (model st)) + length wss)%nat
    /\ length subs = length wss
    /\ forall k ws, wss !! k = Some ws ->
         exists s, subs !! k = Some s
           /\ subtask_posted personnel (model st') nm ws d sv ev
                (length (variables (model st)) + k)%nat s.
Proof.
  induction wss as [|ws0 wss IH]; intros k0 acc st.
  - exists [], st. simpl. rewrite app_nil_r. repeat split; auto with lia; try reflexivity.
    intros k ws Hk. done.
  - cbn [for_fold enumerate_from length]. unfold bind at 1.
    destruct (add_subtask_step personnel i nm d sv ev acc k0 ws0 st)
      as (s0 & st1 & Hstep & Hext1 & Hobj1 & Hlen1 & Hposted1).
    rewrite Hstep.
    destruct (IH (S k0) (acc ++ [s0]) st1)
      as (subs & st' & Hrun & Hext & Hobj & Hlen & Hsubs & Hall).
    exists (s0 :: subs), st'. rewrite Hrun, <- app_assoc. simpl.
    split; [reflexivity|].
    split; [by etrans|].
    split; [congruence|].
    split; [lia|]. split; [lia|].
    intros [|k] ws Hk; simpl in Hk.
    + simplify_eq. exists s0. split; [reflexivity|].
      rewrite Nat.add_0_r. by eapply subtask_posted_mono.
    + destruct (Hall k ws Hk) as (s & Hs & Hposted). exists s. split; [exact Hs|].
      rewrite Hlen1 in Hposted.
      by replace (length (variables (model st)) + S k)%nat
        with (S (length (variables (model st))) + k)%nat by lia.
Qed.

Lemma scenario_posted_mono personnel m m' subs subs' sc sv off :
  extends m m' -> subs `prefix_of` subs' ->
  scenario_posted personnel m subs sc sv off ->
  scenario_posted personnel m' subs' sc sv off.
Proof.
  intros Hext Hpre [Hs He Hl Hsub]. split.
  - by eapply extends_var.
  - by eapply extends_var.
  - by eapply extends_constraint.
  - intros k ws Hk. destruct (Hsub k ws Hk) as (s & Hs' & Hp).
    exists s. split.
    + by eapply prefix_lookup_Some.
    + by eapply subtask_posted_mono.
Qed.

Lemma add_scenario_step personnel acc i sc st :
  exists subs st',
    add_scenario personnel acc (i, sc) st = (acc ++ subs, st')
    /\ extends (model st) (model st')
    /\ objective (model st') = objective (model st)
    /\ length (variables (model st'))
       = (length (variables (model st)) + (2 + length (required_workstreams sc)))%nat
    /\ length subs = length (required_workstreams sc)
    /\ scenario_posted personnel (model st') subs sc (length (variables (model st))) 0.
Proof.
  unfold add_scenario, enumerate.
  unfold bind at 1, NewIntVar at 1. unfold bind at 1, NewIntVar at 1.
  unfold bind at 1, Add at 1. cbn [model variables constraints objective stdout].
  match goal with |- context [for_fold ?f ?a ?l ?s] =>
    destruct (add_subtask_loop personnel i (scenario_name sc) (duration_hours sc)
                (length (variables (model st)))
                (length (variables (model st) ++
                   [mkVar earliest_start horizon (scenario_name sc +:+ "_start")]))
                (required_workstreams sc) 0%nat acc s)
      as (subs & st' & Hrun & Hext & Hobj & Hlen & Hsubs & Hall)
  end.
  rewrite Hrun. exists subs, st'. cbn [model variables constraints objective] in *.
  rewrite !length_app in *. cbn [length] in *.
  assert (Hext0 : extends (model st) (model st')).
  { etrans; [|exact Hext]. split; cbn; rewrite <- ?app_assoc; apply prefix_app_r; reflexivity. }
  split; [reflexivity|]. split; [exact Hext0|]. split; [exact Hobj|].
  split; [lia|]. split; [exact Hsubs|].
  split.
  - eapply extends_var; [exact Hext|]. cbn. rewrite <- app_assoc.
    apply list_lookup_middle. reflexivity.
  - eapply extends_var; [exact Hext|]. cbn.
    apply list_lookup_middle. rewrite length_app. cbn. lia.
  - eapply extends_constraint; [exact Hext|]. cbn.
    rewrite elem_of_app, list_elem_of_singleton.
    right. f_equal; lia.
  - intros k ws Hk. destruct (Hall k ws Hk) as (s & Hs & Hp).
    exists s. split; [exact Hs|].
    replace (S (length (variables (model st)))) with (length (variables (model st)) + 1)%nat by lia.
    by replace (length (variables (model st)) + 2 + k)%nat
      with (length (variables (model st)) + 1 + 1 + k)%nat by lia.
Qed.

Lemma add_scenario_loop personnel : forall scs i0 acc st,
  exists subs st',
    for_fold (add_scenario personnel) acc (enumerate_from i0 scs) st = (acc ++ subs, st')
    /\ extends (model st) (model st')
    /\ objective (model st') = objective (model st)
    /\ length (variables (model st'))
       = (length (variables (model st)) + var_count scs)%nat
    /\ length subs = subtask_count scs
    /\ forall i sc, scs !! i = Some sc ->
         scenario_posted personnel (model st') subs sc
           (length (variables (model st)) + var_count (take i scs))%nat
           (subtask_count (take i scs)).
Proof.
  induction scs as [|sc0 scs IH]; intros i0 acc st.
  - exists [], st. cbn. rewrite app_nil_r.
    do 3 (split; [reflexivity|]). split; [lia|]. split; [reflexivity|].
    intros i sc Hi. done.
  - cbn [for_fold enumerate_from]. unfold bind at 1.
    destruct (add_scenario_step personnel acc i0 sc0 st)
      as (subs0 & st1 & Hstep & Hext1 & Hobj1 & Hlen1 & Hsubs1 & Hposted1).
    rewrite Hstep.
    destruct (IH (S i0) (acc ++ subs0) st1)
      as (subs & st' & Hrun & Hext & Hobj & Hlen & Hsubs & Hall).
    exists (subs0 ++ subs), st'. rewrite Hrun, <- app_assoc.
    unfold var_count, subtask_count in *. cbn [sum_list_with].
    split; [reflexivity|]. split; [by etrans|]. split; [congruence|].
    split; [lia|]. split; [rewrite length_app; lia|].
    intros [|j] sc Hj; cbn in Hj.
    + simplify_eq. cbn. rewrite Nat.add_0_r.
      eapply scenario_posted_mono; [exact Hext| |exact Hposted1].
      by apply prefix_app_r.
    + specialize (Hall j sc Hj). cbn [take sum_list_with].
      destruct Hall as [Hs He Hl Hsub].
      rewrite Hlen1 in Hs, He, Hl.
      rewrite Nat.add_assoc.
      split; auto.
      intros k ws Hk. destruct (Hsub k ws Hk) as (s & Hs' & Hp).
      exists s. split.
      * rewrite lookup_app_r by lia. rewrite <- Hs'. f_equal. lia.
      * by rewrite Hlen1 in Hp.
Qed.

Lemma linked_mono m m' s p iv : extends m m' -> linked m s p iv -> linked m' s p iv.
Proof.
  intros Hext (b & bn & nm & -> & Hb & Heq & Hne & Hiv).
  exists b, bn, nm. split; [reflexivity|].
  split; [by eapply extends_var|].
  repeat split; by eapply extends_constraint.
Qed.

Lemma link_person_step s pti p st :
  exists iv st',
    link_person s pti p st = (alter (fun ivs => ivs ++ [iv]) p pti, st')
    /\ extends (model st) (model st')
    /\ objective (model st') = objective (model st)
    /\ linked (model st') s p iv.
Proof.
  unfold link_person, NewBoolVar, NewOptionalIntervalVar, bind, NewIntVar, Add, ret.
  cbn. eexists _, _. split; [reflexivity|]. cbn.
  split; [split; cbn; rewrite <- ?app_assoc; apply prefix_app_r; reflexivity|].
  split; [reflexivity|].
  eexists _, _, _. split; [reflexivity|]. cbn.
  split; [apply list_lookup_middle; reflexivity|].
  rewrite !elem_of_app, !list_elem_of_singleton. auto.
Qed.

Lemma link_person_loop s : forall n a pti st,
  (a + n <= length pti)%nat ->
  exists pti' st',
    for_fold (link_person s) pti (seq a n) st = (pti', st')
    /\ extends (model st) (model st')
    /\ objective (model st') = objective (model st)
    /\ length pti' = length pti
    /\ (forall p, (p < a \/ a + n <= p)%nat -> pti' !! p = pti !! p)
    /\ (forall p ivs, (a <= p < a + n)%nat -> pti !! p = Some ivs ->
          exists iv, pti' !! p = Some (ivs ++ [iv]) /\ linked (model st') s p iv).
Proof.
  induction n as [|n IH]; intros a pti st Hlen.
  - exists pti, st. cbn. do 4 (split; [reflexivity|]). split; [done|]. intros; lia.
  - cbn [seq for_fold]. unfold bind at 1.
    destruct (link_person_step s pti a st) as (iv0 & st1 & Hstep & Hext1 & Hobj1 & Hlink1).
    rewrite Hstep.
    destruct (IH (S a) (alter (fun ivs => ivs ++ [iv0]) a pti) st1)
      as (pti' & st' & Hrun & Hext & Hobj & Hlen' & Hout & Hin).
    { rewrite length_alter. lia. }
    rewrite length_alter in Hlen'.
    exists pti', st'. split; [exact Hrun|]. split; [by etrans|].
    split; [congruence|]. split; [exact Hlen'|]. split.
    + intros p Hp. rewrite Hout by lia. apply list_lookup_alter_ne. lia.
    + intros p ivs Hp Hivs. destruct (decide (p = a)) as [->|Hne].
      * exists iv0. split.
        -- rewrite Hout by lia. rewrite list_lookup_alter_eq, Hivs. reflexivity.
        -- by eapply linked_mono.
      * apply (Hin p ivs); [lia|]. rewrite list_lookup_alter_ne by lia. exact Hivs.
Qed.

Lemma link_subtask_loop personnel : forall subs pti st,
  length pti = length personnel ->
  exists pti' st',
    for_fold (link_subtask personnel) pti subs st = (pti', st')
    /\ extends (model st) (model st')
    /\ objective (model st') = objective (model st)
    /\ length pti' = length personnel
    /\ forall p ivs, pti !! p = Some ivs ->
         exists new, pti' !! p = Some (ivs ++ new)
           /\ Forall2 (fun s iv => linked (model st') s p iv) subs new.
Proof.
  induction subs as [|s subs IH]; intros pti st Hlen.
  - exists pti, st. cbn. do 3 (split; [reflexivity|]). split; [exact Hlen|].
    intros p ivs Hp. exists []. rewrite app_nil_r. split; [exact Hp|constructor].
  - cbn [for_fold]. unfold bind at 1.
    change (link_subtask personnel pti s st)
      with (for_fold (link_person s) pti (seq 0 (length personnel)) st).
    destruct (link_person_loop s (length personnel) 0 pti st)
      as (pti1 & st1 & Hstep & Hext1 & Hobj1 & Hlen1 & Hout1 & Hin1); [lia|].
    rewrite Hstep.
    destruct (IH pti1 st1) as (pti' & st' & Hrun & Hext & Hobj & Hlen' & Hall);
      [congruence|].
    exists pti', st'. split; [exact Hrun|]. split; [by etrans|].
    split; [congruence|]. split; [exact Hlen'|].
    intros p ivs Hp.
    assert (Hlt : (p < length personnel)%nat).
    { rewrite <- Hlen. by eapply lookup_lt_Some. }
    destruct (Hin1 p ivs) as (iv & Hiv & Hlinked); [lia|exact Hp|].
    destruct (Hall p _ Hiv) as (new & Hnew & Hf2).
    exists (iv :: new). split.
    + rewrite Hnew. by rewrite <- app_assoc.
    + constructor; [by eapply linked_mono|exact Hf2].
Qed.

Lemma add_no_overlap_loop : forall pti st,
  exists st',
    for_fold add_no_overlap tt pti st = (tt, st')
    /\ extends (model st) (model st')
    /\ objective (model st') = objective (model st)
    /\ variables (model st') = variables (model st)
    /\ forall ivs, ivs ∈ pti -> NoOverlap ivs ∈ constraints (model st').
Proof.
  induction pti as [|ivs0 pti IH]; intros st.
  - exists st. cbn. do 4 (split; [reflexivity|]). intros ivs Hin. by apply elem_of_nil in Hin.
  - cbn [for_fold]. unfold bind at 1.
    destruct (add_no_overlap tt ivs0 st) as [[] st1] eqn:Hstep.
    unfold add_no_overlap, Add in Hstep. inversion Hstep as [Hst1]. clear Hstep.
    destruct (IH st1) as (st' & Hrun & Hext & Hobj & Hvars & Hall).
    subst st1. exists st'. split; [exact Hrun|]. cbn in *.
    assert (Hext0 : extends (model st) (model st')).
    { etrans; [|exact Hext]. split; cbn; [reflexivity|by apply prefix_app_r]. }
    split; [exact Hext0|]. split; [exact Hobj|]. split; [exact Hvars|].
    intros ivs [->|Hin]%elem_of_cons.
    + eapply extends_constraint; [exact Hext|]. cbn.
      rewrite elem_of_app, list_elem_of_singleton. by right.
    + by apply Hall.
Qed.

Lemma minimize_makespan_step subs st :
  exists mx st',
    minimize_makespan subs st = (mx, st')
    /\ extends (model st) (model st')
    /\ objective (model st') = Some mx
    /\ variables (model st') !! mx = Some (mkVar 0 horizon "max_end_time")
    /\ MaxEquality mx (all_end_vars subs) ∈ constraints (model st').
Proof.
  unfold minimize_makespan, bind, NewIntVar, Add, Minimize, ret. cbn.
  eexists _, _. split; [reflexivity|]. cbn.
  split; [split; cbn; apply prefix_app_r; reflexivity|].
  split; [reflexivity|].
  split; [apply list_lookup_middle; reflexivity|].
  rewrite elem_of_app, list_elem_of_singleton. by right.
Qed.

Lemma build_run scenarios personnel :
  exists subs st,
    build scenarios personnel initial_state = (subs, st)
    /\ build_facts scenarios personnel subs (model st).
Proof.
  unfold build, create_subtasks, no_double_booking, enumerate.
  unfold bind at 1.
  destruct (add_scenario_loop personnel scenarios 0 [] initial_state)
    as (subs & st1 & Hrun1 & Hext1 & _ & Hlen1 & Hcount & Hposted).
  rewrite Hrun1. cbn [app].
  unfold bind at 1. unfold bind at 1.
  destruct (link_subtask_loop personnel subs (map (fun _ => []) personnel) st1)
    as (pti & st2 & Hrun2 & Hext2 & _ & Hlen2 & Hlinked); [by rewrite length_map|].
  rewrite Hrun2.
  destruct (add_no_overlap_loop pti st2) as (st3 & Hrun3 & Hext3 & _ & _ & Hno).
  rewrite Hrun3. unfold bind at 1.
  destruct (minimize_makespan_step subs st3) as (mx & st4 & Hrun4 & Hext4 & Hobj & Hmx & Hmax).
  rewrite Hrun4. unfold ret. exists subs, st4. split; [reflexivity|].
  assert (H14 : extends (model st1) (model st4)) by (etrans; [|exact Hext4]; by etrans).
  assert (H24 : extends (model st2) (model st4)) by (by etrans).
  split.
  - exact Hcount.
  - intros i sc Hi. eapply scenario_posted_mono; [exact H14|reflexivity|].
    apply (Hposted i sc Hi).
  - intros p Hp.
    destruct (Hlinked p []) as (ivs & Hivs & Hf2).
    { rewrite list_lookup_fmap. destruct (lookup_lt_is_Some_2 personnel p Hp) as [x ->].
      reflexivity. }
    exists ivs. split.
    + eapply extends_constraint; [exact Hext4|]. apply Hno.
      by eapply list_elem_of_lookup_2.
    + eapply Forall2_impl; [exact Hf2|]. intros s iv Hl. by eapply linked_mono.
  - exists mx. auto.
Qed.

Lemma build_spec scenarios personnel :
  build_facts scenarios personnel
    (built_subtasks scenarios personnel) (built_model scenarios personnel).
Proof.
  unfold built_subtasks, built_model.
  destruct (build_run scenarios personnel) as (subs & st & -> & Hfacts). exact Hfacts.
Qed.


(** ** Consequences for a solution of the built model *)

Lemma subtask_index_decompose : forall scs t,
  (t < subtask_count scs)%nat ->
  exists i sc k,
    scs !! i = Some sc /\ (k < length (required_workstreams sc))%nat
    /\ t = (subtask_count (take i scs) + k)%nat.
Proof.
  unfold subtask_count.
  induction scs as [|sc0 scs IH]; intros t Ht; cbn in Ht; [lia|].
  destruct (decide (t < length (required_workstreams sc0))%nat) as [Hlt|Hge].
  - exists 0%nat, sc0, t. cbn. auto.
  - destruct (IH (t - length (required_workstreams sc0))%nat) as (i & sc & k & Hi & Hk & Ht');
      [lia|].
    exists (S i), sc, k. cbn. split; [exact Hi|]. split; [exact Hk|]. lia.
Qed.

Lemma build_facts_subtask scenarios personnel subs m t s :
  build_facts scenarios personnel subs m ->
  subs !! t = Some s ->
  exists i sc k ws,
    scenarios !! i = Some sc /\ required_workstreams sc !! k = Some ws
    /\ t = subtask_index scenarios i k
    /\ subtask_posted personnel m (scenario_name sc) ws (duration_hours sc)
         (scenario_start_var scenarios i) (scenario_end_var scenarios i)
         (scenario_start_var scenarios i + 2 + k)%nat s.
Proof.
  intros Hb Hs.
  assert (Ht : (t < subtask_count scenarios)%nat).
  { rewrite <- (bf_count _ _ _ _ Hb). by eapply lookup_lt_Some. }
  destruct (subtask_index_decompose _ _ Ht) as (i & sc & k & Hi & Hk & ->).
  destruct (lookup_lt_is_Some_2 _ _ Hk) as [ws Hws].
  destruct (sp_subtasks _ _ _ _ _ _ (bf_scenarios _ _ _ _ Hb i sc Hi) k ws Hws)
    as (s' & Hs' & Hposted).
  exists i, sc, k, ws. rewrite Hs in Hs'. by simplify_eq.
Qed.

(** Every solved person variable is an index into [personnel]. *)
Lemma person_value_in_range scenarios personnel subs m sol t s :
  build_facts scenarios personnel subs m ->
  is_solution m sol = true ->
  subs !! t = Some s ->
  0 <= Value sol (st_person s) < Z.of_nat (length personnel).
Proof.
  intros Hb Hsol Hs.
  destruct (build_facts_subtask _ _ _ _ _ _ Hb Hs) as (i & sc & k & ws & _ & _ & _ & Hp).
  destruct (posted_domain _ _ _ _ _ _ _ _ _ Hp) as [vn Hvn].
  rewrite <- (posted_person _ _ _ _ _ _ _ _ _ Hp) in Hvn.
  pose proof (is_solution_domain _ _ _ _ Hsol Hvn) as Hd. cbn in Hd. lia.
Qed.

(** The shared end of a scenario is its shared start plus its duration. *)
Lemma scenario_end_value scenarios personnel subs m sol i sc :
  build_facts scenarios personnel subs m ->
  is_solution m sol = true ->
  scenarios !! i = Some sc ->
  Value sol (scenario_end_var scenarios i)
    = Value sol (scenario_start_var scenarios i) + duration_hours sc.
Proof.
  intros Hb Hsol Hi.
  pose proof (sp_link _ _ _ _ _ _ (bf_scenarios _ _ _ _ Hb i sc Hi)) as Hl.
  pose proof (is_solution_holds _ _ _ Hsol Hl) as Hh. cbn in Hh.
  by apply Z.eqb_eq in Hh.
Qed.

Lemma linked_present m sol s p iv :
  is_solution m sol = true -> linked m s p iv ->
  Value sol (st_person s) = Z.of_nat p ->
  is_present sol iv = true
  /\ iv_start iv = st_start s /\ iv_end iv = st_end s.
Proof.
  intros Hsol (b & bn & nm & -> & _ & _ & Hne & _) Hp.
  pose proof (is_solution_holds _ _ _ Hsol Hne) as Hh. cbn in Hh.
  rewrite Hp, Z.eqb_refl in Hh. cbn in Hh.
  rewrite orb_false_r, negb_involutive in Hh.
  unfold is_present. cbn. auto.
Qed.

(** Two sub-tasks at different positions with the same solved person do
    not overlap. *)
Lemma same_person_disjoint scenarios personnel subs m sol t1 t2 s1 s2 :
  build_facts scenarios personnel subs m ->
  is_solution m sol = true ->
  t1 <> t2 ->
  subs !! t1 = Some s1 -> subs !! t2 = Some s2 ->
  Value sol (st_person s1) = Value sol (st_person s2) ->
  Value sol (st_end s1) <= Value sol (st_start s2)
  \/ Value sol (st_end s2) <= Value sol (st_start s1).
Proof.
  intros Hb Hsol.
  assert (Hlt : forall t1 t2 s1 s2, (t1 < t2)%nat ->
            subs !! t1 = Some s1 -> subs !! t2 = Some s2 ->
            Value sol (st_person s1) = Value sol (st_person s2) ->
            Value sol (st_end s1) <= Value sol (st_start s2)
            \/ Value sol (st_end s2) <= Value sol (st_start s1)).
  { clear t1 t2 s1 s2. intros t1 t2 s1 s2 Hlt H1 H2 Hsame.
    pose proof (person_value_in_range _ _ _ _ _ _ _ Hb Hsol H1) as Hrange.
    set (p := Z.to_nat (Value sol (st_person s1))).
    assert (Hp1 : Value sol (st_person s1) = Z.of_nat p) by (subst p; lia).
    assert (Hp2 : Value sol (st_person s2) = Z.of_nat p) by congruence.
    destruct (bf_no_overlap _ _ _ _ Hb p) as (ivs & Hno & Hf2); [subst p; lia|].
    destruct (Forall2_lookup_l _ _ _ _ _ Hf2 H1) as (iv1 & Hiv1 & Hl1).
    destruct (Forall2_lookup_l _ _ _ _ _ Hf2 H2) as (iv2 & Hiv2 & Hl2).
    destruct (linked_present _ _ _ _ _ Hsol Hl1 Hp1) as (Hpr1 & Hs1 & He1).
    destruct (linked_present _ _ _ _ _ Hsol Hl2 Hp2) as (Hpr2 & Hs2 & He2).
    pose proof (is_solution_holds _ _ _ Hsol Hno) as Hh. cbn in Hh.
    pose proof (no_overlap_lookup _ _ _ _ _ _ Hh Hlt Hiv1 Hiv2) as Hd.
    unfold disjoint in Hd. rewrite Hpr1, Hpr2, Hs1, Hs2, He1, He2 in Hd. cbn in Hd.
    apply orb_prop in Hd as [Hd|Hd]; apply Z.leb_le in Hd; auto. }
  intros Hne H1 H2 Hsame.
  destruct (decide (t1 < t2)%nat).
  - by eapply Hlt.
  - destruct (Hlt t2 t1 s2 s1) as [?|?]; auto with lia.
Qed.


(** ** What a returned schedule was computed from *)

Lemma solved_is_solution m r :
  response_sound m r = true -> solved r = true ->
  is_solution m (solution r) = true
  /\ objective_value r = objective_of m (solution r).
Proof.
  unfold response_sound. intros Hs Hsolved. rewrite Hsolved in Hs. cbn in Hs.
  apply andb_prop in Hs as [? ?%Z.eqb_eq]. auto.
Qed.

Lemma returned_schedule `{DateTimeLib} Solve scenarios personnel d df days :
  returned (find_optimal_schedule Solve scenarios personnel d) = inr (df, Some days) ->
  solved (Solve (built_model scenarios personnel)) = true
  /\ days = days_of_hours (objective_value (Solve (built_model scenarios personnel)))
  /\ exists start_date scenario_results,
       strptime d = Some start_date
       /\ regroup personnel start_date (solved_values Solve scenarios personnel) []
            (built_subtasks scenarios personnel) = inr scenario_results
       /\ df = map (fun kv => format_result kv.2) scenario_results.
Proof.
  unfold find_optimal_schedule, solved_values, built_model, built_subtasks.
  destruct (strptime d) as [start_date|]; [|discriminate].
  destruct (build scenarios personnel initial_state) as [subs st]. cbn [fst snd].
  destruct (solved (Solve (model st))); [|discriminate].
  destruct (regroup personnel start_date (solution (Solve (model st))) [] subs)
    as [e|scenario_results] eqn:Hre; [discriminate|].
  cbn. intros [= <- <-]. split; [reflexivity|]. split; [reflexivity|].
  exists start_date, scenario_results. auto.
Qed.

Lemma returned_schedule_solution `{DateTimeLib} Solve scenarios personnel d df days :
  response_sound (built_model scenarios personnel)
    (Solve (built_model scenarios personnel)) = true ->
  returned (find_optimal_schedule Solve scenarios personnel d) = inr (df, Some days) ->
  is_solution (built_model scenarios personnel)
    (solved_values Solve scenarios personnel) = true.
Proof.
  intros Hsound Hret.
  destruct (returned_schedule _ _ _ _ _ _ Hret) as (Hsolved & _).
  by destruct (solved_is_solution _ _ Hsound Hsolved).
Qed.


(** ** The objective is the largest sub-task end *)

Lemma max_list_ub x xs y : y ∈ x :: xs -> y <= max_list x xs.
Proof.
  unfold max_list. induction xs as [|z xs IH]; cbn.
  - intros ->%list_elem_of_singleton. lia.
  - intros [->|[->|Hin]%elem_of_cons]%elem_of_cons.
    + assert (x ∈ x :: xs) as Hx%IH by left. lia.
    + lia.
    + assert (y ∈ x :: xs) as Hy%IH by (by right). lia.
Qed.

Lemma max_list_elem x xs : max_list x xs ∈ x :: xs.
Proof.
  unfold max_list. induction xs as [|z xs IH]; cbn.
  - left.
  - destruct (Z.max_spec z (foldr Z.max x xs)) as [[_ ->]|[_ ->]].
    + apply elem_of_cons in IH as [->|Hin]; [left|right; by right].
    + right. left.
Qed.

Lemma makespan_is_max_end scenarios personnel subs m sol :
  build_facts scenarios personnel subs m ->
  is_solution m sol = true ->
  (forall t s, subs !! t = Some s -> Value sol (st_end s) <= objective_of m sol)
  /\ (exists t s, subs !! t = Some s /\ Value sol (st_end s) = objective_of m sol).
Proof.
  intros Hb Hsol.
  destruct (bf_objective _ _ _ _ Hb) as (mx & Hobj & _ & Hmax).
  pose proof (is_solution_holds _ _ _ Hsol Hmax) as Hh. cbn in Hh.
  unfold objective_of. rewrite Hobj.
  destruct (all_end_vars subs) as [|e es] eqn:Hends; [discriminate|].
  apply Z.eqb_eq in Hh. rewrite Hh.
  assert (Hin : forall v, v ∈ e :: es <-> exists t s, subs !! t = Some s /\ st_end s = v).
  { intros v. rewrite <- Hends. unfold all_end_vars.
    rewrite elem_of_remove_dups, list_elem_of_fmap. split.
    - intros (s & -> & [t Ht]%list_elem_of_lookup). eauto.
    - intros (t & s & Ht & <-). exists s. split; [reflexivity|].
      by eapply list_elem_of_lookup_2. }
  split.
  - intros t s Hs. apply max_list_ub.
    change (Value sol (st_end s) ∈ map (Value sol) (e :: es)).
    apply list_elem_of_fmap. exists (st_end s). split; [reflexivity|].
    apply Hin. eauto.
  - pose proof (max_list_elem (Value sol e) (map (Value sol) es)) as Hel.
    change (max_list (Value sol e) (map (Value sol) es) ∈ map (Value sol) (e :: es)) in Hel.
    apply list_elem_of_fmap in Hel as (v & Hv & (t & s & Hs & <-)%Hin).
    exists t, s. split; [exact Hs|]. by rewrite Hv.
Qed.

Lemma days_times_24 h : (days_of_hours h * inject_Z 24 == inject_Z h)%Q.
Proof. unfold days_of_hours. field. Qed.


Lemma scenario_start_nonneg scenarios personnel subs m sol i sc :
  build_facts scenarios personnel subs m ->
  is_solution m sol = true ->
  scenarios !! i = Some sc ->
  0 <= Value sol (scenario_start_var scenarios i) <= horizon.
Proof.
  intros Hb Hsol Hi.
  pose proof (sp_start _ _ _ _ _ _ (bf_scenarios _ _ _ _ Hb i sc Hi)) as Hv.
  exact (is_solution_domain _ _ _ _ Hsol Hv).
Qed.

(** The end of a scenario with at least one required workstream is the
    end of its first sub-task, hence bounded by the objective. *)
Lemma staffed_scenario_end_le_objective scenarios personnel subs m sol i sc :
  build_facts scenarios personnel subs m ->
  is_solution m sol = true ->
  scenarios !! i = Some sc ->
  required_workstreams sc <> [] ->
  Value sol (scenario_end_var scenarios i) <= objective_of m sol.
Proof.
  intros Hb Hsol Hi Hne.
  destruct (required_workstreams sc) as [|ws wss] eqn:Hreq; [done|].
  destruct (sp_subtasks _ _ _ _ _ _ (bf_scenarios _ _ _ _ Hb i sc Hi) 0%nat ws)
    as (s & Hs & Hp); [by rewrite Hreq|].
  unfold scenario_end_var. rewrite <- (posted_end _ _ _ _ _ _ _ _ _ Hp).
  eapply (proj1 (makespan_is_max_end _ _ _ _ _ Hb Hsol)). exact Hs.
Qed.

Lemma objective_at_least_duration scenarios personnel subs m sol i sc :
  build_facts scenarios personnel subs m ->
  is_solution m sol = true ->
  scenarios !! i = Some sc ->
  required_workstreams sc <> [] ->
  duration_hours sc <= objective_of m sol.
Proof.
  intros Hb Hsol Hi Hne.
  pose proof (staffed_scenario_end_le_objective _ _ _ _ _ _ _ Hb Hsol Hi Hne).
  pose proof (scenario_end_value _ _ _ _ _ _ _ Hb Hsol Hi).
  pose proof (scenario_start_nonneg _ _ _ _ _ _ _ Hb Hsol Hi). lia.
Qed.


(** What a solution says about one entry of [all_subtasks]. *)
Lemma subtask_solution_facts scenarios personnel subs m sol t s :
  build_facts scenarios personnel subs m ->
  is_solution m sol = true ->
  subs !! t = Some s ->
  Value sol (st_end s) = Value sol (st_start s) + st_duration s
  /\ 0 <= Value sol (st_start s) <= horizon
  /\ 0 <= Value sol (st_person s) < Z.of_nat (length personnel)
  /\ Value sol (st_end s) <= objective_of m sol
  /\ (valid_people_indices personnel (st_workstream s) <> [] ->
      Value sol (st_person s)
        ∈ map Z.of_nat (valid_people_indices personnel (st_workstream s))).
Proof.
  intros Hb Hsol Hs.
  destruct (build_facts_subtask _ _ _ _ _ _ Hb Hs) as (i & sc & k & ws & Hi & Hk & _ & Hp).
  pose proof (scenario_end_value _ _ _ _ _ _ _ Hb Hsol Hi) as Hend.
  pose proof (scenario_start_nonneg _ _ _ _ _ _ _ Hb Hsol Hi) as Hstart.
  pose proof (person_value_in_range _ _ _ _ _ _ _ Hb Hsol Hs) as Hperson.
  pose proof (proj1 (makespan_is_max_end _ _ _ _ _ Hb Hsol) t s Hs) as Hmax.
  destruct Hp as [_ Hw Hd Hst He Hpv _ Hal _].
  rewrite Hst, He, Hd, Hw, Hpv. unfold scenario_end_var in Hend.
  split; [exact Hend|]. split; [exact Hstart|].
  split; [by rewrite <- Hpv|]. split; [by rewrite <- He|].
  intros Hne. pose proof (is_solution_holds _ _ _ Hsol (Hal Hne)) as Hh. cbn in Hh.
  apply existsb_exists in Hh as (x & Hx%list_elem_of_In & ->%Z.eqb_eq). exact Hx.
Qed.


(** ** Unfolding one call *)

Lemma find_optimal_schedule_solved `{DateTimeLib} Solve scenarios personnel d
    start_date scenario_results :
  strptime d = Some start_date ->
  solved (Solve (built_model scenarios personnel)) = true ->
  regroup personnel start_date (solved_values Solve scenarios personnel) []
    (built_subtasks scenarios personnel) = inr scenario_results ->
  find_optimal_schedule Solve scenarios personnel d
  = mkOutcome
      (inr (map (fun kv => format_result kv.2) scenario_results,
            Some (days_of_hours
                    (objective_value (Solve (built_model scenarios personnel))))))
      (built_stdout scenarios personnel) [built_model scenarios personnel].
Proof.
  unfold find_optimal_schedule, solved_values, built_model, built_subtasks, built_stdout.
  intros -> . destruct (build scenarios personnel initial_state) as [subs st]. cbn [fst snd].
  intros -> ->. reflexivity.
Qed.

Lemma find_optimal_schedule_unsolved `{DateTimeLib} Solve scenarios personnel d
    start_date :
  strptime d = Some start_date ->
  solved (Solve (built_model scenarios personnel)) = false ->
  find_optimal_schedule Solve scenarios personnel d
  = mkOutcome (inr ([], None))
      (built_stdout scenarios personnel) [built_model scenarios personnel].
Proof.
  unfold find_optimal_schedule, built_model, built_stdout.
  intros -> . destruct (build scenarios personnel initial_state) as [subs st]. cbn [fst snd].
  intros ->. reflexivity.
Qed.

(** The result extractor reads a solution only at the variables of the
    sub-tasks. *)
Lemma regroup_ext `{DateTimeLib} personnel start_date sol sol' : forall subs dict,
  Forall (fun s => Value sol (st_start s) = Value sol' (st_start s)
                   /\ Value sol (st_end s) = Value sol' (st_end s)
                   /\ Value sol (st_person s) = Value sol' (st_person s)) subs ->
  regroup personnel start_date sol dict subs
  = regroup personnel start_date sol' dict subs.
Proof.
  induction subs as [|s subs IH]; intros dict Hall; [reflexivity|].
  apply Forall_cons in Hall as [(Hs & He & Hp) Hall].
  cbn [regroup]. unfold record_subtask. rewrite Hs, He, Hp.
  destruct (py_index personnel (Value sol' (st_person s))); [|reflexivity].
  by apply IH.
Qed.

(** ** The default tables *)

Lemma default_subtasks :
  built_subtasks default_scenario_data default_personnel_data
  = [mkSubtask "P2P End-to-End" "Finance" 12 0%nat 1%nat 2%nat
       (mkInterval 0%nat 12 1%nat None "interval_0_0");
     mkSubtask "P2P End-to-End" "Logistics" 12 0%nat 1%nat 3%nat
       (mkInterval 0%nat 12 1%nat None "interval_0_1");
     mkSubtask "P2P End-to-End" "IT" 12 0%nat 1%nat 4%nat
       (mkInterval 0%nat 12 1%nat None "interval_0_2");
     mkSubtask "Invoice Posting" "Finance" 6 5%nat 6%nat 7%nat
       (mkInterval 5%nat 6 6%nat None "interval_1_0")].
Proof. vm_compute. reflexivity. Qed.

Lemma default_valid_people :
  valid_people_indices default_personnel_data "Finance" = [0%nat]
  /\ valid_people_indices default_personnel_data "Logistics" = [1%nat]
  /\ valid_people_indices default_personnel_data "IT" = [2%nat].
Proof. vm_compute. auto. Qed.

(** In every solution of the default model the person variables are
    Alice, Bob, Charlie and Alice, and the two scenarios do not overlap. *)
Lemma default_solution_shape sol :
  is_solution (built_model default_scenario_data default_personnel_data) sol = true ->
  Value sol 2%nat = 0 /\ Value sol 3%nat = 1 /\ Value sol 4%nat = 2 /\ Value sol 7%nat = 0
  /\ Value sol 1%nat = Value sol 0%nat + 12 /\ Value sol 6%nat = Value sol 5%nat + 6
  /\ 0 <= Value sol 0%nat /\ 0 <= Value sol 5%nat
  /\ (Value sol 1%nat <= Value sol 5%nat \/ Value sol 6%nat <= Value sol 0%nat)
  /\ Z.max (Value sol 1%nat) (Value sol 6%nat)
     = objective_of (built_model default_scenario_data default_personnel_data) sol.
Proof.
  intros Hsol.
  pose proof (build_spec default_scenario_data default_personnel_data) as Hb.
  rewrite default_subtasks in Hb.
  destruct default_valid_people as (Hfin & Hlog & Hit).
  destruct (subtask_solution_facts _ _ _ _ sol 0%nat _ Hb Hsol eq_refl)
    as (He0 & Hs0 & _ & Hm0 & Hv0).
  destruct (subtask_solution_facts _ _ _ _ sol 1%nat _ Hb Hsol eq_refl)
    as (_ & _ & _ & _ & Hv1).
  destruct (subtask_solution_facts _ _ _ _ sol 2%nat _ Hb Hsol eq_refl)
    as (_ & _ & _ & _ & Hv2).
  destruct (subtask_solution_facts _ _ _ _ sol 3%nat _ Hb Hsol eq_refl)
    as (He3 & Hs3 & _ & Hm3 & Hv3).
  cbn [st_start st_end st_person st_duration st_workstream]
    in He0, Hs0, Hm0, Hv0, Hv1, Hv2, He3, Hs3, Hm3, Hv3.
  rewrite Hfin in Hv0, Hv3. rewrite Hlog in Hv1. rewrite Hit in Hv2.
  specialize (Hv0 ltac:(discriminate)). specialize (Hv1 ltac:(discriminate)).
  specialize (Hv2 ltac:(discriminate)). specialize (Hv3 ltac:(discriminate)).
  apply list_elem_of_singleton in Hv0, Hv1, Hv2, Hv3.
  cbn [Z.of_nat Pos.of_succ_nat Pos.succ] in Hv0, Hv1, Hv2, Hv3.
  assert (Hdis : Value sol 1%nat <= Value sol 5%nat \/ Value sol 6%nat <= Value sol 0%nat).
  { refine (same_person_disjoint _ _ _ _ sol 0%nat 3%nat _ _ Hb Hsol _ eq_refl eq_refl _).
    - lia.
    - cbn [st_person]. congruence. }
  destruct (proj2 (makespan_is_max_end _ _ _ _ _ Hb Hsol)) as (t & s & Hs & Hend).
  do 8 (split; [first [assumption | lia]|]). split; [exact Hdis|].
  rewrite <- Hend in Hm0, Hm3 |- *. clear Hb Hsol Hend.
  destruct t as [|[|[|[|t]]]]; cbn [lookup list_lookup] in Hs;
    [injection Hs as <-; cbn [st_end] in Hm0, Hm3 |- *; lia ..|discriminate].
Qed.


Lemma default_solution_is_solution :
  is_solution (built_model default_scenario_data default_personnel_data)
    default_solution = true
  /\ objective_of (built_model default_scenario_data default_personnel_data)
       default_solution = 18.
Proof. vm_compute. auto. Qed.

(** No solution of the default model finishes before hour 18: both
    scenarios need Alice, so they run one after the other. *)
Lemma default_model_lower_bound sol :
  is_solution (built_model default_scenario_data default_personnel_data) sol = true ->
  18 <= objective_of (built_model default_scenario_data default_personnel_data) sol.
Proof.
  intros Hsol. destruct (default_solution_shape sol Hsol)
    as (_ & _ & _ & _ & He1 & He6 & Hs0 & Hs5 & Hdis & <-). lia.
Qed.

Lemma default_regroup `{DateTimeLib} start_date sol p2p_start invoice_start :
  Value sol 0%nat = p2p_start -> Value sol 1%nat = p2p_start + 12 ->
  Value sol 5%nat = invoice_start -> Value sol 6%nat = invoice_start + 6 ->
  Value sol 2%nat = 0 -> Value sol 3%nat = 1 -> Value sol 4%nat = 2 ->
  Value sol 7%nat = 0 ->
  exists scenario_results,
    regroup default_personnel_data start_date sol []
      (built_subtasks default_scenario_data default_personnel_data)
    = inr scenario_results
    /\ map (fun kv => format_result kv.2) scenario_results
       = calibration_rows start_date p2p_start invoice_start.
Proof.
  intros H0 H1 H5 H6 H2 H3 H4 H7. rewrite default_subtasks.
  cbn [regroup]. unfold record_subtask. cbn [st_start st_end st_person st_scenario_name
                                             st_duration].
  rewrite H0, H1, H2, H3, H4, H5, H6, H7.
  eexists. split; [vm_compute; reflexivity|]. vm_compute. reflexivity.
Qed.


(** ** A workstream nobody belongs to *)

Lemma security_review_subtasks :
  built_subtasks security_review one_accountant
  = [mkSubtask "Security Review" "IT" 3 0%nat 1%nat 2%nat
       (mkInterval 0%nat 3 1%nat None "interval_0_0")].
Proof. vm_compute. reflexivity. Qed.

Lemma security_review_solution_shape sol :
  is_solution (built_model security_review one_accountant) sol = true ->
  Value sol 2%nat = 0 /\ Value sol 1%nat = Value sol 0%nat + 3
  /\ objective_of (built_model security_review one_accountant) sol = Value sol 1%nat.
Proof.
  intros Hsol.
  pose proof (build_spec security_review one_accountant) as Hb.
  rewrite security_review_subtasks in Hb.
  destruct (subtask_solution_facts _ _ _ _ sol 0%nat _ Hb Hsol eq_refl)
    as (He & _ & Hp & _ & _).
  cbn [st_start st_end st_person st_duration length one_accountant] in He, Hp.
  destruct (proj2 (makespan_is_max_end _ _ _ _ _ Hb Hsol)) as (t & s & Hs & Hend).
  split; [lia|]. split; [exact He|]. rewrite <- Hend. clear Hb Hsol Hend.
  destruct t as [|t]; cbn [lookup list_lookup] in Hs; [|discriminate].
  by injection Hs as <-.
Qed.


Lemma py_index_in_range {A} (xs : list A) (i : Z) :
  0 <= i < Z.of_nat (length xs) ->
  exists x, py_index xs i = Some x /\ xs !! Z.to_nat i = Some x.
Proof.
  intros Hi. unfold py_index.
  destruct (Z.leb_spec 0 i); [|lia].
  destruct (lookup_lt_is_Some_2 xs (Z.to_nat i)) as [x Hx]; [lia|].
  exists x. auto.
Qed.


(** ** Empty tables *)

(** Without personnel every person variable has the empty domain
    [0, -1]: a scenario with a required workstream has no solution. *)
Lemma no_personnel_no_solution scenarios i sc sol :
  scenarios !! i = Some sc ->
  required_workstreams sc <> [] ->
  is_solution (built_model scenarios []) sol = false.
Proof.
  intros Hi Hne. destruct (is_solution _ sol) eqn:Hsol; [|reflexivity].
  pose proof (build_spec scenarios []) as Hb.
  destruct (required_workstreams sc) as [|ws wss] eqn:Hreq; [done|].
  destruct (sp_subtasks _ _ _ _ _ _ (bf_scenarios _ _ _ _ Hb i sc Hi) 0%nat ws)
    as (s & Hs & _); [by rewrite Hreq|].
  pose proof (person_value_in_range _ _ _ _ _ _ _ Hb Hsol Hs) as Hr. cbn in Hr. lia.
Qed.

(** Without scenarios the maximum is taken over no variable at all. *)
Lemma no_scenarios_no_solution personnel sol :
  is_solution (built_model [] personnel) sol = false.
Proof.
  destruct (is_solution _ sol) eqn:Hsol; [|reflexivity].
  pose proof (build_spec [] personnel) as Hb.
  destruct (proj2 (makespan_is_max_end _ _ _ _ _ Hb Hsol)) as (t & s & Hs & _).
  pose proof (bf_count _ _ _ _ Hb) as Hc. cbn in Hc.
  apply lookup_lt_Some in Hs. lia.
Qed.


(** ** Regrouping by scenario name *)

Lemma elem_of_distinct_names subs n :
  n ∈ distinct_names subs <-> n ∈ map st_scenario_name subs.
Proof.
  induction subs as [|s subs IH]; cbn; [reflexivity|].
  rewrite !elem_of_cons, list_elem_of_filter, IH.
  destruct (decide (n = st_scenario_name s)); tauto.
Qed.

Lemma NoDup_distinct_names subs : NoDup (distinct_names subs).
Proof.
  induction subs as [|s subs IH]; cbn; [constructor|].
  constructor.
  - rewrite list_elem_of_filter. intros [Hne _]. by apply Hne.
  - by apply NoDup_filter.
Qed.

Lemma distinct_names_snoc subs s :
  distinct_names (subs ++ [s])
  = if decide (st_scenario_name s ∈ map st_scenario_name subs)
    then distinct_names subs
    else distinct_names subs ++ [st_scenario_name s].
Proof.
  induction subs as [|a subs IH]; cbn [app distinct_names map].
  - rewrite decide_False by apply not_elem_of_nil. reflexivity.
  - rewrite IH.
    destruct (decide (st_scenario_name s ∈ map st_scenario_name subs)) as [Hin|Hnin].
    + rewrite decide_True by (by right). reflexivity.
    + rewrite filter_app. cbn.
      destruct (decide (st_scenario_name s <> st_scenario_name a)) as [Hne|Heq];
        destruct (decide (st_scenario_name s
                            ∈ st_scenario_name a :: map st_scenario_name subs))
          as [Hin|Hnin'].
      * apply elem_of_cons in Hin as [?|?]; [congruence|contradiction].
      * reflexivity.
      * by rewrite app_nil_r.
      * exfalso. apply Hnin'. apply dec_stable in Heq. rewrite Heq. left.
Qed.

Lemma subtasks_named_nil n subs :
  n ∉ map st_scenario_name subs -> subtasks_named n subs = [].
Proof.
  unfold subtasks_named. induction subs as [|s subs IH]; cbn [map]; intros Hnin.
  - reflexivity.
  - rewrite filter_cons_False.
    + apply IH. intros Hin. apply Hnin. by right.
    + intros Heq. apply Hnin. rewrite <- Heq. left.
Qed.

Lemma regroup_snoc `{DateTimeLib} personnel start_date sol : forall subs dict s,
  regroup personnel start_date sol dict (subs ++ [s])
  = match regroup personnel start_date sol dict subs with
    | inl e => inl e
    | inr dict' => record_subtask personnel start_date sol dict' s
    end.
Proof.
  induction subs as [|a subs IH]; intros dict s; cbn [app regroup].
  - by destruct (record_subtask personnel start_date sol dict s).
  - destruct (record_subtask personnel start_date sol dict a); [reflexivity|]. apply IH.
Qed.

Lemma results_other_key (R R' : string -> ScenarioResult -> Prop) k :
  forall names (dict : ResultDict),
    Forall2 (fun n kv => kv.1 = n /\ R n kv.2) names dict ->
    (forall n r, n <> k -> R n r -> R' n r) ->
    k ∉ names ->
    Forall2 (fun n kv => kv.1 = n /\ R' n kv.2) names dict.
Proof.
  intros names dict Hf2 Hother.
  induction Hf2 as [|n kv names dict [Hkey HR] Hf2 IH]; intros Hnotin; constructor.
  - split; [exact Hkey|]. apply Hother; [|exact HR]. intros ->. apply Hnotin. left.
  - apply IH. intros Hin. apply Hnotin. by right.
Qed.

(** [dict_alter] on a dict whose keys are distinct touches the one entry
    of that key. *)
Lemma dict_alter_Forall2 (R R' : string -> ScenarioResult -> Prop) f k :
  forall names (dict : ResultDict),
    Forall2 (fun n kv => kv.1 = n /\ R n kv.2) names dict ->
    (forall n r, n <> k -> R n r -> R' n r) ->
    (forall r, R k r -> R' k (f r)) ->
    NoDup names -> k ∈ names ->
    Forall2 (fun n kv => kv.1 = n /\ R' n kv.2) names (dict_alter f k dict).
Proof.
  intros names dict Hf2 Hother Hk.
  induction Hf2 as [|n [k' r] names dict [Hkey HR] Hf2 IH]; intros Hnd Hin.
  - by apply elem_of_nil in Hin.
  - cbn in Hkey. subst k'. apply NoDup_cons in Hnd as [Hnotin Hnd]. cbn [dict_alter].
    destruct (decide (n = k)) as [->|Hne].
    + constructor; [split; [reflexivity|by apply Hk]|].
      by eapply results_other_key.
    + constructor; [split; [reflexivity|by apply Hother]|].
      apply IH; [exact Hnd|]. apply elem_of_cons in Hin as [?|?]; [congruence|done].
Qed.

Lemma results_keys (R : string -> ScenarioResult -> Prop) names (dict : ResultDict) :
  Forall2 (fun n kv => kv.1 = n /\ R n kv.2) names dict -> dict.*1 = names.
Proof.
  induction 1 as [|n kv names dict [Hkey _] _ IH]; cbn; [reflexivity|].
  by rewrite Hkey, IH.
Qed.

(** One step of the extractor keeps [scenario_results] the merge of the
    sub-tasks seen so far. *)
Lemma record_subtask_merged `{DateTimeLib} personnel start_date sol subs dict s dict' :
  Forall2 (fun n kv => kv.1 = n /\ merged_result personnel start_date sol subs n kv.2)
          (distinct_names subs) dict ->
  record_subtask personnel start_date sol dict s = inr dict' ->
  Forall2 (fun n kv => kv.1 = n
                       /\ merged_result personnel start_date sol (subs ++ [s]) n kv.2)
          (distinct_names (subs ++ [s])) dict'.
Proof.
  intros Hinv. unfold record_subtask.
  destruct (py_index personnel (Value sol (st_person s))) as [p|] eqn:Hp; [|discriminate].
  intros [= <-].
  pose proof (results_keys _ _ _ Hinv) as Hkeys.
  assert (Hother : forall n r, n <> st_scenario_name s ->
            merged_result personnel start_date sol subs n r ->
            merged_result personnel start_date sol (subs ++ [s]) n r).
  { intros n r Hne (first & rest & persons & Hnamed & Hass & ->).
    exists first, rest, persons. split; [|by split].
    unfold subtasks_named in *. rewrite filter_app, Hnamed.
    rewrite filter_cons_False by (cbn; congruence). by rewrite filter_nil, app_nil_r. }
  rewrite distinct_names_snoc. unfold dict_mem. rewrite Hkeys.
  destruct (decide (st_scenario_name s ∈ map st_scenario_name subs)) as [Hin|Hnin].
  - rewrite bool_decide_true by (by apply elem_of_distinct_names).
    eapply dict_alter_Forall2; [exact Hinv|exact Hother| |apply NoDup_distinct_names
                               |by apply elem_of_distinct_names].
    intros r (first & rest & persons & Hnamed & Hass & ->).
    exists first, (rest ++ [s]), (persons ++ [p]). split; [|split].
    + unfold subtasks_named in *. rewrite filter_app, Hnamed.
      by rewrite filter_cons_True, filter_nil by reflexivity.
    + rewrite app_comm_cons. apply Forall2_app; [exact Hass|]. by repeat constructor.
    + unfold append_assignment. cbn. by rewrite !map_app.
  - rewrite bool_decide_false by (by rewrite elem_of_distinct_names).
    assert (Hfresh : st_scenario_name s ∉ distinct_names subs)
      by (by rewrite elem_of_distinct_names).
    eapply (dict_alter_Forall2
              (fun n r => (n <> st_scenario_name s
                           /\ merged_result personnel start_date sol subs n r)
                          \/ (n = st_scenario_name s
                              /\ r = mkResult (st_scenario_name s) (st_duration s)
                                       (strftime (plus_hours start_date
                                                    (Value sol (st_start s))))
                                       (strftime (plus_hours start_date
                                                    (Value sol (st_end s))))
                                       [] []))).
    + apply Forall2_app.
      * eapply Forall2_impl; [eapply results_other_key;
                                [exact Hinv| |exact Hfresh]|].
        -- intros n r Hne HR. exact (conj Hne HR).
        -- cbn. intros n kv [Hkey [Hne HR]]. split; [exact Hkey|]. left. by split.
      * constructor; [|constructor]. split; [reflexivity|]. right. by split.
    + intros n r Hne [[_ HR]|[Heq _]]; [by apply Hother|contradiction].
    + intros r [[Hne _]|[_ ->]]; [contradiction|].
      exists s, [], [p]. split; [|split].
      * unfold subtasks_named. rewrite filter_app.
        rewrite filter_cons_True, filter_nil by reflexivity.
        fold (subtasks_named (st_scenario_name s) subs).
        by rewrite (subtasks_named_nil _ _ Hnin).
      * by repeat constructor.
      * reflexivity.
    + apply NoDup_app. split; [apply NoDup_distinct_names|]. split; [|apply NoDup_singleton].
      intros n Hn ->%list_elem_of_singleton. contradiction.
    + apply elem_of_app. right. left.
Qed.

Lemma regroup_merged `{DateTimeLib} personnel start_date sol : forall subs dict,
  regroup personnel start_date sol [] subs = inr dict ->
  Forall2 (fun n kv => kv.1 = n /\ merged_result personnel start_date sol subs n kv.2)
          (distinct_names subs) dict.
Proof.
  induction subs as [|s subs IH] using rev_ind; intros dict.
  - cbn. intros [= <-]. constructor.
  - rewrite regroup_snoc.
    destruct (regroup personnel start_date sol [] subs) as [e|dict0]; [discriminate|].
    intros Hrec. eapply record_subtask_merged; [|exact Hrec]. by apply IH.
Qed.

Lemma merged_result_row `{DateTimeLib} personnel start_date sol subs n r :
  merged_result personnel start_date sol subs n r ->
  merged_row personnel start_date sol subs n (format_result r).
Proof.
  intros (first & rest & persons & Hnamed & Hass & ->).
  exists first, rest, persons. split; [exact Hnamed|]. split; [exact Hass|]. reflexivity.
Qed.

(** The names of the sub-tasks are the names of the scenarios that have
    at least one required workstream. *)
Lemma subtask_names_are_staffed_scenarios scenarios personnel subs m n :
  build_facts scenarios personnel subs m ->
  n ∈ map st_scenario_name subs
  <-> exists i sc, scenarios !! i = Some sc /\ scenario_name sc = n
                   /\ required_workstreams sc <> [].
Proof.
  intros Hb. rewrite list_elem_of_fmap. split.
  - intros (s & -> & [t Ht]%list_elem_of_lookup).
    destruct (build_facts_subtask _ _ _ _ _ _ Hb Ht) as (i & sc & k & ws & Hi & Hk & _ & Hp).
    exists i, sc. split; [exact Hi|]. split.
    + symmetry. exact (posted_name _ _ _ _ _ _ _ _ _ Hp).
    + intros Hnil. by rewrite Hnil in Hk.
  - intros (i & sc & Hi & <- & Hne).
    destruct (required_workstreams sc) as [|ws wss] eqn:Hreq; [done|].
    destruct (sp_subtasks _ _ _ _ _ _ (bf_scenarios _ _ _ _ Hb i sc Hi) 0%nat ws)
      as (s & Hs & Hp); [by rewrite Hreq|].
    exists s. split; [symmetry; exact (posted_name _ _ _ _ _ _ _ _ _ Hp)|].
    by eapply list_elem_of_lookup_2.
Qed.


(** ** Shifted constraints mean the same *)

Lemma shift_var_below x v : (v < x)%nat -> shift_var x v = v.
Proof. unfold shift_var. intros Hlt. by rewrite (proj2 (Nat.ltb_lt v x) Hlt). Qed.

Lemma shift_var_above x v : (x <= v)%nat -> shift_var x v = (v + 2)%nat.
Proof. unfold shift_var. intros Hle. by rewrite (proj2 (Nat.ltb_ge v x) Hle). Qed.

Lemma shift_var_inj x v w : shift_var x v = shift_var x w -> v = w.
Proof.
  unfold shift_var. destruct (Nat.ltb_spec v x), (Nat.ltb_spec w x); lia.
Qed.

Lemma shifted_present x sol sol' iv iv' :
  corresponds x sol sol' -> shifted_interval x iv iv' ->
  is_present sol iv = is_present sol' iv'.
Proof.
  intros Hc (_ & _ & _ & Hp). unfold corresponds in Hc. unfold is_present. rewrite Hp.
  destruct (iv_is_present iv') as [b|]; cbn; [|reflexivity]. by rewrite Hc.
Qed.

Lemma shifted_disjoint x sol sol' a a' b b' :
  corresponds x sol sol' -> shifted_interval x a a' -> shifted_interval x b b' ->
  disjoint sol a b = disjoint sol' a' b'.
Proof.
  intros Hc Ha Hb. unfold disjoint.
  rewrite (shifted_present _ _ _ _ _ Hc Ha), (shifted_present _ _ _ _ _ Hc Hb).
  unfold corresponds in Hc.
  destruct Ha as (Has & _ & Hae & _), Hb as (Hbs & _ & Hbe & _).
  by rewrite Has, Hae, Hbs, Hbe, !Hc.
Qed.

Lemma shifted_no_overlap x sol sol' ivs ivs' :
  corresponds x sol sol' -> Forall2 (shifted_interval x) ivs ivs' ->
  no_overlap sol ivs = no_overlap sol' ivs'.
Proof.
  intros Hc. induction 1 as [|iv iv' ivs ivs' Hiv Hrest IH]; cbn [no_overlap];
    [reflexivity|].
  rewrite IH. f_equal. clear IH.
  induction Hrest as [|b b' rest rest' Hb _ IH]; cbn [forallb]; [reflexivity|].
  by rewrite IH, (shifted_disjoint _ _ _ _ _ _ _ Hc Hiv Hb).
Qed.

(** The maximum of a non-empty list is determined by the set of its
    elements. *)
Lemma max_list_same_elements x xs y ys :
  (forall z, z ∈ x :: xs <-> z ∈ y :: ys) -> max_list x xs = max_list y ys.
Proof.
  intros Hsame. apply Z.le_antisymm.
  - apply max_list_ub, Hsame, max_list_elem.
  - apply max_list_ub, Hsame, max_list_elem.
Qed.

Lemma shifted_holds x sol sol' c c' :
  corresponds x sol sol' -> shifted_constraint x c c' ->
  holds sol c = holds sol' c'.
Proof.
  intros Hc. unfold corresponds in Hc.
  destruct c, c'; cbn [shifted_constraint]; try contradiction.
  - intros (-> & -> & ->). cbn. by rewrite !Hc.
  - intros (-> & -> & ->). cbn. destruct only_enforce_if0; cbn; by rewrite !Hc.
  - intros (-> & -> & ->). cbn. destruct only_enforce_if0; cbn; by rewrite !Hc.
  - intros (-> & ->). cbn. by rewrite Hc.
  - intros Hiv. cbn. rewrite (shifted_present _ _ _ _ _ Hc Hiv).
    destruct Hiv as (-> & -> & -> & _). by rewrite !Hc.
  - intros Hivs. cbn. by apply (shifted_no_overlap x).
  - intros (-> & Hex). cbn. rewrite Hc.
    destruct exprs as [|e es], exprs0 as [|e' es'].
    + reflexivity.
    + exfalso. assert (Hin : shift_var x e' ∈ @nil IntVar).
      { apply Hex. exists e'. split; [left|reflexivity]. }
      by apply elem_of_nil in Hin.
    + exfalso. destruct (proj1 (Hex e)) as (e' & He' & _); [left|].
      by apply elem_of_nil in He'.
    + f_equal.
      apply (max_list_same_elements (Value sol e) (map (Value sol) es)
               (Value sol' e') (map (Value sol') es')).
      intros z.
      change (z ∈ map (Value sol) (e :: es) <-> z ∈ map (Value sol') (e' :: es')).
      rewrite !list_elem_of_fmap. split.
      * intros (v & -> & (v' & Hv' & ->)%Hex). exists v'. by rewrite Hc.
      * intros (v' & -> & Hv'). exists (shift_var x v'). split; [by rewrite Hc|].
        apply Hex. by exists v'.
Qed.

(** ** Two builds in step *)

Section Simulation.
Variable x : nat.
Variables b b' : BuildState.
Hypothesis base_gap :
  length (variables (model b)) = (length (variables (model b')) + 2)%nat.
Hypothesis base_above : (x <= length (variables (model b')))%nat.

Lemma in_step_base :
  objective (model b) = shift_var x <$> objective (model b') -> in_step x b b' b b'.
Proof.
  intros Hobj. split; [reflexivity|]. split; [reflexivity|].
  rewrite !drop_all. repeat split; auto.
Qed.

Lemma in_step_fresh st st' :
  in_step x b b' st st' ->
  length (variables (model st)) = shift_var x (length (variables (model st'))).
Proof.
  intros ([[vs ->] _] & [[vs' ->] _] & Hv & _).
  rewrite !drop_app_length in Hv. apply Forall2_length in Hv.
  rewrite !length_app, shift_var_above by lia. lia.
Qed.

Lemma sim_ret {A A'} (R : A -> A' -> Prop) a a' :
  R a a' -> simulates x b b' R (ret a) (ret a').
Proof. intros HR st st' Hst. by split. Qed.

Lemma sim_bind {A A' B B'} (R : A -> A' -> Prop) (R2 : B -> B' -> Prop)
    (c : Build A) (c' : Build A') (k : A -> Build B) (k' : A' -> Build B') :
  simulates x b b' R c c' ->
  (forall a a', R a a' -> simulates x b b' R2 (k a) (k' a')) ->
  simulates x b b' R2 (bind c k) (bind c' k').
Proof.
  intros Hc Hk st st' Hst. unfold bind.
  destruct (Hc st st' Hst) as [HR Hst1].
  destruct (c st) as [a st1], (c' st') as [a' st1']. by apply Hk.
Qed.

Lemma sim_for_fold {A A' S S'} (RX : A -> A' -> Prop) (RS : S -> S' -> Prop)
    (body : S -> A -> Build S) (body' : S' -> A' -> Build S') :
  (forall acc acc' y y', RS acc acc' -> RX y y' ->
     simulates x b b' RS (body acc y) (body' acc' y')) ->
  forall xs xs', Forall2 RX xs xs' ->
  forall acc acc', RS acc acc' ->
  simulates x b b' RS (for_fold body acc xs) (for_fold body' acc' xs').
Proof.
  intros Hbody xs xs' Hxs.
  induction Hxs as [|y y' xs xs' Hy _ IH]; intros acc acc' Hacc; cbn [for_fold].
  - by apply sim_ret.
  - eapply sim_bind; [by apply Hbody|]. intros a a' Ha. by apply IH.
Qed.

Lemma sim_NewIntVar lb ub nm nm' :
  simulates x b b' (fun v v' => v = shift_var x v')
    (NewIntVar lb ub nm) (NewIntVar lb ub nm').
Proof.
  intros st st' Hst. split; [exact (in_step_fresh _ _ Hst)|].
  destruct Hst as (Hext & Hext' & Hv & Hc & Hobj).
  unfold NewIntVar. cbn.
  split; [etrans; [exact Hext|]; split; cbn; [by apply prefix_app_r|reflexivity]|].
  split; [etrans; [exact Hext'|]; split; cbn; [by apply prefix_app_r|reflexivity]|].
  split; [|by split].
  destruct Hext as [Hp _], Hext' as [Hp' _].
  apply prefix_length in Hp, Hp'. cbn [model variables].
  rewrite !drop_app_le by lia. apply Forall2_app; [exact Hv|].
  by repeat constructor.
Qed.

Lemma sim_Add c c' :
  shifted_constraint x c c' ->
  simulates x b b' (fun _ _ => True) (Add c) (Add c').
Proof.
  intros Hcc st st' (Hext & Hext' & Hv & Hc & Hobj). split; [exact I|].
  unfold Add. cbn.
  split; [etrans; [exact Hext|]; split; cbn; [reflexivity|by apply prefix_app_r]|].
  split; [etrans; [exact Hext'|]; split; cbn; [reflexivity|by apply prefix_app_r]|].
  split; [exact Hv|]. split; [|exact Hobj].
  destruct Hext as [_ Hp], Hext' as [_ Hp'].
  apply prefix_length in Hp, Hp'. cbn [model constraints].
  rewrite !drop_app_le by lia. apply Forall2_app; [exact Hc|].
  by repeat constructor.
Qed.

Lemma sim_print line line' :
  simulates x b b' (fun _ _ => True) (print line) (print line').
Proof. intros st st' Hst. split; [exact I|exact Hst]. Qed.

Lemma sim_Minimize v v' :
  v = shift_var x v' ->
  simulates x b b' (fun _ _ => True) (Minimize v) (Minimize v').
Proof.
  intros -> st st' (Hext & Hext' & Hv & Hc & Hobj). split; [exact I|].
  unfold Minimize. cbn. repeat split; try assumption; try apply Hext; try apply Hext'.
Qed.
End Simulation.

Section SimulatedBuild.
Variable x : nat.
Variables b b' : BuildState.
Hypothesis base_gap :
  length (variables (model b)) = (length (variables (model b')) + 2)%nat.
Hypothesis base_above : (x <= length (variables (model b')))%nat.
Variable personnel : list Person.

Local Abbreviation sim := (simulates x b b').

Lemma sim_NewIntervalVar s s' size e e' nm nm' :
  s = shift_var x s' -> e = shift_var x e' ->
  sim (shifted_interval x) (NewIntervalVar s size e nm) (NewIntervalVar s' size e' nm').
Proof.
  intros -> ->. unfold NewIntervalVar.
  eapply sim_bind; [apply sim_Add; try assumption; cbn [shifted_constraint shifted_interval iv_start iv_end iv_size
                           iv_is_present fmap option_fmap option_map];
       by repeat split|].
  intros _ _ _. apply sim_ret. by repeat split.
Qed.

Lemma sim_NewOptionalIntervalVar s s' size e e' p p' nm nm' :
  s = shift_var x s' -> e = shift_var x e' -> p = shift_var x p' ->
  sim (shifted_interval x) (NewOptionalIntervalVar s size e p nm)
      (NewOptionalIntervalVar s' size e' p' nm').
Proof.
  intros -> -> ->. unfold NewOptionalIntervalVar.
  eapply sim_bind; [apply sim_Add; try assumption; cbn [shifted_constraint shifted_interval iv_start iv_end iv_size
                           iv_is_present fmap option_fmap option_map];
       by repeat split|].
  intros _ _ _. apply sim_ret. by repeat split.
Qed.

Lemma sim_add_subtask idx idx' nm d sv sv' ev ev' acc acc' k k' ws :
  sv = shift_var x sv' -> ev = shift_var x ev' ->
  Forall2 (shifted_subtask x) acc acc' ->
  sim (Forall2 (shifted_subtask x))
      (add_subtask personnel idx nm d sv ev acc (k, ws))
      (add_subtask personnel idx' nm d sv' ev' acc' (k', ws)).
Proof.
  intros Hsv Hev Hacc. unfold add_subtask.
  eapply sim_bind; [by apply sim_NewIntVar|]. intros pv pv' Hpv. cbn beta in Hpv.
  eapply (sim_bind x b b' (fun _ _ => True)).
  { destruct (valid_people_indices personnel ws); [apply sim_print|].
    apply sim_Add; try assumption. cbn [shifted_constraint]. by split. }
  intros _ _ _.
  eapply sim_bind; [by apply sim_NewIntervalVar|]. intros iv iv' Hiv.
  apply sim_ret. apply Forall2_app; [exact Hacc|].
  constructor; [|constructor]. by repeat split.
Qed.

Lemma Forall2_enumerate_from {A} (xs : list A) : forall i i',
  Forall2 (fun y y' : nat * A => y.2 = y'.2) (enumerate_from i xs) (enumerate_from i' xs).
Proof.
  induction xs as [|a xs IH]; intros i i'; cbn; constructor; [reflexivity|apply IH].
Qed.

Lemma sim_add_scenario acc acc' j j' sc :
  Forall2 (shifted_subtask x) acc acc' ->
  sim (Forall2 (shifted_subtask x))
      (add_scenario personnel acc (j, sc)) (add_scenario personnel acc' (j', sc)).
Proof.
  intros Hacc. unfold add_scenario.
  eapply sim_bind; [by apply sim_NewIntVar|]. intros sv sv' Hsv. cbn beta in Hsv.
  eapply sim_bind; [by apply sim_NewIntVar|]. intros ev ev' Hev. cbn beta in Hev.
  eapply (sim_bind x b b' (fun _ _ => True)); [apply sim_Add; try assumption; cbn [shifted_constraint shifted_interval iv_start iv_end iv_size
                           iv_is_present fmap option_fmap option_map];
       by repeat split|].
  intros _ _ _.
  eapply (sim_for_fold x b b' (fun y y' : nat * string => y.2 = y'.2));
    [|apply Forall2_enumerate_from|exact Hacc].
  intros a a' [k ws] [k' ws'] Ha Hy. cbn in Hy. subst ws'.
  by apply sim_add_subtask.
Qed.

Lemma sim_link_person s s' pti pti' p :
  shifted_subtask x s s' ->
  Forall2 (Forall2 (shifted_interval x)) pti pti' ->
  sim (Forall2 (Forall2 (shifted_interval x)))
      (link_person s pti p) (link_person s' pti' p).
Proof.
  intros (Hn & _ & Hd & Hs & He & Hp) Hpti. unfold link_person, NewBoolVar.
  eapply sim_bind; [by apply sim_NewIntVar|]. intros bv bv' Hbv. cbn beta in Hbv.
  eapply (sim_bind x b b' (fun _ _ => True));
    [apply sim_Add; try assumption; cbn [shifted_constraint shift_literal]; rewrite Hp, Hbv;
       by repeat split|].
  intros _ _ _.
  eapply (sim_bind x b b' (fun _ _ => True));
    [apply sim_Add; try assumption; cbn [shifted_constraint shift_literal]; rewrite Hp, Hbv;
       by repeat split|].
  intros _ _ _. rewrite Hd.
  eapply sim_bind; [by apply sim_NewOptionalIntervalVar|]. intros iv iv' Hiv.
  apply sim_ret.
  clear -Hpti Hiv. revert p. induction Hpti as [|l l' pti pti' Hl Hrest IH]; intros p.
  - constructor.
  - destruct p as [|p]; cbn.
    + constructor; [|assumption]. apply Forall2_app; [exact Hl|].
      constructor; [exact Hiv|constructor].
    + constructor; [exact Hl|apply IH].
Qed.

Lemma sim_link_subtask pti pti' s s' :
  Forall2 (Forall2 (shifted_interval x)) pti pti' ->
  shifted_subtask x s s' ->
  sim (Forall2 (Forall2 (shifted_interval x)))
      (link_subtask personnel pti s) (link_subtask personnel pti' s').
Proof.
  intros Hpti Hs. unfold link_subtask.
  eapply (sim_for_fold x b b' eq); [|reflexivity|exact Hpti].
  intros a a' p p' Ha <-. by apply sim_link_person.
Qed.

Lemma sim_no_double_booking subs subs' :
  Forall2 (shifted_subtask x) subs subs' ->
  sim (fun _ _ => True)
      (no_double_booking personnel subs) (no_double_booking personnel subs').
Proof.
  intros Hsubs. unfold no_double_booking.
  eapply (sim_bind x b b' (Forall2 (Forall2 (shifted_interval x)))).
  - eapply (sim_for_fold x b b' (shifted_subtask x)); [|exact Hsubs|].
    + intros a a' s s' Ha Hs. by apply sim_link_subtask.
    + clear. induction personnel; cbn; by constructor.
  - intros pti pti' Hpti.
    eapply (sim_for_fold x b b' (Forall2 (shifted_interval x)) (fun _ _ => True));
      [|exact Hpti|exact I].
    intros [] [] ivs ivs' _ Hivs. unfold add_no_overlap. by apply sim_Add; try assumption.
Qed.

Lemma shifted_end_vars subs subs' :
  Forall2 (shifted_subtask x) subs subs' ->
  forall e, e ∈ all_end_vars subs
    <-> exists e', e' ∈ all_end_vars subs' /\ e = shift_var x e'.
Proof.
  intros Hsubs e. unfold all_end_vars.
  rewrite elem_of_remove_dups, list_elem_of_fmap. split.
  - intros (s & -> & [t Ht]%list_elem_of_lookup).
    destruct (Forall2_lookup_l _ _ _ _ _ Hsubs Ht) as (s' & Hs' & Hss).
    exists (st_end s'). split; [|apply Hss].
    rewrite elem_of_remove_dups, list_elem_of_fmap. exists s'.
    split; [reflexivity|]. by eapply list_elem_of_lookup_2.
  - intros (e' & He' & ->).
    rewrite elem_of_remove_dups, list_elem_of_fmap in He'.
    destruct He' as (s' & -> & [t Ht]%list_elem_of_lookup).
    destruct (Forall2_lookup_r _ _ _ _ _ Hsubs Ht) as (s & Hs & Hss).
    exists s. split; [symmetry; apply Hss|]. by eapply list_elem_of_lookup_2.
Qed.

Lemma sim_minimize_makespan subs subs' :
  Forall2 (shifted_subtask x) subs subs' ->
  sim (fun v v' => v = shift_var x v')
      (minimize_makespan subs) (minimize_makespan subs').
Proof.
  intros Hsubs. unfold minimize_makespan.
  eapply sim_bind; [by apply sim_NewIntVar|]. intros mx mx' Hmx. cbn beta in Hmx.
  eapply (sim_bind x b b' (fun _ _ => True)).
  { apply sim_Add; try assumption. cbn [shifted_constraint]. split; [exact Hmx|].
    by apply shifted_end_vars. }
  intros _ _ _.
  eapply (sim_bind x b b' (fun _ _ => True)); [apply sim_Minimize; assumption|].
  intros _ _ _. by apply sim_ret.
Qed.
End SimulatedBuild.

(** ** Constraints read only variables that exist *)

Lemma scoped_constraint_mono n n' c :
  (n <= n')%nat -> scoped_constraint n c -> scoped_constraint n' c.
Proof.
  intros Hle Hc. unfold scoped_constraint in *.
  eapply Forall_impl; [exact Hc|]. intros v Hv. cbn in Hv. lia.
Qed.

Lemma scoped_subtask_mono n n' s :
  (n <= n')%nat -> scoped_subtask n s -> scoped_subtask n' s.
Proof. unfold scoped_subtask. lia. Qed.

Lemma scoped_grow n n' cs acc :
  (n <= n')%nat ->
  Forall (scoped_constraint n) cs -> Forall (scoped_subtask n) acc ->
  Forall (scoped_constraint n') cs /\ Forall (scoped_subtask n') acc.
Proof.
  intros Hle Hc Hs. split.
  - eapply Forall_impl; [exact Hc|]. intros c. by apply scoped_constraint_mono.
  - eapply Forall_impl; [exact Hs|]. intros s. by apply scoped_subtask_mono.
Qed.

Lemma scoped_add_subtask personnel idx nm d sv ev acc k ws st :
  scoped st acc ->
  (sv < length (variables (model st)))%nat ->
  (ev < length (variables (model st)))%nat ->
  scoped (add_subtask personnel idx nm d sv ev acc (k, ws) st).2
         (add_subtask personnel idx nm d sv ev acc (k, ws) st).1
  /\ (length (variables (model st))
      <= length (variables (model (add_subtask personnel idx nm d sv ev acc (k, ws)
                                     st).2)))%nat.
Proof.
  intros [Hc Hs] Hsv Hev.
  destruct (scoped_grow _ (S (length (variables (model st)))) _ _
              (Nat.le_succ_diag_r _) Hc Hs) as [Hc' Hs'].
  unfold add_subtask, bind, NewIntVar, NewIntervalVar, bind, Add, print, ret, scoped.
  destruct (valid_people_indices personnel ws) as [|v0 vs];
    cbn [fst snd model variables constraints];
    rewrite !length_app; cbn [length]; rewrite Nat.add_1_r;
    rewrite !Forall_app, !Forall_singleton.
  all: split; [|lia].
  all: repeat split; try assumption.
  all: unfold scoped_constraint, scoped_subtask, constraint_vars, interval_vars; cbn;
    repeat constructor; lia.
Qed.

Lemma scoped_add_subtask_loop personnel idx nm d sv ev : forall wss k0 acc st,
  scoped st acc ->
  (sv < length (variables (model st)))%nat ->
  (ev < length (variables (model st)))%nat ->
  scoped (for_fold (add_subtask personnel idx nm d sv ev) acc (enumerate_from k0 wss) st).2
         (for_fold (add_subtask personnel idx nm d sv ev) acc (enumerate_from k0 wss) st).1.
Proof.
  induction wss as [|ws wss IH]; intros k0 acc st Hok Hsv Hev; cbn [for_fold enumerate_from].
  - exact Hok.
  - unfold bind.
    destruct (scoped_add_subtask personnel idx nm d sv ev acc k0 ws st Hok Hsv Hev)
      as [Hok1 Hle].
    destruct (add_subtask personnel idx nm d sv ev acc (k0, ws) st) as [acc1 st1].
    cbn [fst snd] in *. apply (IH (S k0) acc1 st1); [exact Hok1|lia|lia].
Qed.

Lemma scoped_add_scenario personnel acc j sc st :
  scoped st acc ->
  scoped (add_scenario personnel acc (j, sc) st).2 (add_scenario personnel acc (j, sc) st).1.
Proof.
  intros [Hc Hs]. unfold add_scenario.
  unfold bind at 1, NewIntVar at 1. unfold bind at 1, NewIntVar at 1.
  unfold bind at 1, Add at 1. cbn [model variables constraints objective stdout].
  apply scoped_add_subtask_loop.
  - split; cbn [model variables constraints]; rewrite !length_app; cbn [length].
    + rewrite Forall_app, Forall_singleton. split.
      * eapply Forall_impl; [exact Hc|]. intros c Hcc.
        eapply scoped_constraint_mono; [|exact Hcc]. lia.
      * unfold scoped_constraint, constraint_vars. repeat constructor; lia.
    + eapply Forall_impl; [exact Hs|]. intros s Hss.
      eapply scoped_subtask_mono; [|exact Hss]. lia.
  - cbn. rewrite !length_app. cbn. lia.
  - cbn. rewrite !length_app. cbn. lia.
Qed.

Lemma scoped_add_scenario_loop personnel : forall scs j0 acc st,
  scoped st acc ->
  scoped (for_fold (add_scenario personnel) acc (enumerate_from j0 scs) st).2
         (for_fold (add_scenario personnel) acc (enumerate_from j0 scs) st).1.
Proof.
  induction scs as [|sc scs IH]; intros j0 acc st Hok; cbn [for_fold enumerate_from].
  - exact Hok.
  - unfold bind.
    pose proof (scoped_add_scenario personnel acc j0 sc st Hok) as Hok1.
    destruct (add_scenario personnel acc (j0, sc) st) as [acc1 st1].
    by apply (IH (S j0) acc1 st1).
Qed.

(** A constraint or sub-task below [x] is its own shift. *)
Lemma shifted_interval_refl x iv :
  Forall (fun v => (v < x)%nat) (interval_vars iv) -> shifted_interval x iv iv.
Proof.
  unfold interval_vars, shifted_interval. intros Hv.
  apply Forall_cons in Hv as [Hs Hv]. apply Forall_cons in Hv as [He Hv].
  rewrite !shift_var_below by assumption. repeat split.
  destruct (iv_is_present iv) as [p|]; [|reflexivity].
  apply Forall_inv in Hv. cbn. by rewrite shift_var_below by exact Hv.
Qed.

Lemma shifted_constraint_refl x c : scoped_constraint x c -> shifted_constraint x c c.
Proof.
  unfold scoped_constraint. destruct c; cbn [constraint_vars shifted_constraint].
  - intros [He [Hs _]%Forall_cons]%Forall_cons. by rewrite !shift_var_below.
  - intros [Hv [Hl _]%Forall_cons]%Forall_cons. rewrite shift_var_below by assumption.
    repeat split. destruct only_enforce_if; cbn in *; by rewrite shift_var_below by exact Hl.
  - intros [Hv [Hl _]%Forall_cons]%Forall_cons. rewrite shift_var_below by assumption.
    repeat split. destruct only_enforce_if; cbn in *; by rewrite shift_var_below by exact Hl.
  - intros [Hv _]%Forall_cons. by rewrite shift_var_below.
  - apply shifted_interval_refl.
  - induction ivs as [|iv ivs IH]; cbn [flat_map]; [constructor|].
    intros [Hiv Hrest]%Forall_app. constructor; [by apply shifted_interval_refl|by apply IH].
  - intros [Ht He]%Forall_cons. rewrite shift_var_below by assumption.
    split; [reflexivity|]. intros e. rewrite Forall_forall in He. split.
    + intros Hin. exists e. split; [exact Hin|]. by rewrite shift_var_below by auto.
    + intros (e' & Hin & ->). by rewrite shift_var_below by auto.
Qed.

Lemma shifted_subtask_refl x s : scoped_subtask x s -> shifted_subtask x s s.
Proof.
  intros (Hs & He & Hp). unfold shifted_subtask.
  by rewrite !shift_var_below by assumption.
Qed.


(** ** Inserting and forgetting two values *)

Lemma in_domains_length ds : forall sol,
  in_domains ds sol = true -> length sol = length ds.
Proof.
  induction ds as [|d ds IH]; intros [|v sol] H; cbn in *; try discriminate; [reflexivity|].
  apply andb_prop in H as [_ H]. by rewrite (IH _ H).
Qed.

Lemma in_domains_app ds1 ds2 : forall sol,
  in_domains (ds1 ++ ds2) sol
  = in_domains ds1 (take (length ds1) sol) && in_domains ds2 (drop (length ds1) sol).
Proof.
  induction ds1 as [|d ds1 IH]; intros sol; cbn [app length].
  - by rewrite take_0, drop_0.
  - destruct sol as [|v sol]; cbn; [reflexivity|]. by rewrite IH, andb_assoc.
Qed.

Lemma in_domains_same ds ds' :
  Forall2 same_domain ds ds' -> forall sol, in_domains ds sol = in_domains ds' sol.
Proof.
  induction 1 as [|d d' ds ds' [Hlb Hub] _ IH]; intros [|v sol]; cbn; try reflexivity.
  unfold in_domain. by rewrite Hlb, Hub, IH.
Qed.

Lemma corresponds_with_scenario x d sol' :
  (x <= length sol')%nat -> corresponds x (with_scenario x d sol') sol'.
Proof.
  intros Hx v'. unfold Value, with_scenario, Solution, IntVar in *. f_equal.
  destruct (Nat.ltb_spec v' x);
    [rewrite shift_var_below by lia|rewrite shift_var_above by lia].
  - rewrite lookup_app_l by (rewrite length_take; lia). by rewrite lookup_take_lt.
  - rewrite app_assoc, lookup_app_r by (rewrite length_app, length_take; cbn; lia).
    rewrite length_app, length_take, Nat.min_l by lia. cbn [length].
    rewrite lookup_drop. f_equal. lia.
Qed.

Lemma corresponds_without_scenario x sol :
  (x + 2 <= length sol)%nat -> corresponds x sol (without_scenario x sol).
Proof.
  intros Hx v'. unfold Value, without_scenario, Solution, IntVar in *. f_equal.
  destruct (Nat.ltb_spec v' x);
    [rewrite shift_var_below by lia|rewrite shift_var_above by lia].
  - rewrite lookup_app_l by (rewrite length_take; lia). by rewrite lookup_take_lt.
  - rewrite lookup_app_r by (rewrite length_take; lia).
    rewrite length_take, Nat.min_l by lia.
    rewrite lookup_drop. f_equal. lia.
Qed.

Lemma shifted_forallb_holds x sol sol' cs cs' :
  corresponds x sol sol' -> Forall2 (shifted_constraint x) cs cs' ->
  forallb (holds sol) cs = forallb (holds sol') cs'.
Proof.
  intros Hc. induction 1 as [|c c' cs cs' Hcc _ IH]; cbn [forallb]; [reflexivity|].
  by rewrite IH, (shifted_holds _ _ _ _ _ Hc Hcc).
Qed.

Lemma scoped_forallb_holds x sol sol' cs :
  corresponds x sol sol' -> Forall (scoped_constraint x) cs ->
  forallb (holds sol) cs = forallb (holds sol') cs.
Proof.
  intros Hc Hs. apply (shifted_forallb_holds x); [exact Hc|].
  induction Hs as [|c cs Hcs _ IH]; constructor; [by apply shifted_constraint_refl|exact IH].
Qed.

(** ** Splitting the first loop at a scenario *)

Lemma for_fold_app {A S} (body : S -> A -> Build S) : forall xs ys acc st,
  for_fold body acc (xs ++ ys) st
  = for_fold body (for_fold body acc xs st).1 ys (for_fold body acc xs st).2.
Proof.
  induction xs as [|y xs IH]; intros ys acc st; cbn [app for_fold]; [reflexivity|].
  unfold bind. destruct (body acc y st) as [acc1 st1]. apply IH.
Qed.

Lemma enumerate_from_app {A} (xs ys : list A) : forall i,
  enumerate_from i (xs ++ ys)
  = enumerate_from i xs ++ enumerate_from (i + length xs) ys.
Proof.
  induction xs as [|a xs IH]; intros i; cbn.
  - by rewrite Nat.add_0_r.
  - rewrite IH. do 3 f_equal. lia.
Qed.

Lemma build_split personnel pre post st :
  build (pre ++ post) personnel st
  = build_tail personnel (length pre)
      (for_fold (add_scenario personnel) [] (enumerate_from 0 pre) st).1 post
      (for_fold (add_scenario personnel) [] (enumerate_from 0 pre) st).2.
Proof.
  unfold build, build_tail, create_subtasks, enumerate.
  rewrite enumerate_from_app. unfold bind at 1. rewrite for_fold_app.
  reflexivity.
Qed.

Lemma sim_build_tail x b b' personnel j j' acc acc' post :
  length (variables (model b)) = (length (variables (model b')) + 2)%nat ->
  (x <= length (variables (model b')))%nat ->
  Forall2 (shifted_subtask x) acc acc' ->
  simulates x b b' (Forall2 (shifted_subtask x))
    (build_tail personnel j acc post) (build_tail personnel j' acc' post).
Proof.
  intros Hgap Hx Hacc. unfold build_tail.
  eapply (sim_bind x b b' (Forall2 (shifted_subtask x))).
  - eapply (sim_for_fold x b b' (fun y y' : nat * Scenario => y.2 = y'.2));
      [|apply Forall2_enumerate_from|exact Hacc].
    intros a a' [k sc] [k' sc'] Ha Hy. cbn in Hy. subst sc'.
    by apply sim_add_scenario.
  - intros subs subs' Hsubs.
    eapply (sim_bind x b b' (fun _ _ => True)); [by apply sim_no_double_booking|].
    intros _ _ _.
    eapply (sim_bind x b b' (fun v v' => v = shift_var x v'));
      [by apply sim_minimize_makespan|].
    intros _ _ _. by apply sim_ret.
Qed.

Lemma prefix_take_drop {A} (l1 l2 : list A) :
  l1 `prefix_of` l2 -> l2 = l1 ++ drop (length l1) l2.
Proof. intros [k ->]. by rewrite drop_app_length. Qed.

(** The model of a list of scenarios, next to the model of the list
    without one scenario that has no required workstream: the same
    declarations and constraints up to the scenario's two variables [x] and
    [x + 1] and its one constraint. *)
Lemma model_without_scenario_split personnel pre sc post :
  required_workstreams sc = [] ->
  exists V0 V V' C0 C C' vx vy,
    variables (built_model (pre ++ sc :: post) personnel) = V0 ++ [vx; vy] ++ V
    /\ variables (built_model (pre ++ post) personnel) = V0 ++ V'
    /\ length V0 = var_count pre
    /\ same_domain vx (mkVar 0 horizon "") /\ same_domain vy (mkVar 0 horizon "")
    /\ Forall2 same_domain V V'
    /\ constraints (built_model (pre ++ sc :: post) personnel)
       = C0 ++ [LinearEq (S (var_count pre)) (var_count pre) (duration_hours sc)] ++ C
    /\ constraints (built_model (pre ++ post) personnel) = C0 ++ C'
    /\ Forall (scoped_constraint (var_count pre)) C0
    /\ Forall2 (shifted_constraint (var_count pre)) C C'
    /\ objective (built_model (pre ++ sc :: post) personnel)
       = shift_var (var_count pre) <$> objective (built_model (pre ++ post) personnel)
    /\ Forall2 (shifted_subtask (var_count pre))
         (built_subtasks (pre ++ sc :: post) personnel)
         (built_subtasks (pre ++ post) personnel).
Proof.
  intros Hreq. unfold built_model, built_subtasks.
  rewrite !build_split.
  destruct (add_scenario_loop personnel pre 0 [] initial_state)
    as (subs0 & st0 & Hrun0 & _ & Hobj0 & Hlen0 & _ & _).
  pose proof (scoped_add_scenario_loop personnel pre 0%nat [] initial_state) as Hscoped.
  rewrite Hrun0 in *. cbn [fst snd app] in *.
  cbn in Hlen0, Hobj0.
  specialize (Hscoped ltac:(split; constructor)). destruct Hscoped as [Hsc0 Hss0].
  rewrite Hlen0 in Hsc0, Hss0.
  (* the step of the scenario itself *)
  assert (Hstep : exists sti,
            build_tail personnel (length pre) subs0 (sc :: post) st0
            = build_tail personnel (S (length pre)) subs0 post sti
            /\ variables (model sti)
               = variables (model st0)
                   ++ [mkVar earliest_start horizon (scenario_name sc +:+ "_start");
                       mkVar earliest_start horizon (scenario_name sc +:+ "_end")]
            /\ constraints (model sti)
               = constraints (model st0)
                   ++ [LinearEq (S (var_count pre)) (var_count pre) (duration_hours sc)]
            /\ objective (model sti) = None).
  { eexists. split.
    - unfold build_tail at 1. cbn [enumerate_from for_fold]. unfold bind at 2.
      unfold add_scenario at 1. rewrite Hreq. cbn [enumerate for_fold enumerate_from].
      unfold bind at 2, NewIntVar at 1. unfold bind at 2, NewIntVar at 1.
      unfold bind at 2, Add at 1. unfold ret at 1.
      cbn [model variables constraints objective stdout]. reflexivity.
    - cbn [model variables constraints objective]. rewrite <- app_assoc.
      split; [reflexivity|]. split; [|exact Hobj0].
      rewrite length_app, Hlen0. cbn [length app]. do 3 f_equal; lia. }
  destruct Hstep as (sti & -> & HVi & HCi & Hobji).
  assert (Hgap : length (variables (model sti))
                 = (length (variables (model st0)) + 2)%nat).
  { rewrite HVi, length_app. cbn. lia. }
  assert (Hx : (var_count pre <= length (variables (model st0)))%nat) by lia.
  assert (Hacc : Forall2 (shifted_subtask (var_count pre)) subs0 subs0).
  { clear -Hss0. induction Hss0; constructor; [by apply shifted_subtask_refl|done]. }
  destruct (sim_build_tail (var_count pre) sti st0 personnel (S (length pre)) (length pre)
              subs0 subs0 post Hgap Hx Hacc sti st0) as [Hsubs Hstep].
  { apply in_step_base. by rewrite Hobji, Hobj0. }
  destruct (build_tail personnel (S (length pre)) subs0 post sti) as [subsM stM].
  destruct (build_tail personnel (length pre) subs0 post st0) as [subsM' stM'].
  cbn [fst snd] in *.
  destruct Hstep as ([HpV HpC] & [HpV' HpC'] & HV & HC & Hobj).
  apply prefix_take_drop in HpV, HpC, HpV', HpC'.
  eexists (variables (model st0)), _, _, (constraints (model st0)), _, _, _, _.
  split; [rewrite HpV, HVi, <- !app_assoc; reflexivity|].
  split; [exact HpV'|]. split; [lia|].
  split; [split; reflexivity|]. split; [split; reflexivity|].
  split; [rewrite <- HVi; exact HV|].
  split; [rewrite HpC, HCi, <- !app_assoc; reflexivity|].
  split; [exact HpC'|]. split; [exact Hsc0|]. split; [rewrite <- HCi; exact HC|].
  split; [exact Hobj|exact Hsubs].
Qed.

Lemma objective_of_shifted x m m' sol sol' :
  corresponds x sol sol' ->
  objective m = shift_var x <$> objective m' ->
  objective_of m sol = objective_of m' sol'.
Proof.
  intros Hc Hobj. unfold objective_of. rewrite Hobj.
  destruct (objective m') as [mx|]; cbn; [apply Hc|reflexivity].
Qed.

(** Every solution of the model with the scenario gives one of the model
    without it, of the same objective. *)
Lemma solution_without_scenario personnel pre sc post sol :
  required_workstreams sc = [] ->
  is_solution (built_model (pre ++ sc :: post) personnel) sol = true ->
  is_solution (built_model (pre ++ post) personnel)
    (without_scenario (var_count pre) sol) = true
  /\ objective_of (built_model (pre ++ post) personnel)
       (without_scenario (var_count pre) sol)
     = objective_of (built_model (pre ++ sc :: post) personnel) sol.
Proof.
  intros Hreq.
  destruct (model_without_scenario_split personnel pre sc post Hreq)
    as (V0 & V & V' & C0 & C & C' & vx & vy
        & HV & HV' & HlenV0 & _ & _ & HVV & HC & HC' & Hsc0 & HCC & Hobj & _).
  unfold is_solution. rewrite HV, HV', HC, HC'. intros [Hdom Hcons]%andb_prop.
  pose proof (in_domains_length _ _ Hdom) as Hlen. rewrite !length_app in Hlen.
  cbn [length] in Hlen.
  assert (Hcorr : corresponds (var_count pre) sol (without_scenario (var_count pre) sol))
    by (apply corresponds_without_scenario; lia).
  split; [|symmetry; by apply (objective_of_shifted (var_count pre))].
  apply andb_true_intro. split.
  - rewrite in_domains_app in Hdom. apply andb_prop in Hdom as [Hd0 Hd1].
    rewrite in_domains_app in Hd1. apply andb_prop in Hd1 as [_ Hd1].
    cbn [length] in Hd1. rewrite drop_drop in Hd1.
    rewrite in_domains_app. unfold without_scenario. rewrite HlenV0 in *.
    rewrite take_app_le, drop_app_ge by (rewrite length_take; lia).
    rewrite take_take, Nat.min_id, length_take, Nat.min_l, Nat.sub_diag, drop_0 by lia.
    rewrite Hd0. cbn [andb]. by rewrite <- (in_domains_same _ _ HVV).
  - rewrite !forallb_app in Hcons. apply andb_prop in Hcons as [Hc0 Hc1].
    apply andb_prop in Hc1 as [_ Hc1].
    rewrite forallb_app.
    rewrite <- (scoped_forallb_holds _ _ _ _ Hcorr Hsc0), Hc0.
    by rewrite <- (shifted_forallb_holds _ _ _ _ _ Hcorr HCC), Hc1.
Qed.

(** Every solution of the model without the scenario gives one of the
    model with it, of the same objective, when the scenario fits the
    horizon. *)
Lemma solution_with_scenario personnel pre sc post sol' :
  required_workstreams sc = [] ->
  0 <= duration_hours sc <= horizon ->
  is_solution (built_model (pre ++ post) personnel) sol' = true ->
  is_solution (built_model (pre ++ sc :: post) personnel)
    (with_scenario (var_count pre) (duration_hours sc) sol') = true
  /\ objective_of (built_model (pre ++ sc :: post) personnel)
       (with_scenario (var_count pre) (duration_hours sc) sol')
     = objective_of (built_model (pre ++ post) personnel) sol'.
Proof.
  intros Hreq Hd.
  destruct (model_without_scenario_split personnel pre sc post Hreq)
    as (V0 & V & V' & C0 & C & C' & vx & vy
        & HV & HV' & HlenV0 & [Hxl Hxu] & [Hyl Hyu] & HVV & HC & HC' & Hsc0 & HCC
        & Hobj & _).
  unfold is_solution. rewrite HV, HV', HC, HC'. intros [Hdom Hcons]%andb_prop.
  pose proof (in_domains_length _ _ Hdom) as Hlen. rewrite !length_app in Hlen.
  assert (Hcorr : corresponds (var_count pre)
                    (with_scenario (var_count pre) (duration_hours sc) sol') sol')
    by (apply corresponds_with_scenario; lia).
  split; [|by apply (objective_of_shifted (var_count pre))].
  apply andb_true_intro. split.
  - rewrite in_domains_app in Hdom. apply andb_prop in Hdom as [Hd0 Hd1].
    rewrite in_domains_app. unfold with_scenario. rewrite HlenV0 in *.
    rewrite take_app_le, drop_app_ge by (rewrite length_take; lia).
    rewrite take_take, Nat.min_id, length_take, Nat.min_l, Nat.sub_diag, drop_0 by lia.
    rewrite Hd0. cbn [andb app in_domains]. unfold in_domain.
    rewrite Hxl, Hxu, Hyl, Hyu. cbn [var_lb var_ub].
    rewrite (in_domains_same _ _ HVV), Hd1.
    unfold horizon in *.
    repeat (apply andb_true_intro; split); try reflexivity; apply Z.leb_le; lia.
  - rewrite forallb_app in Hcons. apply andb_prop in Hcons as [Hc0 Hc1].
    rewrite !forallb_app.
    rewrite (scoped_forallb_holds _ _ _ _ Hcorr Hsc0), Hc0.
    rewrite (shifted_forallb_holds _ _ _ _ _ Hcorr HCC), Hc1.
    assert (Hlink : holds (with_scenario (var_count pre) (duration_hours sc) sol')
                      (LinearEq (S (var_count pre)) (var_count pre) (duration_hours sc))
                    = true).
    { cbn [holds]. apply Z.eqb_eq. unfold Value, with_scenario, Solution, IntVar in *.
      rewrite (lookup_app_r (take _ _) _ (S (var_count pre)))
        by (rewrite length_take; lia).
      rewrite (lookup_app_r (take _ _) _ (var_count pre))
        by (rewrite length_take; lia).
      rewrite length_take, Nat.min_l by lia.
      replace (S (var_count pre) - var_count pre)%nat with 1%nat by lia.
      rewrite Nat.sub_diag. cbn. lia. }
    cbn [forallb]. by rewrite Hlink.
Qed.

(** ** A scenario without required workstreams *)

Lemma var_count_take_S scs j sc :
  scs !! j = Some sc ->
  var_count (take (S j) scs)
  = (var_count (take j scs) + (2 + length (required_workstreams sc)))%nat.
Proof.
  intros Hj. unfold var_count. rewrite (take_S_r _ _ _ Hj), sum_list_with_app. cbn. lia.
Qed.

Lemma var_count_take_lt scs j1 j2 :
  (j1 < j2)%nat -> (j2 <= length scs)%nat ->
  (var_count (take j1 scs) + 2 <= var_count (take j2 scs))%nat.
Proof.
  intros Hlt. induction j2 as [|j2 IH]; intros Hle; [lia|].
  destruct (lookup_lt_is_Some_2 scs j2) as [sc Hsc]; [lia|].
  rewrite (var_count_take_S _ _ _ Hsc).
  destruct (decide (j1 = j2)) as [->|Hne]; [lia|].
  specialize (IH ltac:(lia) ltac:(lia)). lia.
Qed.

Lemma scenario_start_var_inj scs j1 j2 :
  (j1 < length scs)%nat -> (j2 < length scs)%nat ->
  scenario_start_var scs j1 = scenario_start_var scs j2 -> j1 = j2.
Proof.
  unfold scenario_start_var. intros H1 H2 Heq.
  destruct (Nat.lt_trichotomy j1 j2) as [Hlt|[?|Hlt]]; [|assumption|].
  - pose proof (var_count_take_lt scs j1 j2 Hlt ltac:(lia)). lia.
  - pose proof (var_count_take_lt scs j2 j1 Hlt ltac:(lia)). lia.
Qed.

(** No sub-task is derived from a scenario without required workstreams:
    none uses its start or end variable, so its end variable is not among
    the variables whose maximum is the objective. *)
Lemma scenario_without_workstreams_unused scenarios personnel subs m i sc :
  build_facts scenarios personnel subs m ->
  scenarios !! i = Some sc ->
  required_workstreams sc = [] ->
  (forall t s, subs !! t = Some s ->
     st_start s <> scenario_start_var scenarios i
     /\ st_end s <> scenario_end_var scenarios i)
  /\ scenario_end_var scenarios i ∉ all_end_vars subs.
Proof.
  intros Hb Hi Hreq.
  assert (Hsubs : forall t s, subs !! t = Some s ->
            st_start s <> scenario_start_var scenarios i
            /\ st_end s <> scenario_end_var scenarios i).
  { intros t s Hs.
    destruct (build_facts_subtask _ _ _ _ _ _ Hb Hs) as (j & sc' & k & ws & Hj & Hk & _ & Hp).
    assert (Hne : j <> i).
    { intros ->. rewrite Hi in Hj. injection Hj as <-. by rewrite Hreq in Hk. }
    rewrite (posted_start _ _ _ _ _ _ _ _ _ Hp), (posted_end _ _ _ _ _ _ _ _ _ Hp).
    unfold scenario_end_var.
    assert (scenario_start_var scenarios j <> scenario_start_var scenarios i).
    { intros Heq. apply Hne. eapply scenario_start_var_inj; [| |exact Heq];
        by eapply lookup_lt_Some. }
    split; [assumption|]. intros [= Heq]. contradiction. }
  split; [exact Hsubs|].
  unfold all_end_vars. rewrite elem_of_remove_dups, list_elem_of_fmap.
  intros (s & Heq & [t Ht]%list_elem_of_lookup).
  destruct (Hsubs t s Ht) as [_ Hne]. by apply Hne.
Qed.

(** The extractor never fails on a solution: every solved person is an
    index into [personnel]. *)
Lemma regroup_total `{DateTimeLib} personnel start_date sol : forall subs dict,
  Forall (fun s => 0 <= Value sol (st_person s) < Z.of_nat (length personnel)) subs ->
  exists dict', regroup personnel start_date sol dict subs = inr dict'.
Proof.
  induction subs as [|s subs IH]; intros dict Hall; cbn [regroup]; [by eexists|].
  apply Forall_cons in Hall as [Hs Hall].
  unfold record_subtask.
  destruct (py_index_in_range personnel _ Hs) as (p & -> & _).
  by apply IH.
Qed.

Lemma find_optimal_schedule_total_days `{DateTimeLib} Solve scenarios personnel d
    start_date :
  strptime d = Some start_date ->
  response_sound (built_model scenarios personnel)
    (Solve (built_model scenarios personnel)) = true ->
  total_days_of (find_optimal_schedule Solve scenarios personnel d)
  = if solved (Solve (built_model scenarios personnel))
    then Some (days_of_hours (objective_value (Solve (built_model scenarios personnel))))
    else None.
Proof.
  intros Hd Hsound.
  destruct (solved (Solve (built_model scenarios personnel))) eqn:Hsolved.
  - destruct (solved_is_solution _ _ Hsound Hsolved) as [Hsol _].
    pose proof (build_spec scenarios personnel) as Hb.
    destruct (regroup_total personnel start_date (solved_values Solve scenarios personnel)
                (built_subtasks scenarios personnel) [])
      as [dict Hre].
    { apply Forall_lookup. intros t s Hs.
      exact (person_value_in_range _ _ _ _ _ _ _ Hb Hsol Hs). }
    by rewrite (find_optimal_schedule_solved _ _ _ _ _ _ Hd Hsolved Hre).
  - by rewrite (find_optimal_schedule_unsolved _ _ _ _ _ Hd Hsolved).
Qed.

(** Under the contract, two searches that ran to their end on the models
    with and without the scenario agree on the objective. *)
Lemma same_optimum_without_scenario personnel pre sc post r r' :
  required_workstreams sc = [] ->
  0 <= duration_hours sc <= horizon ->
  SolverContract (built_model (pre ++ sc :: post) personnel) r ->
  search_completed r ->
  SolverContract (built_model (pre ++ post) personnel) r' ->
  search_completed r' ->
  solved r = solved r'
  /\ (solved r = true -> objective_value r = objective_value r').
Proof.
  intros Hreq Hd [Hsound Hopt Hinf] Hdone [Hsound' Hopt' Hinf'] Hdone'.
  destruct Hdone as [Hst|Hst], Hdone' as [Hst'|Hst'].
  - assert (Hs : solved r = true) by (unfold solved; by rewrite Hst).
    assert (Hs' : solved r' = true) by (unfold solved; by rewrite Hst').
    split; [congruence|]. intros _.
    destruct (solved_is_solution _ _ Hsound Hs) as [Hsol Hobj].
    destruct (solved_is_solution _ _ Hsound' Hs') as [Hsol' Hobj'].
    destruct (solution_without_scenario _ _ _ _ _ Hreq Hsol) as [Hw Hwo].
    destruct (solution_with_scenario _ _ _ _ _ Hreq Hd Hsol') as [Hv Hvo].
    pose proof (Hopt Hst _ Hv). pose proof (Hopt' Hst' _ Hw). lia.
  - exfalso.
    assert (Hs : solved r = true) by (unfold solved; by rewrite Hst).
    destruct (solved_is_solution _ _ Hsound Hs) as [Hsol _].
    destruct (solution_without_scenario _ _ _ _ _ Hreq Hsol) as [Hw _].
    rewrite (Hinf' Hst' _) in Hw. discriminate Hw.
  - exfalso.
    assert (Hs' : solved r' = true) by (unfold solved; by rewrite Hst').
    destruct (solved_is_solution _ _ Hsound' Hs') as [Hsol' _].
    destruct (solution_with_scenario _ _ _ _ _ Hreq Hd Hsol') as [Hv _].
    rewrite (Hinf Hst _) in Hv. discriminate Hv.
  - split; [unfold solved; by rewrite Hst, Hst'|].
    unfold solved. rewrite Hst. discriminate.
Qed.

Lemma returned_row_names `{DateTimeLib} Solve scenarios personnel d df days :
  returned (find_optimal_schedule Solve scenarios personnel d) = inr (df, Some days) ->
  map row_Scenario df = distinct_names (built_subtasks scenarios personnel).
Proof.
  intros Hret.
  destruct (returned_schedule _ _ _ _ _ _ Hret) as (_ & _ & start_date & dict & _ & Hre & ->).
  pose proof (regroup_merged _ _ _ _ _ Hre) as Hm. clear Hre Hret.
  generalize dependent (distinct_names (built_subtasks scenarios personnel)).
  intros names Hm.
  induction Hm as [|n kv names dict0 [Hkey Hr] _ IH]; cbn [map]; [reflexivity|].
  rewrite IH. destruct Hr as (first & rest & persons & _ & _ & Hkv).
  by rewrite Hkv.
Qed.
Lemma total_days_without_scenario_split `{DateTimeLib} Solve personnel d start_date
    pre sc post :
  strptime d = Some start_date ->
  required_workstreams sc = [] ->
  0 <= duration_hours sc <= horizon ->
  SolverContract (built_model (pre ++ sc :: post) personnel)
    (Solve (built_model (pre ++ sc :: post) personnel)) ->
  search_completed (Solve (built_model (pre ++ sc :: post) personnel)) ->
  SolverContract (built_model (pre ++ post) personnel)
    (Solve (built_model (pre ++ post) personnel)) ->
  search_completed (Solve (built_model (pre ++ post) personnel)) ->
  total_days_of (find_optimal_schedule Solve (pre ++ sc :: post) personnel d)
  = total_days_of (find_optimal_schedule Solve (pre ++ post) personnel d).
Proof.
  intros Hd Hreq Hdur Hcon Hdone Hcon' Hdone'.
  rewrite (find_optimal_schedule_total_days _ _ _ _ _ Hd (contract_sound _ _ Hcon)).
  rewrite (find_optimal_schedule_total_days _ _ _ _ _ Hd (contract_sound _ _ Hcon')).
  destruct (same_optimum_without_scenario _ _ _ _ _ _ Hreq Hdur Hcon Hdone Hcon' Hdone')
    as [Hsolved Hobj].
  rewrite <- Hsolved.
  destruct (solved _) eqn:Hs; [|reflexivity]. by rewrite (Hobj eq_refl).
Qed.
Lemma posting_solver_answers :
  posting_or_unparsed_solver (built_model posting_and_unparsed one_accountant)
  = posting_response
  /\ posting_or_unparsed_solver (built_model (delete 1%nat posting_and_unparsed) one_accountant)
     = posting_only_response
  /\ posting_solver (built_model posting_and_long_unparsed one_accountant)
     = infeasible_response
  /\ posting_solver (built_model (delete 1%nat posting_and_long_unparsed) one_accountant)
     = posting_only_response.
Proof. vm_compute. auto. Qed.

Lemma posting_only_contract :
  SolverContract (built_model [mkScenario "Invoice Posting" 5 ["Finance"]] one_accountant)
    posting_only_response.
Proof.
  split.
  - vm_compute. reflexivity.
  - intros _ sol Hsol.
    apply (objective_at_least_duration _ _ _ _ _ 0%nat
             (mkScenario "Invoice Posting" 5 ["Finance"])
             (build_spec [mkScenario "Invoice Posting" 5 ["Finance"]] one_accountant)
             Hsol); [reflexivity|discriminate].
  - intros Hst. discriminate Hst.
Qed.

Lemma posting_contract :
  SolverContract (built_model posting_and_unparsed one_accountant) posting_response.
Proof.
  split.
  - vm_compute. reflexivity.
  - intros _ sol Hsol.
    apply (objective_at_least_duration _ _ _ _ _ 0%nat
             (mkScenario "Invoice Posting" 5 ["Finance"])
             (build_spec posting_and_unparsed one_accountant) Hsol);
      [reflexivity|discriminate].
  - intros Hst. discriminate Hst.
Qed.

(** A scenario longer than the horizon leaves no solution, whatever its
    workstreams. *)
Lemma scenario_beyond_horizon_no_solution scenarios personnel i sc sol :
  scenarios !! i = Some sc ->
  horizon < duration_hours sc ->
  is_solution (built_model scenarios personnel) sol = false.
Proof.
  intros Hi Hd. destruct (is_solution _ sol) eqn:Hsol; [|reflexivity]. exfalso.
  pose proof (build_spec scenarios personnel) as Hb.
  pose proof (scenario_end_value _ _ _ _ _ _ _ Hb Hsol Hi) as Hend.
  pose proof (scenario_start_nonneg _ _ _ _ _ _ _ Hb Hsol Hi) as Hstart.
  pose proof (is_solution_domain _ _ _ _ Hsol
                (sp_end _ _ _ _ _ _ (bf_scenarios _ _ _ _ Hb _ _ Hi))) as Hdom.
  unfold scenario_end_var in *. cbn [var_lb var_ub] in Hdom. lia.
Qed.

(** ** The call as a whole *)

Lemma regroup_of_solution `{DateTimeLib} scenarios personnel subs m sol start_date :
  build_facts scenarios personnel subs m ->
  is_solution m sol = true ->
  exists dict, regroup personnel start_date sol [] subs = inr dict.
Proof.
  intros Hb Hsol. apply regroup_total, Forall_lookup. intros t s Hs.
  exact (person_value_in_range _ _ _ _ _ _ _ Hb Hsol Hs).
Qed.

Lemma solution_has_subtask scenarios personnel subs m sol :
  build_facts scenarios personnel subs m ->
  is_solution m sol = true ->
  exists s rest, subs = s :: rest.
Proof.
  intros Hb Hsol.
  destruct (makespan_is_max_end _ _ _ _ _ Hb Hsol) as (_ & t & s & Hs & _).
  destruct subs as [|s0 rest]; [by rewrite lookup_nil in Hs|by eauto].
Qed.

Lemma solved_call `{DateTimeLib} Solve scenarios personnel d start_date :
  strptime d = Some start_date ->
  response_sound (built_model scenarios personnel)
    (Solve (built_model scenarios personnel)) = true ->
  solved (Solve (built_model scenarios personnel)) = true ->
  exists row rows,
    find_optimal_schedule Solve scenarios personnel d
    = mkOutcome
        (inr (row :: rows,
              Some (days_of_hours
                      (objective_value (Solve (built_model scenarios personnel))))))
        (built_stdout scenarios personnel) [built_model scenarios personnel].
Proof.
  intros Hd Hsound Hsolved.
  destruct (solved_is_solution _ _ Hsound Hsolved) as [Hsol _].
  pose proof (build_spec scenarios personnel) as Hb.
  destruct (regroup_of_solution _ _ _ _ _ start_date Hb Hsol) as [dict Hdict].
  rewrite (find_optimal_schedule_solved _ _ _ _ _ _ Hd Hsolved Hdict).
  destruct (solution_has_subtask _ _ _ _ _ Hb Hsol) as (s & rest & Hsubs).
  pose proof (regroup_merged _ _ _ _ _ Hdict) as Hm.
  apply Forall2_length in Hm. fold (solved_values Solve scenarios personnel) in Hdict.
  rewrite Hsubs in Hm. cbn [distinct_names length] in Hm.
  destruct dict as [|kv dict]; [discriminate Hm|].
  cbn [map]. by eauto.
Qed.

Lemma no_solution_unsolved m r :
  response_sound m r = true ->
  (forall sol, is_solution m sol = false) ->
  solved r = false.
Proof.
  intros Hsound Hnone. destruct (solved r) eqn:Hsolved; [|reflexivity].
  destruct (solved_is_solution _ _ Hsound Hsolved) as [Hsol _].
  by rewrite Hnone in Hsol.
Qed.

Lemma no_solution_empty_result `{DateTimeLib} Solve scenarios personnel d start_date :
  strptime d = Some start_date ->
  response_sound (built_model scenarios personnel)
    (Solve (built_model scenarios personnel)) = true ->
  (forall sol, is_solution (built_model scenarios personnel) sol = false) ->
  returned (find_optimal_schedule Solve scenarios personnel d) = inr ([], None).
Proof.
  intros Hd Hsound Hnone.
  by rewrite (find_optimal_schedule_unsolved _ _ _ _ _ Hd
                (no_solution_unsolved _ _ Hsound Hnone)).
Qed.

Lemma days_of_hours_le h1 h2 : h1 <= h2 -> (days_of_hours h1 <= days_of_hours h2)%Q.
Proof.
  intros Hle. unfold days_of_hours, Qle, Qdiv, Qmult, Qinv. cbn. lia.
Qed.

Lemma days_of_hours_bounds h :
  0 <= h <= horizon -> (0 <= days_of_hours h)%Q /\ (days_of_hours h <= 60)%Q.
Proof.
  intros Hh. unfold horizon in Hh. unfold days_of_hours, Qle, Qdiv, Qmult, Qinv.
  cbn. lia.
Qed.

Lemma subtask_duration_nonneg scenarios personnel subs m sol t s :
  build_facts scenarios personnel subs m ->
  is_solution m sol = true ->
  subs !! t = Some s ->
  0 <= st_duration s.
Proof.
  intros Hb Hsol Hs.
  destruct (build_facts_subtask _ _ _ _ _ _ Hb Hs) as (i & sc & k & ws & _ & _ & _ & Hp).
  destruct (posted_interval _ _ _ _ _ _ _ _ _ Hp) as (inm & Hiv & Hin).
  pose proof (is_solution_holds _ _ _ Hsol Hin) as Hh.
  rewrite Hiv in Hh. cbn in Hh. rewrite (posted_duration _ _ _ _ _ _ _ _ _ Hp).
  apply andb_prop in Hh as [Hh _]. lia.
Qed.

(** ** Inputs without a schedule *)

Lemma objective_within_horizon scenarios personnel subs m sol :
  build_facts scenarios personnel subs m ->
  is_solution m sol = true ->
  0 <= objective_of m sol <= horizon.
Proof.
  intros Hb Hsol. destruct (bf_objective _ _ _ _ Hb) as (mx & Hobj & Hmx & _).
  pose proof (is_solution_domain _ _ _ _ Hsol Hmx) as Hdom.
  unfold objective_of. rewrite Hobj. exact Hdom.
Qed.

Lemma scenario_first_subtask scenarios personnel subs m i sc :
  build_facts scenarios personnel subs m ->
  scenarios !! i = Some sc ->
  required_workstreams sc <> [] ->
  exists t s, subs !! t = Some s /\ st_duration s = duration_hours sc.
Proof.
  intros Hb Hi Hne. destruct (required_workstreams sc) as [|ws wss] eqn:Hws; [done|].
  destruct (sp_subtasks _ _ _ _ _ _ (bf_scenarios _ _ _ _ Hb _ _ Hi) 0%nat ws)
    as (s & Hs & Hp); [by rewrite Hws|].
  exists (subtask_count (take i scenarios) + 0)%nat, s. split; [exact Hs|].
  exact (posted_duration _ _ _ _ _ _ _ _ _ Hp).
Qed.

Lemma duration_outside_horizon_no_solution scenarios personnel i sc sol :
  scenarios !! i = Some sc ->
  horizon < duration_hours sc \/ duration_hours sc < - horizon
  \/ (duration_hours sc < 0 /\ required_workstreams sc <> []) ->
  is_solution (built_model scenarios personnel) sol = false.
Proof.
  intros Hi Hd. destruct (is_solution _ sol) eqn:Hsol; [|reflexivity]. exfalso.
  pose proof (build_spec scenarios personnel) as Hb.
  pose proof (scenario_end_value _ _ _ _ _ _ _ Hb Hsol Hi) as Hend.
  pose proof (scenario_start_nonneg _ _ _ _ _ _ _ Hb Hsol Hi) as Hstart.
  pose proof (is_solution_domain _ _ _ _ Hsol
                (sp_end _ _ _ _ _ _ (bf_scenarios _ _ _ _ Hb _ _ Hi))) as Hdom.
  unfold scenario_end_var in *. cbn [var_lb var_ub] in Hdom.
  destruct Hd as [Hd|[Hd|[Hd Hne]]]; [unfold earliest_start in Hdom; lia..|].
  destruct (scenario_first_subtask _ _ _ _ _ _ Hb Hi Hne) as (t & s & Hs & Hdur).
  pose proof (subtask_duration_nonneg _ _ _ _ _ _ _ Hb Hsol Hs). lia.
Qed.

Lemma no_subtask_no_solution scenarios personnel sol :
  (forall sc, sc ∈ scenarios -> required_workstreams sc = []) ->
  is_solution (built_model scenarios personnel) sol = false.
Proof.
  intros Hall. destruct (is_solution _ sol) eqn:Hsol; [|reflexivity]. exfalso.
  pose proof (build_spec scenarios personnel) as Hb.
  destruct (solution_has_subtask _ _ _ _ _ Hb Hsol) as (s & rest & Hsubs).
  destruct (build_facts_subtask _ _ _ _ 0%nat s Hb) as (i & sc & k & ws & Hi & Hk & _).
  { by rewrite Hsubs. }
  rewrite (Hall sc) in Hk; [by rewrite lookup_nil in Hk|].
  by eapply list_elem_of_lookup_2.
Qed.

(** The sub-tasks of one scenario of positive duration get pairwise
    different persons: they share their start and end. *)
Lemma scenario_person_values_distinct scenarios personnel subs m sol i sc k1 k2 ws1 ws2 :
  build_facts scenarios personnel subs m ->
  is_solution m sol = true ->
  scenarios !! i = Some sc ->
  0 < duration_hours sc ->
  required_workstreams sc !! k1 = Some ws1 ->
  required_workstreams sc !! k2 = Some ws2 ->
  Value sol (scenario_start_var scenarios i + 2 + k1)%nat
  = Value sol (scenario_start_var scenarios i + 2 + k2)%nat ->
  k1 = k2.
Proof.
  intros Hb Hsol Hi Hpos Hk1 Hk2 Heq.
  destruct (decide (k1 = k2)) as [|Hne]; [done|]. exfalso.
  pose proof (bf_scenarios _ _ _ _ Hb _ _ Hi) as Hsc.
  destruct (sp_subtasks _ _ _ _ _ _ Hsc _ _ Hk1) as (s1 & Hs1 & Hp1).
  destruct (sp_subtasks _ _ _ _ _ _ Hsc _ _ Hk2) as (s2 & Hs2 & Hp2).
  pose proof (scenario_end_value _ _ _ _ _ _ _ Hb Hsol Hi) as Hend.
  unfold scenario_end_var in Hend.
  assert (Value sol (st_end s1) <= Value sol (st_start s2)
          \/ Value sol (st_end s2) <= Value sol (st_start s1)) as Hdis.
  { apply (same_person_disjoint _ _ _ _ _
             (subtask_count (take i scenarios) + k1)%nat
             (subtask_count (take i scenarios) + k2)%nat _ _ Hb Hsol);
      [lia|done|done|].
    by rewrite (posted_person _ _ _ _ _ _ _ _ _ Hp1),
               (posted_person _ _ _ _ _ _ _ _ _ Hp2). }
  rewrite (posted_end _ _ _ _ _ _ _ _ _ Hp1), (posted_end _ _ _ _ _ _ _ _ _ Hp2),
          (posted_start _ _ _ _ _ _ _ _ _ Hp1), (posted_start _ _ _ _ _ _ _ _ _ Hp2)
    in Hdis.
  lia.
Qed.

Lemma scenario_person_value scenarios personnel subs m sol i sc k ws :
  build_facts scenarios personnel subs m ->
  is_solution m sol = true ->
  scenarios !! i = Some sc ->
  required_workstreams sc !! k = Some ws ->
  0 <= Value sol (scenario_start_var scenarios i + 2 + k)%nat
     < Z.of_nat (length personnel)
  /\ (valid_people_indices personnel ws <> [] ->
      Value sol (scenario_start_var scenarios i + 2 + k)%nat
        ∈ map Z.of_nat (valid_people_indices personnel ws)).
Proof.
  intros Hb Hsol Hi Hk.
  destruct (sp_subtasks _ _ _ _ _ _ (bf_scenarios _ _ _ _ Hb _ _ Hi) _ _ Hk)
    as (s & Hs & Hp).
  destruct (subtask_solution_facts _ _ _ _ _ _ _ Hb Hsol Hs) as (_ & _ & Hr & _ & Hv).
  rewrite (posted_person _ _ _ _ _ _ _ _ _ Hp) in Hr, Hv.
  rewrite (posted_workstream _ _ _ _ _ _ _ _ _ Hp) in Hv. done.
Qed.

(** Pairwise different values drawn from a list are no more than the list
    has entries. *)
Lemma pigeonhole {A B} (f : A -> B) (ks : list A) (targets : list B) :
  NoDup ks ->
  (forall x y, x ∈ ks -> y ∈ ks -> f x = f y -> x = y) ->
  (forall x, x ∈ ks -> f x ∈ targets) ->
  (length ks <= length targets)%nat.
Proof.
  intros Hnd Hinj Hin. rewrite <- (length_fmap f ks).
  apply submseteq_length, NoDup_submseteq.
  - by apply NoDup_fmap_2_strong.
  - intros y (x & -> & Hx)%list_elem_of_fmap. by apply Hin.
Qed.

Lemma positions_of_length (ws : string) : forall wss wss0,
  length (filter (fun k => (wss0 ++ wss) !! k = Some ws)
                 (seq (length wss0) (length wss)))
  = length (filter (fun w => w = ws) wss).
Proof.
  induction wss as [|w wss IH]; intros wss0; [reflexivity|].
  cbn [length seq]. rewrite !filter_cons.
  rewrite (list_lookup_middle wss0 wss w (length wss0) eq_refl).
  specialize (IH (wss0 ++ [w])). rewrite <- (assoc_L (++)), length_app in IH.
  cbn [app length] in IH. rewrite Nat.add_1_r in IH.
  destruct (decide (Some w = Some ws)) as [Heq|Hne];
    destruct (decide (w = ws)) as [Heq'|Hne']; cbn [length];
    [by rewrite IH| by injection Heq | by subst | exact IH].
Qed.

Lemma valid_people_indices_length personnel ws :
  length (valid_people_indices personnel ws) = length (members personnel ws).
Proof. unfold valid_people_indices, members. by rewrite length_map. Qed.

Lemma row_of_returned_schedule `{DateTimeLib} Solve scenarios personnel d start_date
    df days row :
  strptime d = Some start_date ->
  returned (find_optimal_schedule Solve scenarios personnel d) = inr (df, Some days) ->
  row ∈ df ->
  exists n, merged_row personnel start_date (solved_values Solve scenarios personnel)
              (built_subtasks scenarios personnel) n row.
Proof.
  intros Hd Hret Hrow.
  destruct (returned_schedule _ _ _ _ _ _ Hret) as (_ & _ & sd & dict & Hd' & Hdict & ->).
  rewrite Hd in Hd'. injection Hd' as <-.
  apply list_elem_of_fmap in Hrow as (kv & -> & Hkv).
  pose proof (regroup_merged _ _ _ _ _ Hdict) as Hm.
  apply list_elem_of_lookup in Hkv as (j & Hj).
  destruct (Forall2_lookup_r _ _ _ _ _ Hm Hj) as (n & _ & _ & Hr).
  exists n. by apply merged_result_row.
Qed.

(** ** [people_map]: one index per name *)

Lemma people_map_snoc personnel p :
  people_map (personnel ++ [p])
  = <[name p := length personnel]> (people_map personnel).
Proof.
  unfold people_map, enumerate. rewrite enumerate_from_app, foldl_app. reflexivity.
Qed.

(** [people_map] sends a name to the last index that carries it. *)
Lemma people_map_lookup n : forall personnel i,
  people_map personnel !! n = Some i
  <-> (exists p, personnel !! i = Some p /\ name p = n)
      /\ forall j q, (i < j)%nat -> personnel !! j = Some q -> name q <> n.
Proof.
  induction personnel as [|p personnel IH] using rev_ind; intros i.
  - unfold people_map. cbn. rewrite lookup_empty. split; [done|].
    intros [(p & Hp & _) _]. by rewrite lookup_nil in Hp.
  - rewrite people_map_snoc. destruct (decide (name p = n)) as [Hn|Hn].
    + rewrite <- Hn, lookup_insert_eq. split.
      * intros [= <-]. split.
        -- exists p. by rewrite list_lookup_middle.
        -- intros j q Hj Hq. apply lookup_lt_Some in Hq.
           rewrite length_app in Hq. cbn in Hq. lia.
      * intros [(q & Hq & _) Hlast]. f_equal.
        pose proof (lookup_lt_Some _ _ _ Hq) as Hlt.
        rewrite length_app in Hlt. cbn in Hlt.
        destruct (decide (i = length personnel)) as [->|Hne]; [done|].
        exfalso. apply (Hlast (length personnel) p); [lia| |done].
        by rewrite list_lookup_middle.
    + rewrite lookup_insert_ne by done. rewrite IH. split.
      * intros [(q & Hq & Hqn) Hlast]. split.
        -- exists q. split; [|done]. by apply lookup_app_l_Some.
        -- intros j q' Hj Hq'. apply lookup_app_Some in Hq' as [Hq'|[Hge Hq']].
           ++ by apply (Hlast j).
           ++ apply list_lookup_singleton_Some in Hq' as [_ <-]. done.
      * intros [(q & Hq & Hqn) Hlast]. apply lookup_app_Some in Hq as [Hq|[Hge Hq]].
        -- split; [by eauto|]. intros j q' Hj Hq'. apply (Hlast j); [done|].
           by apply lookup_app_l_Some.
        -- apply list_lookup_singleton_Some in Hq as [_ <-]. done.
Qed.

Lemma people_map_is_Some personnel p :
  p ∈ personnel -> is_Some (people_map personnel !! name p).
Proof.
  induction personnel as [|q personnel IH] using rev_ind.
  - by intros ?%elem_of_nil.
  - rewrite people_map_snoc. intros Hp.
    destruct (decide (name q = name p)) as [Hn|Hn].
    + rewrite Hn, lookup_insert_eq. by eauto.
    + rewrite lookup_insert_ne by done. apply IH.
      apply elem_of_app in Hp as [Hp|Hp]; [done|].
      apply list_elem_of_singleton in Hp. by subst.
Qed.

Lemma valid_people_indices_elem personnel ws idx :
  idx ∈ valid_people_indices personnel ws
  <-> exists p, p ∈ personnel /\ workstream p = ws
                /\ people_map personnel !! name p = Some idx.
Proof.
  unfold valid_people_indices. rewrite list_elem_of_fmap. split.
  - intros (p & -> & [Hws Hp]%list_elem_of_filter). exists p. split; [done|].
    split; [done|]. destruct (people_map_is_Some _ _ Hp) as [i Hi].
    by rewrite lookup_total_alt, Hi.
  - intros (p & Hp & Hws & Hi). exists p. split.
    + by rewrite lookup_total_alt, Hi.
    + by apply list_elem_of_filter.
Qed.

Lemma valid_people_indices_nil personnel ws :
  valid_people_indices personnel ws = []
  <-> forall p, p ∈ personnel -> workstream p <> ws.
Proof.
  split.
  - intros Hnil p Hp Hws.
    destruct (people_map_is_Some _ _ Hp) as [i Hi].
    assert (i ∈ valid_people_indices personnel ws) as Hin.
    { apply valid_people_indices_elem. by eauto. }
    rewrite Hnil in Hin. by apply elem_of_nil in Hin.
  - intros Hall. destruct (valid_people_indices personnel ws) as [|i rest] eqn:Hv;
      [done|].
    assert (i ∈ valid_people_indices personnel ws) as Hin by (rewrite Hv; left).
    apply valid_people_indices_elem in Hin as (p & Hp & Hws & _).
    by destruct (Hall p Hp).
Qed.

Lemma distinct_names_same_person personnel i j p q :
  NoDup (map name personnel) ->
  personnel !! i = Some p -> personnel !! j = Some q -> name p = name q ->
  p = q.
Proof.
  intros Hnd Hp Hq Hn.
  assert (i = j) as ->.
  { apply (NoDup_lookup _ _ _ (name p) Hnd).
    - by rewrite list_lookup_fmap, Hp.
    - by rewrite list_lookup_fmap, Hq, Hn. }
  rewrite Hp in Hq. by injection Hq.
Qed.

Lemma grows_by_refl st : grows_by st [] 0 0 st.
Proof. unfold grows_by. by rewrite app_nil_r, !Nat.add_0_r. Qed.

Lemma grows_by_trans st1 st2 st3 l1 l2 v1 v2 c1 c2 :
  grows_by st1 l1 v1 c1 st2 -> grows_by st2 l2 v2 c2 st3 ->
  grows_by st1 (l1 ++ l2) (v1 + v2) (c1 + c2) st3.
Proof.
  intros (Ho1 & Hv1 & Hc1) (Ho2 & Hv2 & Hc2). unfold grows_by.
  split; [by rewrite Ho2, Ho1, (assoc_L (++))|lia].
Qed.

Lemma grows_by_bind {A B} (c : Build A) (k : A -> Build B) st l1 l2 v1 v2 c1 c2 :
  grows_by st l1 v1 c1 (c st).2 ->
  grows_by (c st).2 l2 v2 c2 (k (c st).1 (c st).2).2 ->
  grows_by st (l1 ++ l2) (v1 + v2) (c1 + c2) (bind c k st).2.
Proof.
  intros H1 H2. unfold bind. destruct (c st) as [a st1] eqn:Hc. cbn [fst snd] in *.
  exact (grows_by_trans _ _ _ _ _ _ _ _ _ H1 H2).
Qed.

Lemma grows_by_eq st st' l l' v v' c c' :
  grows_by st l v c st' -> l = l' -> v = v' -> c = c' -> grows_by st l' v' c' st'.
Proof. by intros Hg <- <- <-. Qed.

Lemma grows_by_NewIntVar lb ub nm st : grows_by st [] 1 0 (NewIntVar lb ub nm st).2.
Proof.
  unfold grows_by, NewIntVar. cbn. by rewrite app_nil_r, length_app, Nat.add_0_r.
Qed.

Lemma grows_by_Add c st : grows_by st [] 0 1 (Add c st).2.
Proof.
  unfold grows_by, Add. cbn. by rewrite app_nil_r, length_app, Nat.add_0_r.
Qed.

Lemma grows_by_print line st : grows_by st [line] 0 0 (print line st).2.
Proof. unfold grows_by, print. cbn. by rewrite !Nat.add_0_r. Qed.

Lemma grows_by_Minimize v st : grows_by st [] 0 0 (Minimize v st).2.
Proof. unfold grows_by, Minimize. cbn. by rewrite app_nil_r, !Nat.add_0_r. Qed.

Lemma grows_by_ret {A} (a : A) st : grows_by st [] 0 0 (ret a st).2.
Proof. apply grows_by_refl. Qed.

Lemma grows_by_interval s size e p nm st :
  grows_by st [] 0 1 (NewIntervalVar s size e nm st).2
  /\ grows_by st [] 0 1 (NewOptionalIntervalVar s size e p nm st).2.
Proof. split; apply grows_by_Add. Qed.

(** A loop whose body grows the state by amounts that depend on the item
    only grows it by their sum. *)
Lemma grows_by_for_fold {A S} (body : S -> A -> Build S)
    (L : A -> list string) (V C : A -> nat) :
  (forall acc x st, grows_by st (L x) (V x) (C x) (body acc x st).2) ->
  forall xs acc st,
    grows_by st (concat (map L xs)) (sum_list_with V xs) (sum_list_with C xs)
             (for_fold body acc xs st).2.
Proof.
  intros Hbody. induction xs as [|x xs IH]; intros acc st.
  - apply grows_by_refl.
  - cbn [for_fold map concat sum_list_with].
    apply grows_by_bind; [apply Hbody|]. apply IH.
Qed.

Lemma enumerate_from_sums {A} (L : A -> list string) (V : A -> nat) : forall xs i,
  concat (map (fun e : nat * A => L e.2) (enumerate_from i xs)) = concat (map L xs)
  /\ sum_list_with (fun e : nat * A => V e.2) (enumerate_from i xs) = sum_list_with V xs.
Proof.
  induction xs as [|x xs IH]; intros i; [done|].
  cbn. destruct (IH (S i)) as [-> ->]. done.
Qed.

Lemma error_lines_app personnel wss1 wss2 :
  error_lines personnel (wss1 ++ wss2)
  = error_lines personnel wss1 ++ error_lines personnel wss2.
Proof. unfold error_lines. by rewrite filter_app, map_app. Qed.

Lemma error_lines_concat personnel : forall wsss,
  concat (map (error_lines personnel) wsss) = error_lines personnel (concat wsss).
Proof.
  induction wsss as [|wss wsss IH]; [done|].
  cbn [map concat]. by rewrite IH, error_lines_app.
Qed.

Lemma subtask_constraints_app personnel wss1 wss2 :
  subtask_constraints personnel (wss1 ++ wss2)
  = (subtask_constraints personnel wss1 + subtask_constraints personnel wss2)%nat.
Proof. unfold subtask_constraints. rewrite filter_app, !length_app. lia. Qed.

Lemma unstaffed_valid personnel ws :
  unstaffed personnel ws <-> valid_people_indices personnel ws = [].
Proof.
  rewrite valid_people_indices_nil. unfold unstaffed. by rewrite Forall_forall.
Qed.

Lemma grows_by_add_subtask personnel idx nm d sv ev acc entry st :
  grows_by st (error_lines personnel [entry.2]) 1
           (subtask_constraints personnel [entry.2])
           (add_subtask personnel idx nm d sv ev acc entry st).2.
Proof.
  destruct entry as [k ws]. cbn [snd]. unfold add_subtask.
  assert (forall (c : IntVar -> Build unit) l n,
            (forall v st', grows_by st' l 0 n (c v st').2) ->
            forall (k' : IntVar -> Build (list Subtask)),
            (forall v st', grows_by st' [] 0 1 (k' v st').2) ->
            grows_by st l 1 (1 + n)
              ((let* v := NewIntVar 0 (Z.of_nat (length personnel) - 1)
                            ("person" +:+ "_" +:+ pretty idx +:+ "_" +:+ pretty k) in
                let* _ := c v in k' v) st).2) as Hshape.
  { intros c l n Hc k' Hk'.
    apply (grows_by_bind _ _ st [] l 1 0 0 (1 + n)); [apply grows_by_NewIntVar|].
    replace (1 + n)%nat with (n + 1)%nat by lia.
    rewrite <- (app_nil_r l).
    apply (grows_by_bind _ _ _ l [] 0 0 n 1); [apply Hc|]. apply Hk'. }
  unfold error_lines, subtask_constraints. rewrite !filter_cons, !filter_nil.
  destruct (valid_people_indices personnel ws) as [|i rest] eqn:Hvalid.
  - rewrite decide_True by by apply unstaffed_valid.
    rewrite decide_False by (intros Hn; apply Hn; by apply unstaffed_valid).
    cbn [map length Nat.add].
    apply (Hshape (fun _ => print _) [error_line ws] 0%nat).
    + intros v st'. apply grows_by_print.
    + intros v st'.
      apply (grows_by_bind _ _ st' [] [] 0 0 1 0); [apply grows_by_Add|].
      apply grows_by_ret.
  - rewrite decide_False by (rewrite unstaffed_valid, Hvalid; done).
    rewrite decide_True by (rewrite unstaffed_valid, Hvalid; done).
    cbn [map length Nat.add].
    apply (Hshape (fun v => Add _) [] 1%nat).
    + intros v st'. apply grows_by_Add.
    + intros v st'.
      apply (grows_by_bind _ _ st' [] [] 0 0 1 0); [apply grows_by_Add|].
      apply grows_by_ret.
Qed.
Lemma sums_of_singletons personnel : forall wss,
  concat (map (fun ws => error_lines personnel [ws]) wss) = error_lines personnel wss
  /\ sum_list_with (fun _ : string => 1%nat) wss = length wss
  /\ sum_list_with (fun ws => subtask_constraints personnel [ws]) wss
     = subtask_constraints personnel wss.
Proof.
  induction wss as [|ws wss (IH1 & IH2 & IH3)]; [done|].
  cbn [map concat sum_list_with length]. rewrite IH1, IH2, IH3.
  change (ws :: wss) with ([ws] ++ wss).
  by rewrite error_lines_app, subtask_constraints_app.
Qed.

Lemma grows_by_add_scenario personnel acc entry st :
  grows_by st (error_lines personnel (required_workstreams entry.2))
           (2 + length (required_workstreams entry.2))
           (1 + subtask_constraints personnel (required_workstreams entry.2))
           (add_scenario personnel acc entry st).2.
Proof.
  destruct entry as [idx sc]. cbn [snd]. unfold add_scenario.
  destruct (sums_of_singletons personnel (required_workstreams sc)) as (E1 & E2 & E3).
  destruct (enumerate_from_sums (fun ws => error_lines personnel [ws])
              (fun _ => 1%nat) (required_workstreams sc) 0) as [F1 F2].
  destruct (enumerate_from_sums (fun ws => error_lines personnel [ws])
              (fun ws => subtask_constraints personnel [ws])
              (required_workstreams sc) 0) as [_ F3].
  apply (grows_by_bind _ _ st [] _ 1 (1 + length (required_workstreams sc)) 0
           (1 + subtask_constraints personnel (required_workstreams sc)));
    [apply grows_by_NewIntVar|].
  apply (grows_by_bind _ _ _ [] _ 1 (length (required_workstreams sc)) 0
           (1 + subtask_constraints personnel (required_workstreams sc)));
    [apply grows_by_NewIntVar|].
  apply (grows_by_bind _ _ _ [] _ 0 (length (required_workstreams sc)) 1
           (subtask_constraints personnel (required_workstreams sc)));
    [apply grows_by_Add|].
  eapply grows_by_eq.
  - apply (grows_by_for_fold _ (fun e => error_lines personnel [e.2])
             (fun _ => 1%nat) (fun e => subtask_constraints personnel [e.2])).
    intros acc' e st'. apply grows_by_add_subtask.
  - unfold enumerate. by rewrite F1, E1.
  - unfold enumerate. by rewrite F2, E2.
  - unfold enumerate. by rewrite F3, E3.
Qed.

Lemma scenario_sums personnel : forall scs,
  concat (map (fun sc => error_lines personnel (required_workstreams sc)) scs)
  = error_lines personnel (all_requirements scs)
  /\ sum_list_with (fun sc => (2 + length (required_workstreams sc))%nat) scs
     = (2 * length scs + subtask_count scs)%nat
  /\ sum_list_with
       (fun sc => (1 + subtask_constraints personnel (required_workstreams sc))%nat) scs
     = (length scs + subtask_constraints personnel (all_requirements scs))%nat.
Proof.
  induction scs as [|sc scs (IH1 & IH2 & IH3)]; [done|].
  unfold all_requirements, subtask_count in *.
  cbn [map concat sum_list_with length].
  rewrite IH1, IH2, IH3, error_lines_app, subtask_constraints_app.
  split; [done|]. lia.
Qed.

Lemma grows_by_create_subtasks scenarios personnel st :
  grows_by st (error_lines personnel (all_requirements scenarios))
           (2 * length scenarios + subtask_count scenarios)
           (length scenarios + subtask_constraints personnel (all_requirements scenarios))
           (create_subtasks scenarios personnel st).2.
Proof.
  unfold create_subtasks.
  destruct (scenario_sums personnel scenarios) as (E1 & E2 & E3).
  destruct (enumerate_from_sums
              (fun sc => error_lines personnel (required_workstreams sc))
              (fun sc => (2 + length (required_workstreams sc))%nat) scenarios 0)
    as [F1 F2].
  destruct (enumerate_from_sums
              (fun sc => error_lines personnel (required_workstreams sc))
              (fun sc => (1 + subtask_constraints personnel (required_workstreams sc))%nat)
              scenarios 0) as [_ F3].
  eapply grows_by_eq.
  - apply (grows_by_for_fold _
             (fun e => error_lines personnel (required_workstreams e.2))
             (fun e => (2 + length (required_workstreams e.2))%nat)
             (fun e => (1 + subtask_constraints personnel (required_workstreams e.2))%nat)).
    intros acc e st'. apply grows_by_add_scenario.
  - unfold enumerate. by rewrite F1, E1.
  - unfold enumerate. by rewrite F2, E2.
  - unfold enumerate. by rewrite F3, E3.
Qed.

Lemma constant_sums {A} (c : nat) : forall xs : list A,
  concat (map (fun _ => @nil string) xs) = []
  /\ sum_list_with (fun _ => c) xs = (length xs * c)%nat.
Proof. induction xs as [|x xs [IH1 IH2]]; [done|]. cbn. by rewrite IH1, IH2. Qed.

Lemma grows_by_link_person s pti p st :
  grows_by st [] 1 3 (link_person s pti p st).2.
Proof.
  unfold link_person.
  apply (grows_by_bind _ _ st [] [] 1 0 0 3); [apply grows_by_NewIntVar|].
  apply (grows_by_bind _ _ _ [] [] 0 0 1 2); [apply grows_by_Add|].
  apply (grows_by_bind _ _ _ [] [] 0 0 1 1); [apply grows_by_Add|].
  apply (grows_by_bind _ _ _ [] [] 0 0 1 0); [apply grows_by_Add|].
  apply grows_by_ret.
Qed.

Lemma grows_by_link_subtask personnel pti s st :
  grows_by st [] (length personnel) (length personnel * 3)
           (link_subtask personnel pti s st).2.
Proof.
  unfold link_subtask.
  destruct (constant_sums 1 (seq 0 (length personnel))) as [E1 E2].
  destruct (constant_sums 3 (seq 0 (length personnel))) as [_ E3].
  rewrite length_seq in E2, E3.
  eapply grows_by_eq.
  - apply (grows_by_for_fold _ (fun _ => []) (fun _ => 1%nat) (fun _ => 3%nat)).
    intros acc p st'. apply grows_by_link_person.
  - exact E1.
  - rewrite E2. lia.
  - exact E3.
Qed.

Lemma grows_by_no_double_booking personnel subs st :
  grows_by st [] (length subs * length personnel)
           (length subs * (length personnel * 3) + length personnel)
           (no_double_booking personnel subs st).2.
Proof.
  unfold no_double_booking.
  destruct (constant_sums (length personnel) subs) as [E1 E2].
  destruct (constant_sums (length personnel * 3) subs) as [_ E3].
  eapply grows_by_eq;
    [apply (grows_by_bind _ _ st [] [] (length subs * length personnel) 0
              (length subs * (length personnel * 3)) (length personnel))
    |done|lia|lia].
  - eapply grows_by_eq.
    + apply (grows_by_for_fold _ (fun _ => []) (fun _ => length personnel)
               (fun _ => (length personnel * 3)%nat)).
      intros acc s st'. apply grows_by_link_subtask.
    + exact E1.
    + exact E2.
    + exact E3.
  - destruct (link_subtask_loop personnel subs (map (fun _ => []) personnel) st)
      as (pti & st1 & Hrun & _ & _ & Hlen & _); [by rewrite length_map|].
    rewrite Hrun. cbn [fst snd].
    destruct (constant_sums 0 pti) as [F1 F2].
    destruct (constant_sums 1 pti) as [_ F3].
    eapply grows_by_eq.
    + apply (grows_by_for_fold _ (fun _ => []) (fun _ => 0%nat) (fun _ => 1%nat)).
      intros acc ivs st'. apply grows_by_Add.
    + exact F1.
    + rewrite F2. lia.
    + rewrite F3. lia.
Qed.

Lemma grows_by_minimize_makespan subs st :
  grows_by st [] 1 1 (minimize_makespan subs st).2.
Proof.
  unfold minimize_makespan.
  apply (grows_by_bind _ _ st [] [] 1 0 0 1); [apply grows_by_NewIntVar|].
  apply (grows_by_bind _ _ _ [] [] 0 0 1 0); [apply grows_by_Add|].
  apply (grows_by_bind _ _ _ [] [] 0 0 0 0); [apply grows_by_Minimize|].
  apply grows_by_ret.
Qed.

Lemma create_subtasks_length scenarios personnel st :
  length (create_subtasks scenarios personnel st).1 = subtask_count scenarios.
Proof.
  unfold create_subtasks, enumerate.
  destruct (add_scenario_loop personnel scenarios 0 [] st)
    as (subs & st' & Hrun & _ & _ & _ & Hlen & _).
  by rewrite Hrun.
Qed.

Lemma grows_by_build scenarios personnel st :
  grows_by st (error_lines personnel (all_requirements scenarios))
    (2 * length scenarios + subtask_count scenarios
     + subtask_count scenarios * length personnel + 1)
    (length scenarios + subtask_constraints personnel (all_requirements scenarios)
     + 3 * subtask_count scenarios * length personnel + length personnel + 1)
    (build scenarios personnel st).2.
Proof.
  unfold build.
  eapply grows_by_eq.
  - eapply grows_by_bind; [apply grows_by_create_subtasks|].
    eapply grows_by_bind; [apply grows_by_no_double_booking|].
    eapply grows_by_bind; [apply grows_by_minimize_makespan|].
    apply grows_by_ret.
  - by rewrite !app_nil_r.
  - rewrite create_subtasks_length. lia.
  - rewrite create_subtasks_length. lia.
Qed.

Lemma printed_is_built_stdout `{DateTimeLib} Solve scenarios personnel d start_date :
  strptime d = Some start_date ->
  printed (find_optimal_schedule Solve scenarios personnel d)
  = built_stdout scenarios personnel.
Proof.
  intros Hd. unfold find_optimal_schedule, built_stdout. rewrite Hd.
  destruct (build scenarios personnel initial_state) as [subs st].
  destruct (solved (Solve (model st))); [|done].
  by destruct (regroup personnel start_date (solution (Solve (model st))) [] subs).
Qed.

Lemma sum_with_app {A} (f : A -> Z) (l1 l2 : list A) :
  sum_with f (l1 ++ l2) = sum_with f l1 + sum_with f l2.
Proof.
  unfold sum_with. induction l1 as [|a l1 IH]; cbn [app foldr]; [done|]. lia.
Qed.

Lemma sum_with_cons {A} (f : A -> Z) (a : A) (l : list A) :
  sum_with f (a :: l) = f a + sum_with f l.
Proof. reflexivity. Qed.

Lemma sum_with_split {A} (f : A -> Z) (P : A -> Prop) `{!forall a, Decision (P a)} :
  forall l, sum_with f l = sum_with f (filter P l) + sum_with f (filter (fun a => ~ P a) l).
Proof.
  induction l as [|a l IH]; [done|].
  rewrite !filter_cons. destruct (decide (P a)) as [Hp|Hp].
  - rewrite decide_False by tauto. rewrite !sum_with_cons. lia.
  - rewrite decide_True by tauto. rewrite !sum_with_cons. lia.
Qed.

Lemma sum_with_filter_le {A} (f : A -> Z) (P Q : A -> Prop)
    `{!forall a, Decision (P a)} `{!forall a, Decision (Q a)} : forall l,
  Forall (fun a => 0 <= f a) l ->
  Forall (fun a => P a -> Q a) l ->
  sum_with f (filter P l) <= sum_with f (filter Q l).
Proof.
  induction l as [|a l IH]; intros Hf Himp; [done|].
  apply Forall_cons in Hf as [Ha Hf]. apply Forall_cons in Himp as [Hpq Himp].
  specialize (IH Hf Himp). rewrite !filter_cons.
  destruct (decide (P a)) as [Hp|Hp].
  - rewrite decide_True by auto. rewrite !sum_with_cons. lia.
  - destruct (decide (Q a)); rewrite ?sum_with_cons; lia.
Qed.

Lemma sum_with_fmap_filter {A B} (f : B -> Z) (g : A -> B) (P : B -> Prop)
    (Q : A -> Prop) `{!forall b, Decision (P b)} `{!forall a, Decision (Q a)} :
  (forall a, Q a <-> P (g a)) ->
  forall l : list A,
    sum_with (fun a => f (g a)) (filter Q l) = sum_with f (filter P (g <$> l)).
Proof.
  intros Hpq. induction l as [|a l IH]; [done|].
  rewrite fmap_cons, !filter_cons.
  destruct (decide (Q a)) as [Hq|Hq].
  - rewrite decide_True by (by apply Hpq). by rewrite !sum_with_cons, IH.
  - rewrite decide_False by (by rewrite <- Hpq). done.
Qed.

Lemma ForallOrdPairs_lookup {A} (R : A -> A -> Prop) : forall l : list A,
  (forall i j a b, (i < j)%nat -> l !! i = Some a -> l !! j = Some b -> R a b) ->
  ForallOrdPairs R l.
Proof.
  induction l as [|a l IH]; intros Hl; constructor.
  - apply Forall_lookup. intros j b Hb. apply (Hl 0%nat (S j)); [lia|done|done].
  - apply IH. intros i j x y Hij Hx Hy. apply (Hl (S i) (S j)); [lia|done|done].
Qed.

Lemma ForallOrdPairs_filter {A} (R : A -> A -> Prop) (P : A -> Prop)
    `{!forall a, Decision (P a)} (l : list A) :
  ForallOrdPairs R l -> ForallOrdPairs R (filter P l).
Proof.
  induction 1 as [|a l Ha Hl IH]; [constructor|].
  rewrite filter_cons. destruct (decide (P a)); [|done].
  constructor; [|done]. apply Forall_forall. intros b [_ Hb]%list_elem_of_filter.
  by eapply Forall_forall.
Qed.

Lemma ForallOrdPairs_impl {A} (R R' : A -> A -> Prop) (P : A -> Prop) (l : list A) :
  (forall a b, P a -> P b -> R a b -> R' a b) ->
  Forall P l -> ForallOrdPairs R l -> ForallOrdPairs R' l.
Proof.
  intros Himp Hp Hl. induction Hl as [|a l Ha Hl IH]; [constructor|].
  apply Forall_cons in Hp as [Hpa Hp]. constructor; [|by apply IH].
  apply Forall_forall. intros b Hb.
  apply Himp; [done|by eapply Forall_forall|by eapply Forall_forall].
Qed.

(** Windows that pairwise do not overlap and lie in [[lo, hi]] have a
    total length of at most [hi - lo]. *)
Lemma disjoint_windows_fit {A} (start dur : A -> Z) : forall n (l : list A) lo hi,
  (length l <= n)%nat ->
  lo <= hi ->
  Forall (fun a => lo <= start a /\ 0 <= dur a /\ start a + dur a <= hi) l ->
  ForallOrdPairs (fun a b => start a + dur a <= start b \/ start b + dur b <= start a) l ->
  sum_with dur l <= hi - lo.
Proof.
  induction n as [|n IH]; intros l lo hi Hlen Hle Hin Hapart.
  - destruct l; [cbn; lia|cbn in Hlen; lia].
  - destruct l as [|a l]; [cbn; lia|]. cbn in Hlen.
    apply Forall_cons in Hin as [(Ha1 & Ha2 & Ha3) Hin].
    inversion Hapart as [|a' l' Ha Hl]; subst.
    rewrite sum_with_cons.
    rewrite (sum_with_split dur (fun b => start b + dur b <= start a) l).
    assert (sum_with dur (filter (fun b => start b + dur b <= start a) l)
            <= start a - lo) as Hbefore.
    { apply IH.
      - etrans; [apply length_filter|]. lia.
      - lia.
      - apply Forall_forall. intros b [Hb1 Hb2]%list_elem_of_filter.
        pose proof (proj1 (Forall_forall _ _) Hin b Hb2) as Hb3.
        cbn beta in Hb1, Hb3 |- *. lia.
      - by apply ForallOrdPairs_filter. }
    assert (sum_with dur (filter (fun b => ~ start b + dur b <= start a) l)
            <= hi - (start a + dur a)) as Hafter.
    { apply IH.
      - etrans; [apply length_filter|]. lia.
      - lia.
      - apply Forall_forall. intros b [Hb1 Hb2]%list_elem_of_filter.
        pose proof (proj1 (Forall_forall _ _) Hin b Hb2) as Hb3.
        pose proof (proj1 (Forall_forall _ _) Ha b Hb2) as Hb4.
        cbn beta in Hb1, Hb3, Hb4 |- *. lia.
      - by apply ForallOrdPairs_filter. }
    lia.
Qed.

(** The sub-tasks one person gets fit one after the other before the
    makespan. *)
Lemma person_hours_le_objective scenarios personnel subs m sol p :
  build_facts scenarios personnel subs m ->
  is_solution m sol = true ->
  person_hours sol subs p <= objective_of m sol.
Proof.
  intros Hb Hsol. unfold person_hours.
  pose proof (objective_within_horizon _ _ _ _ _ Hb Hsol) as Hobj.
  assert (Forall (fun s => 0 <= Value sol (st_start s) /\ 0 <= st_duration s
                           /\ Value sol (st_start s) + st_duration s
                              <= objective_of m sol
                           /\ Value sol (st_end s)
                              = Value sol (st_start s) + st_duration s) subs) as Hwin.
  { apply Forall_lookup. intros t s Hs.
    destruct (subtask_solution_facts _ _ _ _ _ _ _ Hb Hsol Hs) as (He & Hst & _ & Hmax & _).
    pose proof (subtask_duration_nonneg _ _ _ _ _ _ _ Hb Hsol Hs). lia. }
  assert (ForallOrdPairs
            (fun a b => Value sol (st_person a) = Value sol (st_person b) ->
                        Value sol (st_end a) <= Value sol (st_start b)
                        \/ Value sol (st_end b) <= Value sol (st_start a)) subs) as Hpairs.
  { apply ForallOrdPairs_lookup. intros i j a b Hij Ha Hb' Heq.
    apply (same_person_disjoint _ _ _ _ _ i j _ _ Hb Hsol); [lia|done..]. }
  replace (objective_of m sol) with (objective_of m sol - 0) by lia.
  apply (disjoint_windows_fit (fun s => Value sol (st_start s)) st_duration
           (length (filter (fun s => Value sol (st_person s) = p) subs))); [done|lia| |].
  - apply Forall_forall. intros s [_ Hs]%list_elem_of_filter.
    pose proof (proj1 (Forall_forall _ _) Hwin s Hs). cbn beta in *. lia.
  - apply (ForallOrdPairs_impl
             (fun a b => Value sol (st_person a) = Value sol (st_person b) ->
                         Value sol (st_end a) <= Value sol (st_start b)
                         \/ Value sol (st_end b) <= Value sol (st_start a)) _
             (fun s => Value sol (st_person s) = p
                       /\ Value sol (st_end s) = Value sol (st_start s) + st_duration s)).
    + intros a b [Hpa Hea] [Hpb Heb] Hab. rewrite <- Hea, <- Heb. apply Hab. congruence.
    + apply Forall_forall. intros s [Hp Hs]%list_elem_of_filter. split; [done|].
      pose proof (proj1 (Forall_forall _ _) Hwin s Hs). cbn beta in *. lia.
    + by apply ForallOrdPairs_filter.
Qed.

(** [all_subtasks] lists the required workstreams scenario by scenario:
    any reading [g] of a sub-task that the loop fixes from the scenario
    and the workstream is, over the whole list, that function of them. *)
Lemma subtasks_listing {B} (g : Subtask -> B) (f : Scenario -> string -> B) :
  forall scs subs,
    length subs = subtask_count scs ->
    (forall i sc k ws, scs !! i = Some sc -> required_workstreams sc !! k = Some ws ->
       exists s, subs !! (subtask_count (take i scs) + k)%nat = Some s /\ g s = f sc ws) ->
    g <$> subs = concat (map (fun sc => f sc <$> required_workstreams sc) scs).
Proof.
  induction scs as [|sc scs IH]; intros subs Hlen Hat.
  - by destruct subs.
  - cbn [map concat]. unfold subtask_count in Hlen. cbn [sum_list_with] in Hlen.
    rewrite <- (take_drop (length (required_workstreams sc)) subs), fmap_app. f_equal.
    + apply list_eq. intros k. rewrite !list_lookup_fmap.
      destruct (required_workstreams sc !! k) as [ws|] eqn:Hk.
      * destruct (Hat 0%nat sc k ws eq_refl Hk) as (s & Hs & Hg).
        cbn in Hs. rewrite lookup_take_lt by (by eapply lookup_lt_Some).
        rewrite Hs. cbn. by rewrite Hg.
      * apply lookup_ge_None in Hk. rewrite lookup_take_ge by lia. done.
    + apply IH.
      * rewrite length_drop. unfold subtask_count. lia.
      * intros i sc' k ws Hi Hk. destruct (Hat (S i) sc' k ws Hi Hk) as (s & Hs & Hg).
        exists s. split; [|done]. rewrite lookup_drop. rewrite <- Hs. f_equal.
        cbn [take]. unfold subtask_count. cbn [sum_list_with]. lia.
Qed.

Lemma built_subtasks_listing {B} (g : Subtask -> B) (f : Scenario -> string -> B)
    scenarios personnel subs m :
  build_facts scenarios personnel subs m ->
  (forall s sc ws,
     st_scenario_name s = scenario_name sc -> st_workstream s = ws ->
     st_duration s = duration_hours sc -> g s = f sc ws) ->
  g <$> subs = concat (map (fun sc => f sc <$> required_workstreams sc) scenarios).
Proof.
  intros Hb Hg. apply subtasks_listing; [exact (bf_count _ _ _ _ Hb)|].
  intros i sc k ws Hi Hk.
  destruct (sp_subtasks _ _ _ _ _ _ (bf_scenarios _ _ _ _ Hb _ _ Hi) _ _ Hk)
    as (s & Hs & Hp).
  exists s. split; [exact Hs|]. apply Hg.
  - exact (posted_name _ _ _ _ _ _ _ _ _ Hp).
  - exact (posted_workstream _ _ _ _ _ _ _ _ _ Hp).
  - exact (posted_duration _ _ _ _ _ _ _ _ _ Hp).
Qed.

Lemma workstream_hours_of_subtasks scenarios personnel subs m ws :
  build_facts scenarios personnel subs m ->
  sum_with st_duration (filter (fun s => st_workstream s = ws) subs)
  = workstream_hours scenarios ws.
Proof.
  intros Hb.
  pose proof (built_subtasks_listing (fun s => (st_workstream s, st_duration s))
                (fun sc w => (w, duration_hours sc)) _ _ _ _ Hb) as Hlist.
  etrans.
  { apply (sum_with_fmap_filter snd (fun s => (st_workstream s, st_duration s))
             (fun r : string * Z => r.1 = ws) (fun s => st_workstream s = ws)).
    done. }
  rewrite Hlist by (intros; congruence).
  clear. unfold workstream_hours.
  induction scenarios as [|sc scs IH]; [done|].
  cbn [map concat]. rewrite filter_app, sum_with_app, IH.
  rewrite sum_with_cons.
  f_equal. unfold times_required. generalize (duration_hours sc) as d.
  induction (required_workstreams sc) as [|w wss IHw]; intros d; [cbn; lia|].
  rewrite fmap_cons, !filter_cons. cbn [fst].
  destruct (decide (w = ws)); rewrite ?sum_with_cons; cbn [length snd].
  - rewrite IHw. lia.
  - apply IHw.
Qed.

(** ** The columns of a row *)

Lemma fmap_filter_fmap {A B C} (f : B -> C) (g : A -> B) (P : B -> Prop)
    (Q : A -> Prop) `{!forall b, Decision (P b)} `{!forall a, Decision (Q a)} :
  (forall a, Q a <-> P (g a)) ->
  forall l : list A,
    (fun a => f (g a)) <$> filter Q l = f <$> filter P (g <$> l).
Proof.
  intros Hpq. induction l as [|a l IH]; [done|].
  rewrite fmap_cons, !filter_cons.
  destruct (decide (Q a)) as [Hq|Hq].
  - rewrite decide_True by (by apply Hpq). by rewrite !fmap_cons, IH.
  - rewrite decide_False by (by rewrite <- Hpq). done.
Qed.

Lemma subtasks_named_workstreams scenarios personnel subs m n :
  build_facts scenarios personnel subs m ->
  st_workstream <$> subtasks_named n subs = requirements_named n scenarios.
Proof.
  intros Hb.
  pose proof (built_subtasks_listing (fun s => (st_scenario_name s, st_workstream s))
                (fun sc w => (scenario_name sc, w)) _ _ _ _ Hb) as Hlist.
  unfold subtasks_named. etrans.
  { apply (fmap_filter_fmap snd (fun s => (st_scenario_name s, st_workstream s))
             (fun r : string * string => r.1 = n) (fun s => st_scenario_name s = n)).
    done. }
  rewrite Hlist by (intros; congruence).
  clear. unfold requirements_named.
  induction scenarios as [|sc scs IH]; [done|].
  cbn [map concat]. rewrite filter_app, fmap_app, IH, filter_cons.
  assert (forall wss : list string,
            snd <$> filter (fun r : string * string => r.1 = n)
                      ((fun w => (scenario_name sc, w)) <$> wss)
            = if decide (scenario_name sc = n) then wss else []) as Hinner.
  { induction wss as [|w wss IHw]; [by destruct (decide _)|].
    rewrite fmap_cons, filter_cons. cbn [fst].
    destruct (decide (scenario_name sc = n)); [|exact IHw].
    by rewrite fmap_cons, IHw. }
  rewrite Hinner. by destruct (decide (scenario_name sc = n)).
Qed.

Lemma assigned_person_workstream scenarios personnel subs m sol t s p :
  build_facts scenarios personnel subs m ->
  is_solution m sol = true ->
  NoDup (map name personnel) ->
  subs !! t = Some s ->
  (exists q, q ∈ personnel /\ workstream q = st_workstream s) ->
  assigned_to personnel sol s p ->
  workstream p = st_workstream s.
Proof.
  intros Hb Hsol Hnd Hs (q0 & Hq0 & Hws0) Hp. unfold assigned_to in Hp.
  destruct (subtask_solution_facts _ _ _ _ _ _ _ Hb Hsol Hs) as (_ & _ & Hr & _ & Hv).
  assert (valid_people_indices personnel (st_workstream s) <> []) as Hvalid.
  { intros Hnil. by apply (proj1 (valid_people_indices_nil _ _) Hnil q0). }
  apply Hv in Hvalid. apply list_elem_of_fmap in Hvalid as (idx & Hidx & Hin).
  apply valid_people_indices_elem in Hin as (q & Hqin & Hws & Hmap).
  apply people_map_lookup in Hmap as [(q' & Hq' & Hn) _].
  apply list_elem_of_lookup in Hqin as (j & Hj).
  pose proof (distinct_names_same_person _ _ _ _ _ Hnd Hq' Hj Hn) as ->.
  destruct (py_index_in_range personnel _ Hr) as (p' & Hpy & Hp').
  rewrite Hidx, Nat2Z.id, Hq' in Hp'. injection Hp' as <-.
  rewrite Hp in Hpy. injection Hpy as ->. exact Hws.
Qed.

Lemma Value_app_l g ext v : (v < length g)%nat -> Value (g ++ ext) v = Value g v.
Proof. intros Hv. unfold Value, Solution, IntVar in *. by rewrite lookup_app_l. Qed.

Lemma Value_app_length g x ext : Value (g ++ x :: ext) (length g) = x.
Proof.
  unfold Value, Solution, IntVar in *. by rewrite list_lookup_middle.
Qed.

Lemma satisfied_length st g :
  satisfied st g -> length g = length (variables (model st)).
Proof. intros [Hdom _]. by apply in_domains_length. Qed.

Lemma satisfied_grow st g vs cs new st' :
  satisfied st g ->
  variables (model st') = variables (model st) ++ vs ->
  constraints (model st') = constraints (model st) ++ cs ->
  in_domains vs new = true ->
  (forall ext, forallb (holds ((g ++ new) ++ ext)) cs = true) ->
  satisfied st' (g ++ new).
Proof.
  intros Hsat Hv Hc Hnew Hcs. pose proof (satisfied_length _ _ Hsat) as Hlen.
  destruct Hsat as [Hdom Hall]. split.
  - rewrite Hv, in_domains_app, <- Hlen, take_app_length, drop_app_length.
    by rewrite Hdom, Hnew.
  - intros ext. rewrite Hc, forallb_app, Hcs, <- (assoc_L (++)), Hall. done.
Qed.

Lemma satisfied_same st g st' :
  satisfied st g ->
  variables (model st') = variables (model st) ->
  constraints (model st') = constraints (model st) ->
  satisfied st' g.
Proof. intros [Hdom Hall] Hv Hc. split; [by rewrite Hv|]. intros ext. by rewrite Hc. Qed.

Lemma satisfied_holds st g c ext :
  satisfied st g -> c ∈ constraints (model st) -> holds (g ++ ext) c = true.
Proof.
  intros [_ Hall] Hc. specialize (Hall ext). rewrite forallb_forall in Hall.
  apply Hall. by apply list_elem_of_In.
Qed.

Lemma planned_ext g new clock clock' s :
  clock <= clock' -> planned g clock s -> planned (g ++ new) clock' s.
Proof.
  intros Hle [(Hs & He & Hp) H1 H2 H3 H4]. split.
  - unfold scoped_subtask. rewrite length_app. lia.
  - by rewrite Value_app_l.
  - done.
  - by rewrite !Value_app_l.
  - rewrite Value_app_l by done. lia.
Qed.

Lemma apart_ext g new clock a b :
  planned g clock a -> planned g clock b -> apart g a b -> apart (g ++ new) a b.
Proof.
  intros [(Hs & He & Hp) _ _ _ _] [(Hs' & He' & Hp') _ _ _ _]. unfold apart.
  by rewrite !Value_app_l.
Qed.

Lemma ForallOrdPairs_snoc {A} (R : A -> A -> Prop) (l : list A) (x : A) :
  ForallOrdPairs R l -> Forall (fun a => R a x) l -> ForallOrdPairs R (l ++ [x]).
Proof.
  induction 1 as [|a l Ha Hl IH]; intros Hx; cbn [app].
  - repeat constructor.
  - apply Forall_cons in Hx as [Hax Hx]. constructor; [|by apply IH].
    apply Forall_app. split; [done|]. by constructor.
Qed.

Lemma apart_all_ext g new clock l :
  Forall (planned g clock) l ->
  ForallOrdPairs (apart g) l -> ForallOrdPairs (apart (g ++ new)) l.
Proof.
  intros Hpl Hap. induction Hap as [|a l Ha Hl IH]; [constructor|].
  apply Forall_cons in Hpl as [Hpa Hpl]. constructor; [|by apply IH].
  apply Forall_forall. intros b Hb.
  apply (apart_ext _ _ clock); [done|by eapply Forall_forall|by eapply Forall_forall].
Qed.

(** One pass of the inner loop of part 1, for a person [p] eligible for
    the workstream. *)
Lemma satisfied_add_subtask personnel idx nm d sv ev acc k ws st g p :
  satisfied st g ->
  (sv < length g)%nat -> (ev < length g)%nat ->
  0 <= d -> Value g ev = Value g sv + d ->
  eligible personnel ws p ->
  exists s st',
    add_subtask personnel idx nm d sv ev acc (k, ws) st = (acc ++ [s], st')
    /\ satisfied st' (g ++ [Z.of_nat p])
    /\ st_start s = sv /\ st_end s = ev /\ st_duration s = d
    /\ st_person s = length g.
Proof.
  intros Hsat Hsv Hev Hd Hend [Hp Hvalid].
  pose proof (satisfied_length _ _ Hsat) as Hlen.
  assert (forall ext,
            holds ((g ++ [Z.of_nat p]) ++ ext)
                  (Interval (mkInterval sv d ev None
                               ("interval" +:+ "_" +:+ pretty idx +:+ "_" +:+ pretty k)))
            = true) as Hinterval.
  { intros ext. cbn. rewrite <- (assoc_L (++)), !Value_app_l by done.
    apply andb_true_intro. split; [lia|]. rewrite Hend. lia. }
  unfold add_subtask, bind, NewIntVar, NewIntervalVar, Add, print, ret. cbn.
  destruct (valid_people_indices personnel ws) as [|i0 rest] eqn:Hv; cbn.
  - eexists _, _. split; [reflexivity|]. rewrite <- Hlen. split; [|done].
    eapply (satisfied_grow st g [_] [_]); [done|reflexivity|reflexivity| |].
    + cbn. unfold in_domain. cbn. rewrite !andb_true_iff. repeat split; lia.
    + intros ext. cbn [forallb]. by rewrite Hinterval.
  - eexists _, _. split; [reflexivity|]. rewrite <- Hlen. split; [|done].
    eapply (satisfied_grow st g [_] [_; _]); [done|reflexivity| | |].
    + cbn. by rewrite <- (assoc_L (++)).
    + cbn. unfold in_domain. cbn. rewrite !andb_true_iff. repeat split; lia.
    + intros ext. cbn [forallb]. rewrite Hinterval. rewrite !andb_true_iff.
      split; [|done]. cbn [holds]. rewrite <- (assoc_L (++)). cbn [app].
      rewrite Value_app_length. apply existsb_exists. exists (Z.of_nat p).
      split; [|lia]. apply list_elem_of_In.
      change (Z.of_nat p ∈ Z.of_nat <$> (i0 :: rest)). apply list_elem_of_fmap_2.
      by apply Hvalid.
Qed.
Lemma planned_mono g clock clock' s :
  clock <= clock' -> planned g clock s -> planned g clock' s.
Proof. intros Hle [H0 H1 H2 H3 H4]. split; [done..|lia]. Qed.

(** The inner loop of part 1, for one scenario that starts at [clock]:
    [used] are the persons its earlier sub-tasks took. *)
Lemma satisfied_add_subtask_loop personnel idx nm d sv ev clock :
  forall wss ps, Forall2 (eligible personnel) wss ps ->
  forall k0 acc (used : list nat) st g,
    satisfied st g ->
    (sv < length g)%nat -> (ev < length g)%nat ->
    0 <= d -> 0 <= clock ->
    Value g sv = clock -> Value g ev = clock + d ->
    (0 < d -> NoDup ps /\ forall p, p ∈ ps -> p ∉ used) ->
    Forall (planned g (clock + d)) acc ->
    ForallOrdPairs (apart g) acc ->
    Forall (fun a => Value g (st_end a) <= clock
                     \/ (0 < d /\ Value g (st_person a) ∈ (Z.of_nat <$> used))) acc ->
    exists news st' g',
      for_fold (add_subtask personnel idx nm d sv ev) acc (enumerate_from k0 wss) st
        = (acc ++ news, st')
      /\ satisfied st' g'
      /\ Forall (planned g' (clock + d)) (acc ++ news)
      /\ ForallOrdPairs (apart g') (acc ++ news).
Proof.
  induction 1 as [|ws p wss ps Hel Hrest IH];
    intros k0 acc used st g Hsat Hsv Hev Hd Hclock Hstart Hend Hfresh Hpl Hap Hinv.
  - exists [], st, g. rewrite app_nil_r. done.
  - destruct (satisfied_add_subtask personnel idx nm d sv ev acc k0 ws st g p)
      as (s & st1 & Hrun & Hsat1 & Hs1 & Hs2 & Hs3 & Hs4); [done..|lia|done|].
    cbn [enumerate_from for_fold]. unfold bind. rewrite Hrun.
    assert (Value (g ++ [Z.of_nat p]) (st_person s) = Z.of_nat p) as Hperson.
    { rewrite Hs4. apply Value_app_length. }
    assert (planned (g ++ [Z.of_nat p]) (clock + d) s) as Hpls.
    { split.
      - unfold scoped_subtask. rewrite Hs1, Hs2, Hs4, length_app. cbn. lia.
      - rewrite Hs1, Value_app_l by done. lia.
      - lia.
      - rewrite Hs1, Hs2, Hs3, !Value_app_l by done. lia.
      - rewrite Hs2, Value_app_l by done. lia. }
    destruct (IH (S k0) (acc ++ [s]) (p :: used) st1 (g ++ [Z.of_nat p]))
      as (news & st' & g' & Hrun' & Hsat' & Hpl' & Hap').
    + done.
    + rewrite length_app. lia.
    + rewrite length_app. lia.
    + done.
    + done.
    + by rewrite Value_app_l.
    + by rewrite Value_app_l.
    + intros Hpos. destruct (Hfresh Hpos) as [Hnd Hnew].
      apply NoDup_cons in Hnd as [Hp Hnd]. split; [done|].
      intros q Hq [->|Hq']%elem_of_cons; [done|].
      apply (Hnew q); [by right|done].
    + apply Forall_app. split; [|by constructor].
      eapply Forall_impl; [exact Hpl|]. intros a Ha. by apply (planned_ext _ _ (clock + d)).
    + apply ForallOrdPairs_snoc; [by apply (apart_all_ext _ _ (clock + d))|].
      apply Forall_forall. intros a Ha.
      pose proof (proj1 (Forall_forall _ _) Hpl a Ha) as [(Hsa & Hea & Hpa) _ _ _ _].
      pose proof (proj1 (Forall_forall _ _) Hinv a Ha) as Hcase. cbn beta in Hcase.
      intros Hsame. rewrite Hperson, Value_app_l in Hsame by done.
      rewrite Hs1, !Value_app_l by done.
      destruct Hcase as [Hle|[Hpos Hin]]; [left; lia|]. exfalso.
      rewrite Hsame in Hin. apply list_elem_of_fmap in Hin as (q & Hq & Hin).
      apply Nat2Z.inj in Hq as <-.
      destruct (Hfresh Hpos) as [_ Hnew]. apply (Hnew p); [by left|done].
    + apply Forall_app. split.
      * apply Forall_forall. intros a Ha.
        pose proof (proj1 (Forall_forall _ _) Hpl a Ha) as [(Hsa & Hea & Hpa) _ _ _ _].
        pose proof (proj1 (Forall_forall _ _) Hinv a Ha) as Hcase. cbn beta in Hcase.
        rewrite !Value_app_l by done.
        destruct Hcase as [Hle|[Hpos Hin]]; [by left|right]. split; [done|].
        rewrite fmap_cons. by right.
      * constructor; [|constructor]. rewrite Hperson, Hs2, Value_app_l by done.
        destruct (decide (d = 0)) as [->|Hne]; [left; lia|right].
        split; [lia|]. rewrite fmap_cons. by left.
    + exists (s :: news), st', g'. rewrite <- (assoc_L (++)) in Hrun', Hpl', Hap'.
      done.
Qed.

(** One pass of the outer loop of part 1: the scenario starts at [clock]. *)
Lemma satisfied_add_scenario personnel acc i sc ps st g clock :
  satisfied st g ->
  staffing_plan personnel sc ps ->
  0 <= clock -> clock + duration_hours sc <= horizon ->
  Forall (planned g clock) acc ->
  ForallOrdPairs (apart g) acc ->
  exists news st' g',
    add_scenario personnel acc (i, sc) st = (acc ++ news, st')
    /\ satisfied st' g'
    /\ Forall (planned g' (clock + duration_hours sc)) (acc ++ news)
    /\ ForallOrdPairs (apart g') (acc ++ news).
Proof.
  intros Hsat (Hd & Hel & Hnd) Hclock Hfit Hpl Hap.
  pose proof (satisfied_length _ _ Hsat) as Hlen.
  set (g1 := g ++ [clock; clock + duration_hours sc]).
  set (st1 := (Add (LinearEq (S (length g)) (length g) (duration_hours sc))
                 (NewIntVar earliest_start horizon (scenario_name sc +:+ "_end")
                    (NewIntVar earliest_start horizon (scenario_name sc +:+ "_start")
                       st).2).2).2).
  assert (satisfied st1 g1) as Hsat1.
  { eapply (satisfied_grow st g [_; _] [_]); [done| | | |].
    - subst st1. cbn. by rewrite <- (assoc_L (++)).
    - reflexivity.
    - cbn. unfold in_domain, earliest_start. cbn. rewrite !andb_true_iff.
      repeat split; lia.
    - intros ext. cbn [forallb holds]. rewrite andb_true_iff. split; [|done].
      subst g1. rewrite <- (assoc_L (++)).
      change (g ++ [clock; clock + duration_hours sc] ++ ext)
        with (g ++ clock :: (clock + duration_hours sc) :: ext).
      rewrite Value_app_length.
      change (g ++ clock :: (clock + duration_hours sc) :: ext)
        with (g ++ [clock] ++ (clock + duration_hours sc) :: ext).
      rewrite (assoc_L (++)).
      replace (S (length g)) with (length (g ++ [clock]))
        by (rewrite length_app; cbn; lia).
      rewrite Value_app_length. lia. }
  assert (Value g1 (length g) = clock) as Hstart.
  { subst g1. apply Value_app_length. }
  assert (Value g1 (S (length g)) = clock + duration_hours sc) as Hend.
  { subst g1. change (g ++ [clock; clock + duration_hours sc])
      with (g ++ [clock] ++ [clock + duration_hours sc]).
    rewrite (assoc_L (++)).
    replace (S (length g)) with (length (g ++ [clock]))
      by (rewrite length_app; cbn; lia).
    apply Value_app_length. }
  assert (length g1 = (length g + 2)%nat) as Hlen1.
  { subst g1. rewrite length_app. reflexivity. }
  destruct (satisfied_add_subtask_loop personnel i (scenario_name sc)
              (duration_hours sc) (length g) (S (length g)) clock
              (required_workstreams sc) ps Hel 0%nat acc [] st1 g1)
    as (news & st' & g' & Hrun & Hsat' & Hpl' & Hap'); [done|lia|lia|done..| | | | |].
  - intros Hpos. split; [by apply Hnd|]. intros p _. apply not_elem_of_nil.
  - eapply Forall_impl; [exact Hpl|]. intros a Ha.
    apply (planned_ext _ _ clock); [lia|done].
  - by apply (apart_all_ext _ _ clock).
  - apply Forall_forall. intros a Ha.
    pose proof (proj1 (Forall_forall _ _) Hpl a Ha) as [(Hsa & Hea & Hpa) _ _ _ Hc].
    left. subst g1. by rewrite Value_app_l.
  - exists news, st', g'. split; [|done]. rewrite <- Hrun.
    unfold add_scenario, bind, enumerate. subst st1.
    unfold NewIntVar, Add.
    cbn [fst snd model variables constraints objective stdout].
    rewrite length_app, Nat.add_1_r, Hlen. reflexivity.
Qed.

Lemma staffing_durations_nonneg personnel scs staffing :
  Forall2 (staffing_plan personnel) scs staffing -> 0 <= sum_with duration_hours scs.
Proof.
  induction 1 as [|sc ps scs staffing (Hd & _) _ IH]; [done|].
  rewrite sum_with_cons. lia.
Qed.

(** The whole of part 1: the scenarios one after the other from [clock]. *)
Lemma satisfied_add_scenario_loop personnel :
  forall scs staffing, Forall2 (staffing_plan personnel) scs staffing ->
  forall i0 acc st g clock,
    satisfied st g -> 0 <= clock ->
    clock + sum_with duration_hours scs <= horizon ->
    Forall (planned g clock) acc ->
    ForallOrdPairs (apart g) acc ->
    exists news st' g',
      for_fold (add_scenario personnel) acc (enumerate_from i0 scs) st
        = (acc ++ news, st')
      /\ satisfied st' g'
      /\ Forall (planned g' (clock + sum_with duration_hours scs)) (acc ++ news)
      /\ ForallOrdPairs (apart g') (acc ++ news).
Proof.
  induction 1 as [|sc ps scs staffing Hplan Hrest IH];
    intros i0 acc st g clock Hsat Hclock Hfit Hpl Hap.
  - exists [], st, g. rewrite app_nil_r. split; [done|]. split; [done|].
    split; [|done]. eapply Forall_impl; [exact Hpl|]. intros a.
    apply planned_mono. cbn. lia.
  - pose proof (staffing_durations_nonneg _ _ _ Hrest) as Hnn.
    pose proof Hplan as (Hd & _).
    rewrite sum_with_cons in Hfit |- *.
    destruct (satisfied_add_scenario personnel acc i0 sc ps st g clock)
      as (news1 & st1 & g1 & Hrun1 & Hsat1 & Hpl1 & Hap1); [done..|lia|done|done|].
    destruct (IH (S i0) (acc ++ news1) st1 g1 (clock + duration_hours sc))
      as (news2 & st2 & g2 & Hrun2 & Hsat2 & Hpl2 & Hap2); [done|lia|lia|done|done|].
    exists (news1 ++ news2), st2, g2.
    cbn [enumerate_from for_fold]. unfold bind. rewrite Hrun1, Hrun2.
    rewrite <- !(assoc_L (++)) in *. rewrite (Z.add_assoc clock). done.
Qed.
Lemma satisfied_Add st g c :
  satisfied st g -> (forall ext, holds (g ++ ext) c = true) ->
  satisfied (Add c st).2 g.
Proof.
  intros [Hdom Hall] Hc. split; [done|]. intros ext. unfold Add.
  cbn [snd model constraints]. rewrite forallb_app, Hall. cbn [forallb].
  by rewrite (Hc ext).
Qed.

(** Part 2, one indicator: it is set exactly when the sub-task has the
    person. *)
Lemma satisfied_link_person s pti p st g clock :
  satisfied st g -> planned g clock s ->
  exists pti' st' b,
    link_person s pti p st = (pti', st') /\ satisfied st' (g ++ [b]).
Proof.
  intros Hsat [(Hs & He & Hp) H1 H2 H3 H4].
  pose proof (satisfied_length _ _ Hsat) as Hlen.
  set (b := if decide (Value g (st_person s) = Z.of_nat p) then 1 else 0).
  eexists _, _, b. split; [reflexivity|].
  eapply (satisfied_grow st g [_] [_; _; _]); [done|reflexivity| | |].
  - cbn. by rewrite <- !(assoc_L (++)).
  - cbn. unfold in_domain. cbn. subst b. by destruct (decide _).
  - intros ext. rewrite <- Hlen. cbn [forallb holds lit_true is_present iv_is_present
      iv_size iv_start iv_end]. rewrite <- (assoc_L (++)). cbn [app].
    rewrite Value_app_length, !Value_app_l by done.
    subst b. destruct (decide (Value g (st_person s) = Z.of_nat p)) as [Heq|Hne].
    + cbn. rewrite !andb_true_iff. repeat split; lia.
    + cbn. rewrite andb_true_iff, negb_true_iff. split; [lia|done].
Qed.

Lemma satisfied_link_person_loop s clock : forall n a pti st g,
  satisfied st g -> planned g clock s ->
  exists pti' st' new,
    for_fold (link_person s) pti (seq a n) st = (pti', st')
    /\ satisfied st' (g ++ new).
Proof.
  induction n as [|n IH]; intros a pti st g Hsat Hpl.
  - exists pti, st, []. by rewrite app_nil_r.
  - destruct (satisfied_link_person s pti a st g clock Hsat Hpl)
      as (pti1 & st1 & b & Hrun1 & Hsat1).
    destruct (IH (S a) pti1 st1 (g ++ [b]) Hsat1) as (pti2 & st2 & new & Hrun2 & Hsat2).
    { by apply (planned_ext _ _ clock). }
    exists pti2, st2, ([b] ++ new). cbn [seq for_fold]. unfold bind.
    rewrite Hrun1, Hrun2. by rewrite (assoc_L (++)).
Qed.

Lemma satisfied_link_subtask_loop personnel clock : forall subs pti st g,
  satisfied st g -> Forall (planned g clock) subs ->
  exists pti' st' new,
    for_fold (link_subtask personnel) pti subs st = (pti', st')
    /\ satisfied st' (g ++ new).
Proof.
  induction subs as [|s subs IH]; intros pti st g Hsat Hpl.
  - exists pti, st, []. by rewrite app_nil_r.
  - apply Forall_cons in Hpl as [Hs Hpl].
    destruct (satisfied_link_person_loop s clock (length personnel) 0 pti st g Hsat Hs)
      as (pti1 & st1 & new1 & Hrun1 & Hsat1).
    destruct (IH pti1 st1 (g ++ new1) Hsat1) as (pti2 & st2 & new2 & Hrun2 & Hsat2).
    { eapply Forall_impl; [exact Hpl|]. intros a. by apply (planned_ext _ _ clock). }
    exists pti2, st2, (new1 ++ new2). cbn [for_fold]. unfold bind, link_subtask at 1.
    rewrite Hrun1, Hrun2. by rewrite (assoc_L (++)).
Qed.

(** Two optional intervals of one person's list do not overlap under the
    hand-built values. *)
Lemma linked_disjoint st g clock p a b iva ivb ext :
  satisfied st g ->
  linked (model st) a p iva -> linked (model st) b p ivb ->
  planned g clock a -> planned g clock b -> apart g a b ->
  disjoint (g ++ ext) iva ivb = true.
Proof.
  intros Hsat (ba & bna & nma & -> & _ & Heqa & _) (bb & bnb & nmb & -> & _ & Heqb & _)
    [(Hsa & Hea & Hpa) _ _ _ _] [(Hsb & Heb & Hpb) _ _ _ _] Hapart.
  pose proof (satisfied_holds _ _ _ ext Hsat Heqa) as Ha.
  pose proof (satisfied_holds _ _ _ ext Hsat Heqb) as Hb.
  unfold disjoint, is_present. cbn [iv_is_present iv_start iv_end holds] in *.
  rewrite !Value_app_l in * by done.
  destruct (lit_true (g ++ ext) (Lit ba)); [|done].
  destruct (lit_true (g ++ ext) (Lit bb)); [|done].
  cbn in Ha, Hb |- *. destruct Hapart as [Hle|Hle]; [lia| |].
  - rewrite orb_true_iff. left. lia.
  - rewrite orb_true_iff. right. lia.
Qed.

Lemma linked_no_overlap st g clock p ext : forall subs ivs,
  satisfied st g ->
  Forall2 (fun s iv => linked (model st) s p iv) subs ivs ->
  Forall (planned g clock) subs ->
  ForallOrdPairs (apart g) subs ->
  no_overlap (g ++ ext) ivs = true.
Proof.
  intros subs ivs Hsat Hlinked. induction Hlinked as [|s iv subs ivs Hs Hrest IH];
    intros Hpl Hap; [done|].
  apply Forall_cons in Hpl as [Hps Hpl]. inversion Hap as [|s' subs' Hsa Hap']; subst.
  cbn [no_overlap]. rewrite (IH Hpl Hap'), andb_true_r.
  clear IH Hap Hap'. induction Hrest as [|s2 iv2 subs ivs Hs2 Hrest IH]; [done|].
  apply Forall_cons in Hpl as [Hps2 Hpl]. apply Forall_cons in Hsa as [Ha Hsa].
  cbn [forallb]. rewrite (IH Hpl Hsa), andb_true_r.
  by apply (linked_disjoint st g clock p s s2).
Qed.

Lemma satisfied_add_no_overlap : forall pti st g,
  satisfied st g ->
  (forall ivs, ivs ∈ pti -> forall ext, no_overlap (g ++ ext) ivs = true) ->
  satisfied (for_fold add_no_overlap tt pti st).2 g.
Proof.
  induction pti as [|ivs pti IH]; intros st g Hsat Hall; [done|].
  cbn [for_fold]. unfold bind, add_no_overlap at 1.
  destruct (Add (NoOverlap ivs) st) as [[] st1] eqn:Hadd.
  apply IH.
  - change st1 with (tt, st1).2. rewrite <- Hadd. apply satisfied_Add; [done|].
    intros ext. cbn [holds]. apply Hall. by left.
  - intros ivs' Hin. apply Hall. by right.
Qed.

(** Part 3: the makespan is the largest end. *)
Lemma satisfied_minimize_makespan subs st g clock s0 rest :
  satisfied st g ->
  subs = s0 :: rest ->
  Forall (planned g clock) subs ->
  clock <= horizon ->
  exists mx st' M,
    minimize_makespan subs st = (mx, st')
    /\ satisfied st' (g ++ [M])
    /\ objective (model st') = Some mx
    /\ Value (g ++ [M]) mx = M
    /\ M <= clock.
Proof.
  intros Hsat Hsubs Hpl Hclock.
  pose proof (satisfied_length _ _ Hsat) as Hlen.
  assert (forall v, v ∈ all_end_vars subs ->
            (v < length g)%nat /\ 0 <= Value g v <= clock) as Hends.
  { intros v Hv. unfold all_end_vars in Hv. rewrite elem_of_remove_dups in Hv.
    apply list_elem_of_fmap in Hv as (s & -> & Hs).
    destruct (proj1 (Forall_forall _ _) Hpl s Hs) as [(_ & He & _) H1 H2 H3 H4].
    split; [done|]. lia. }
  destruct (all_end_vars subs) as [|e es] eqn:Hall.
  { exfalso. assert (st_end s0 ∈ all_end_vars subs) as Hin.
    { unfold all_end_vars. rewrite elem_of_remove_dups. apply list_elem_of_fmap_2.
      rewrite Hsubs. by left. }
    rewrite Hall in Hin. by apply elem_of_nil in Hin. }
  set (M := max_list (Value g e) (map (Value g) es)).
  assert (exists v, v ∈ e :: es /\ M = Value g v) as (v & Hv & HM).
  { pose proof (max_list_elem (Value g e) (map (Value g) es)) as Hin.
    fold M in Hin. apply elem_of_cons in Hin as [Hin|Hin]; [exists e; split; [by left|done]|].
    apply list_elem_of_fmap in Hin as (v & -> & Hv). exists v. split; [by right|done]. }
  destruct (Hends v Hv) as [_ HMr].
  exists (length g), (minimize_makespan subs st).2, M.
  split; [by rewrite Hlen|]. split; [|split; [by rewrite Hlen|split]].
  - eapply (satisfied_grow st g [_] [_]); [done|reflexivity|reflexivity| |].
    + cbn. unfold in_domain. cbn. rewrite !andb_true_iff. repeat split; lia.
    + intros ext. rewrite Hall. cbn [forallb holds]. rewrite andb_true_r, <- Hlen.
      rewrite <- (assoc_L (++)). cbn [app]. rewrite Value_app_length.
      rewrite (Value_app_l g _ e) by (apply Hends; by left).
      replace (map (Value (g ++ M :: ext)) es) with (map (Value g) es); [fold M; lia|].
      apply Forall_fmap_ext_1, Forall_forall. intros w Hw.
      symmetry. apply Value_app_l, Hends. by right.
  - apply Value_app_length.
  - lia.
Qed.

(** A staffing plan whose total duration fits the horizon gives a solution
    of the model. *)
Lemma staffing_plan_solution scenarios personnel staffing :
  Forall2 (staffing_plan personnel) scenarios staffing ->
  sum_with duration_hours scenarios <= horizon ->
  (exists sc, sc ∈ scenarios /\ required_workstreams sc <> []) ->
  exists sol,
    is_solution (built_model scenarios personnel) sol = true
    /\ objective_of (built_model scenarios personnel) sol
       <= sum_with duration_hours scenarios.
Proof.
  intros Hplan Hfit (sc0 & Hsc0 & Hne).
  assert (satisfied initial_state []) as Hsat0 by (split; [done|by intros ext]).
  destruct (satisfied_add_scenario_loop personnel scenarios staffing Hplan 0 []
              initial_state [] 0 Hsat0) as (subs & st1 & g1 & Hrun1 & Hsat1 & Hpl1 & Hap1);
    [lia|lia|constructor|constructor|].
  cbn [app] in Hrun1, Hpl1, Hap1. rewrite Z.add_0_l in Hpl1.
  set (clock := sum_with duration_hours scenarios) in *.
  destruct (satisfied_link_subtask_loop personnel clock subs
              (map (fun _ => []) personnel) st1 g1 Hsat1 Hpl1)
    as (pti & st2 & new2 & Hrun2 & Hsat2).
  destruct (link_subtask_loop personnel subs (map (fun _ => []) personnel) st1)
    as (pti' & st2' & Hrun2' & _ & _ & Hlen & Hlinked); [by rewrite length_map|].
  rewrite Hrun2 in Hrun2'. injection Hrun2' as <- <-.
  assert (Forall (planned (g1 ++ new2) clock) subs) as Hpl2.
  { eapply Forall_impl; [exact Hpl1|]. intros a. by apply (planned_ext _ _ clock). }
  pose proof (apart_all_ext _ new2 _ _ Hpl1 Hap1) as Hap2.
  assert (satisfied (for_fold add_no_overlap tt pti st2).2 (g1 ++ new2)) as Hsat3.
  { apply satisfied_add_no_overlap; [done|]. intros ivs Hin ext.
    apply list_elem_of_lookup in Hin as (p & Hp).
    pose proof (lookup_lt_Some _ _ _ Hp) as Hlt. rewrite Hlen in Hlt.
    destruct (Hlinked p []) as (new & Hnew & Hl).
    { rewrite list_lookup_fmap. by destruct (lookup_lt_is_Some_2 personnel p Hlt) as [? ->]. }
    rewrite Hp in Hnew. injection Hnew as ->.
    by apply (linked_no_overlap st2 _ clock p ext subs). }
  assert (exists s0 rest, subs = s0 :: rest) as (s0 & rest & Hsubs).
  { pose proof (create_subtasks_length scenarios personnel initial_state) as Hcount.
    unfold create_subtasks, enumerate in Hcount. rewrite Hrun1 in Hcount.
    cbn [fst] in Hcount. destruct subs as [|s0 rest]; [|by eauto]. exfalso.
    apply Hne. apply list_elem_of_lookup in Hsc0 as (i & Hi).
    unfold subtask_count in Hcount. clear -Hcount Hi.
    revert i Hi. induction scenarios as [|sc scs IH]; intros i Hi; [done|].
    cbn [sum_list_with length] in Hcount. destruct i as [|i]; cbn in Hi.
    - injection Hi as ->. destruct (required_workstreams sc0); [done|cbn in Hcount; lia].
    - apply (IH ltac:(cbn [length] in *; lia) i Hi). }
  destruct (satisfied_minimize_makespan subs (for_fold add_no_overlap tt pti st2).2
              (g1 ++ new2) clock s0 rest Hsat3 Hsubs Hpl2 Hfit)
    as (mx & st4 & M & Hrun4 & Hsat4 & Hobj & HM & HMle).
  exists ((g1 ++ new2) ++ [M]).
  assert (built_model scenarios personnel = model st4) as ->.
  { unfold built_model, build, bind, create_subtasks, enumerate, no_double_booking.
    rewrite Hrun1. unfold bind. rewrite Hrun2.
    destruct (for_fold add_no_overlap tt pti st2) as [[] st3] eqn:Hrun3.
    cbn [snd] in Hrun4. by rewrite Hrun4. }
  destruct Hsat4 as [Hdom Hall]. split.
  - unfold is_solution. rewrite Hdom. specialize (Hall []).
    by rewrite app_nil_r in Hall.
  - unfold objective_of. rewrite Hobj, HM. done.
Qed.

(** With a solution at hand, a solver that obeys its contract and runs to
    the end returns a schedule at least as short. *)
Lemma solution_gives_schedule `{DateTimeLib} Solve scenarios personnel d start_date
    sol bound :
  strptime d = Some start_date ->
  SolverContract (built_model scenarios personnel)
    (Solve (built_model scenarios personnel)) ->
  search_completed (Solve (built_model scenarios personnel)) ->
  is_solution (built_model scenarios personnel) sol = true ->
  objective_of (built_model scenarios personnel) sol <= bound ->
  exists row rows days,
    returned (find_optimal_schedule Solve scenarios personnel d)
    = inr (row :: rows, Some days)
    /\ (days <= days_of_hours bound)%Q.
Proof.
  intros Hd [Hsound Hopt Hinf] Hdone Hsol Hobj.
  destruct Hdone as [Hst|Hst]; [|by rewrite (Hinf Hst sol) in Hsol].
  assert (solved (Solve (built_model scenarios personnel)) = true) as Hsolved.
  { unfold solved. by rewrite Hst. }
  destruct (solved_call _ _ _ _ _ Hd Hsound Hsolved) as (row & rows & Hcall).
  exists row, rows. eexists. rewrite Hcall. split; [reflexivity|].
  apply days_of_hours_le. specialize (Hopt Hst sol Hsol). lia.
Qed.

(** With pairwise different names, a person's index is eligible for the
    person's own workstream only. *)
Lemma first_valid_index personnel ws :
  (exists p, p ∈ personnel /\ workstream p = ws) ->
  exists idx rest, valid_people_indices personnel ws = idx :: rest
                   /\ eligible personnel ws idx.
Proof.
  intros (p & Hp & Hws).
  destruct (valid_people_indices personnel ws) as [|idx rest] eqn:Hv.
  { by destruct (proj1 (valid_people_indices_nil _ _) Hv p Hp). }
  exists idx, rest. split; [done|]. split; [|intros _; rewrite Hv; by left].
  assert (idx ∈ valid_people_indices personnel ws) as Hin by (rewrite Hv; left).
  apply valid_people_indices_elem in Hin as (q & _ & _ & Hmap).
  apply people_map_lookup in Hmap as [(q' & Hq' & _) _].
  by eapply lookup_lt_Some.
Qed.

Lemma valid_index_workstream personnel ws idx :
  NoDup (map name personnel) ->
  idx ∈ valid_people_indices personnel ws ->
  exists p, personnel !! idx = Some p /\ workstream p = ws.
Proof.
  intros Hnd Hin. apply valid_people_indices_elem in Hin as (q & Hq & Hws & Hmap).
  apply people_map_lookup in Hmap as [(q' & Hq' & Hn) _].
  apply list_elem_of_lookup in Hq as (j & Hj).
  pose proof (distinct_names_same_person _ _ _ _ _ Hnd Hq' Hj Hn) as ->.
  by eauto.
Qed.

(** Pairwise different, staffed workstreams can be staffed with pairwise
    different persons. *)
Lemma distinct_workstreams_staffing personnel sc :
  NoDup (map name personnel) ->
  0 <= duration_hours sc ->
  NoDup (required_workstreams sc) ->
  (forall ws, ws ∈ required_workstreams sc ->
     exists p, p ∈ personnel /\ workstream p = ws) ->
  exists ps, staffing_plan personnel sc ps.
Proof.
  intros Hnames Hd Hnd Hstaffed.
  exists ((fun ws => hd 0%nat (valid_people_indices personnel ws))
            <$> required_workstreams sc).
  split; [done|]. split.
  - apply Forall2_fmap_r, Forall_Forall2_diag, Forall_forall. intros ws Hws.
    destruct (first_valid_index personnel ws (Hstaffed ws Hws)) as (idx & rest & Hv & Hel).
    unfold compose. rewrite Hv. exact Hel.
  - intros _. apply NoDup_fmap_2_strong; [|done]. intros ws1 ws2 Hws1 Hws2 Heq.
    destruct (first_valid_index personnel ws1 (Hstaffed ws1 Hws1))
      as (i1 & r1 & Hv1 & _).
    destruct (first_valid_index personnel ws2 (Hstaffed ws2 Hws2))
      as (i2 & r2 & Hv2 & _).
    rewrite Hv1, Hv2 in Heq. cbn in Heq. subst i2.
    destruct (valid_index_workstream personnel ws1 i1 Hnames) as (p1 & Hp1 & <-).
    { rewrite Hv1. by left. }
    destruct (valid_index_workstream personnel ws2 i1 Hnames) as (p2 & Hp2 & <-).
    { rewrite Hv2. by left. }
    rewrite Hp1 in Hp2. by injection Hp2 as ->.
Qed.

Lemma distinct_workstreams_staffing_all personnel : forall scenarios,
  NoDup (map name personnel) ->
  (forall sc, sc ∈ scenarios ->
     0 <= duration_hours sc
     /\ NoDup (required_workstreams sc)
     /\ forall ws, ws ∈ required_workstreams sc ->
          exists p, p ∈ personnel /\ workstream p = ws) ->
  exists staffing, Forall2 (staffing_plan personnel) scenarios staffing.
Proof.
  induction scenarios as [|sc scs IH]; intros Hnames Hall.
  - exists []. constructor.
  - destruct (Hall sc) as (Hd & Hnd & Hst); [by left|].
    destruct (distinct_workstreams_staffing personnel sc Hnames Hd Hnd Hst) as [ps Hps].
    destruct (IH Hnames) as [staffing Hstaffing].
    { intros sc' Hsc'. apply Hall. by right. }
    exists (ps :: staffing). by constructor.
Qed.

(** ** The claims about every returned schedule *)

(** C6.  In every returned schedule, all sub-tasks of a scenario have the
    same solved start and the same solved end, and end minus start is the
    scenario's duration in hours. *)
Theorem scenario_subtasks_share_interval `{DateTimeLib} Solve scenarios personnel
    d df days i sc :
  response_sound (built_model scenarios personnel)
    (Solve (built_model scenarios personnel)) = true ->
  returned (find_optimal_schedule Solve scenarios personnel d) = inr (df, Some days) ->
  scenarios !! i = Some sc ->
  exists start_hour end_hour,
    end_hour - start_hour = duration_hours sc
    /\ forall k ws, required_workstreams sc !! k = Some ws ->
         exists s,
           built_subtasks scenarios personnel !! subtask_index scenarios i k = Some s
           /\ st_scenario_name s = scenario_name sc
           /\ st_workstream s = ws
           /\ st_duration s = duration_hours sc
           /\ Value (solved_values Solve scenarios personnel) (st_start s) = start_hour
           /\ Value (solved_values Solve scenarios personnel) (st_end s) = end_hour.
Proof.
  intros Hsound Hret Hi.
  pose proof (returned_schedule_solution _ _ _ _ _ _ Hsound Hret) as Hsol.
  pose proof (build_spec scenarios personnel) as Hb.
  exists (Value (solved_values Solve scenarios personnel) (scenario_start_var scenarios i)),
         (Value (solved_values Solve scenarios personnel) (scenario_end_var scenarios i)).
  split.
  - rewrite (scenario_end_value _ _ _ _ _ _ _ Hb Hsol Hi). lia.
  - intros k ws Hk.
    destruct (sp_subtasks _ _ _ _ _ _ (bf_scenarios _ _ _ _ Hb i sc Hi) k ws Hk)
      as (s & Hs & Hp).
    exists s. destruct Hp as [Hn Hw Hd Hst He _ _ _ _].
    rewrite Hst, He. auto 10.
Qed.

Lemma scenario_subtasks_share_interval_witness :
  exists start_hour end_hour,
    end_hour - start_hour = 12
    /\ forall k ws, ["Finance"; "Logistics"; "IT"] !! k = Some ws ->
         exists s,
           built_subtasks default_scenario_data default_personnel_data
             !! subtask_index default_scenario_data 0 k = Some s
           /\ st_scenario_name s = "P2P End-to-End"
           /\ st_workstream s = ws
           /\ st_duration s = 12
           /\ Value default_solution (st_start s) = start_hour
           /\ Value default_solution (st_end s) = end_hour.
Proof.
  apply (@scenario_subtasks_share_interval offset_clock (fun _ => default_response)
           default_scenario_data default_personnel_data "2024-01-01"
           [mkRow "P2P End-to-End" 12 "2024-01-01 +0h" "2024-01-01 +12h"
                  "Alice, Bob, Charlie" "Finance, IT, Logistics";
            mkRow "Invoice Posting" 6 "2024-01-01 +12h" "2024-01-01 +18h"
                  "Alice" "Finance"]
           (18 # 24) 0%nat
           (mkScenario "P2P End-to-End" 12 ["Finance"; "Logistics"; "IT"])).
  - vm_compute. reflexivity.
  - vm_compute. reflexivity.
  - reflexivity.
Defined.

(** C7.  In every returned schedule, two different sub-tasks whose solved
    person is the same have intervals that do not overlap: one ends
    before the other starts. *)
Theorem same_person_never_double_booked `{DateTimeLib} Solve scenarios personnel
    d df days t1 t2 s1 s2 :
  response_sound (built_model scenarios personnel)
    (Solve (built_model scenarios personnel)) = true ->
  returned (find_optimal_schedule Solve scenarios personnel d) = inr (df, Some days) ->
  t1 <> t2 ->
  built_subtasks scenarios personnel !! t1 = Some s1 ->
  built_subtasks scenarios personnel !! t2 = Some s2 ->
  Value (solved_values Solve scenarios personnel) (st_person s1)
    = Value (solved_values Solve scenarios personnel) (st_person s2) ->
  Value (solved_values Solve scenarios personnel) (st_end s1)
    <= Value (solved_values Solve scenarios personnel) (st_start s2)
  \/ Value (solved_values Solve scenarios personnel) (st_end s2)
    <= Value (solved_values Solve scenarios personnel) (st_start s1).
Proof.
  intros Hsound Hret Hne H1 H2 Hsame.
  pose proof (returned_schedule_solution _ _ _ _ _ _ Hsound Hret) as Hsol.
  exact (same_person_disjoint _ _ _ _ _ _ _ _ _ (build_spec scenarios personnel)
           Hsol Hne H1 H2 Hsame).
Qed.

Lemma same_person_never_double_booked_witness :
  Value default_solution 1%nat <= Value default_solution 5%nat
  \/ Value default_solution 6%nat <= Value default_solution 0%nat.
Proof.
  apply (@same_person_never_double_booked offset_clock (fun _ => default_response)
           default_scenario_data default_personnel_data "2024-01-01"
           [mkRow "P2P End-to-End" 12 "2024-01-01 +0h" "2024-01-01 +12h"
                  "Alice, Bob, Charlie" "Finance, IT, Logistics";
            mkRow "Invoice Posting" 6 "2024-01-01 +12h" "2024-01-01 +18h"
                  "Alice" "Finance"]
           (18 # 24) 0%nat 3%nat
           (mkSubtask "P2P End-to-End" "Finance" 12 0%nat 1%nat 2%nat
              (mkInterval 0%nat 12 1%nat None "interval_0_0"))
           (mkSubtask "Invoice Posting" "Finance" 6 5%nat 6%nat 7%nat
              (mkInterval 5%nat 6 6%nat None "interval_1_0"))).
  - vm_compute. reflexivity.
  - vm_compute. reflexivity.
  - lia.
  - vm_compute. reflexivity.
  - vm_compute. reflexivity.
  - vm_compute. reflexivity.
Defined.

(** C8.  In every returned schedule, the sub-tasks of one scenario of
    positive duration are staffed by pairwise different persons; in
    particular each occurrence of a workstream listed more than once gets a
    different person, all of them occupied over the same interval. *)
Theorem scenario_persons_pairwise_distinct `{DateTimeLib} Solve scenarios personnel
    d df days i sc k1 k2 ws1 ws2 :
  response_sound (built_model scenarios personnel)
    (Solve (built_model scenarios personnel)) = true ->
  returned (find_optimal_schedule Solve scenarios personnel d) = inr (df, Some days) ->
  scenarios !! i = Some sc ->
  0 < duration_hours sc ->
  k1 <> k2 ->
  required_workstreams sc !! k1 = Some ws1 ->
  required_workstreams sc !! k2 = Some ws2 ->
  exists s1 s2,
    built_subtasks scenarios personnel !! subtask_index scenarios i k1 = Some s1
    /\ built_subtasks scenarios personnel !! subtask_index scenarios i k2 = Some s2
    /\ st_workstream s1 = ws1 /\ st_workstream s2 = ws2
    /\ Value (solved_values Solve scenarios personnel) (st_start s1)
       = Value (solved_values Solve scenarios personnel) (st_start s2)
    /\ Value (solved_values Solve scenarios personnel) (st_end s1)
       = Value (solved_values Solve scenarios personnel) (st_end s2)
    /\ Value (solved_values Solve scenarios personnel) (st_person s1)
       <> Value (solved_values Solve scenarios personnel) (st_person s2).
Proof.
  intros Hsound Hret Hi Hpos Hne Hk1 Hk2.
  pose proof (returned_schedule_solution _ _ _ _ _ _ Hsound Hret) as Hsol.
  pose proof (build_spec scenarios personnel) as Hb.
  pose proof (bf_scenarios _ _ _ _ Hb i sc Hi) as Hsc.
  destruct (sp_subtasks _ _ _ _ _ _ Hsc k1 ws1 Hk1) as (s1 & Hs1 & Hp1).
  destruct (sp_subtasks _ _ _ _ _ _ Hsc k2 ws2 Hk2) as (s2 & Hs2 & Hp2).
  exists s1, s2.
  destruct Hp1 as [_ Hw1 _ Hst1 He1 _ _ _ _]. destruct Hp2 as [_ Hw2 _ Hst2 He2 _ _ _ _].
  split; [exact Hs1|]. split; [exact Hs2|]. split; [exact Hw1|]. split; [exact Hw2|].
  split; [congruence|]. split; [congruence|].
  intros Hsame.
  pose proof (scenario_end_value _ _ _ _ _ _ _ Hb Hsol Hi) as Hend.
  unfold scenario_end_var in Hend.
  assert (Hidx : (subtask_count (take i scenarios) + k1)%nat
                 <> (subtask_count (take i scenarios) + k2)%nat) by lia.
  destruct (same_person_disjoint _ _ _ _ _ _ _ _ _ Hb Hsol Hidx Hs1 Hs2 Hsame) as [Hle|Hle];
    rewrite ?Hst1, ?Hst2, ?He1, ?He2 in Hle; lia.
Qed.

Lemma scenario_persons_pairwise_distinct_witness :
  exists s1 s2,
    built_subtasks month_end_close finance_pair !! subtask_index month_end_close 0 0
      = Some s1
    /\ built_subtasks month_end_close finance_pair !! subtask_index month_end_close 0 1
      = Some s2
    /\ st_workstream s1 = "Finance" /\ st_workstream s2 = "Finance"
    /\ Value (solution month_end_response) (st_start s1)
       = Value (solution month_end_response) (st_start s2)
    /\ Value (solution month_end_response) (st_end s1)
       = Value (solution month_end_response) (st_end s2)
    /\ Value (solution month_end_response) (st_person s1)
       <> Value (solution month_end_response) (st_person s2).
Proof.
  apply (@scenario_persons_pairwise_distinct offset_clock (fun _ => month_end_response)
           month_end_close finance_pair "2024-01-31"
           [mkRow "Month-End Close" 4 "2024-01-31 +0h" "2024-01-31 +4h"
                  "Alice, Dana" "Finance, Finance"]
           (4 # 24) 0%nat
           (mkScenario "Month-End Close" 4 ["Finance"; "Finance"]) 0%nat 1%nat
           "Finance" "Finance").
  - vm_compute. reflexivity.
  - vm_compute. reflexivity.
  - reflexivity.
  - reflexivity.
  - lia.
  - reflexivity.
  - reflexivity.
Defined.


(** C5, as the code has it.  For every solved instance, [total_days * 24]
    is the largest solved end among the scenarios that have at least one
    required workstream (the scenarios with sub-tasks). *)
Theorem total_days_is_makespan_of_staffed_scenarios `{DateTimeLib} Solve scenarios
    personnel d df days :
  response_sound (built_model scenarios personnel)
    (Solve (built_model scenarios personnel)) = true ->
  returned (find_optimal_schedule Solve scenarios personnel d) = inr (df, Some days) ->
  (exists i sc,
      scenarios !! i = Some sc /\ required_workstreams sc <> []
      /\ (days * inject_Z 24
          == inject_Z (Value (solved_values Solve scenarios personnel)
                             (scenario_end_var scenarios i)))%Q)
  /\ (forall i sc,
        scenarios !! i = Some sc -> required_workstreams sc <> [] ->
        (inject_Z (Value (solved_values Solve scenarios personnel)
                         (scenario_end_var scenarios i))
         <= days * inject_Z 24)%Q).
Proof.
  intros Hsound Hret.
  destruct (returned_schedule _ _ _ _ _ _ Hret) as (Hsolved & -> & _).
  destruct (solved_is_solution _ _ Hsound Hsolved) as [Hsol Hobj].
  fold (solved_values Solve scenarios personnel) in Hsol, Hobj.
  pose proof (build_spec scenarios personnel) as Hb.
  rewrite Hobj. split.
  - destruct (proj2 (makespan_is_max_end _ _ _ _ _ Hb Hsol)) as (t & s & Hs & Hend).
    destruct (build_facts_subtask _ _ _ _ _ _ Hb Hs) as (i & sc & k & ws & Hi & Hk & _ & Hp).
    exists i, sc. split; [exact Hi|]. split.
    + intros Hnil. by rewrite Hnil in Hk.
    + rewrite days_times_24, <- Hend, (posted_end _ _ _ _ _ _ _ _ _ Hp). reflexivity.
  - intros i sc Hi Hne. rewrite days_times_24. rewrite <- Zle_Qle.
    by eapply staffed_scenario_end_le_objective.
Qed.

Lemma total_days_is_makespan_of_staffed_scenarios_witness :
  (exists i sc,
      posting_and_unparsed !! i = Some sc /\ required_workstreams sc <> []
      /\ ((5 # 24) * inject_Z 24
          == inject_Z (Value (solution posting_response)
                             (scenario_end_var posting_and_unparsed i)))%Q)
  /\ (forall i sc,
        posting_and_unparsed !! i = Some sc -> required_workstreams sc <> [] ->
        (inject_Z (Value (solution posting_response)
                         (scenario_end_var posting_and_unparsed i))
         <= (5 # 24) * inject_Z 24)%Q).
Proof.
  apply (@total_days_is_makespan_of_staffed_scenarios offset_clock
           (fun _ => posting_response) posting_and_unparsed one_accountant "2024-01-01"
           [mkRow "Invoice Posting" 5 "2024-01-01 +0h" "2024-01-01 +5h" "Alice" "Finance"]
           (5 # 24)).
  - vm_compute. reflexivity.
  - vm_compute. reflexivity.
Defined.

(** C5, as stated, fails.  With one scenario staffed (5 hours) and one
    whose workstream list is empty (10 hours), an optimal response has
    objective 5, so [total_days * 24 = 5], while the largest solved end
    over all scenarios is 10. *)
Lemma total_days_misses_scenario_without_workstreams :
  SolverContract (built_model posting_and_unparsed one_accountant) posting_response
  /\ solved_ends (solution posting_response) posting_and_unparsed = [5; 10]
  /\ ~ total_days_is_max_end_of_all_scenarios
         (find_optimal_schedule (H := offset_clock) (fun _ => posting_response)
            posting_and_unparsed one_accountant "2024-01-01")
         (solution posting_response) posting_and_unparsed.
Proof.
  split; [|split].
  - split.
    + vm_compute. reflexivity.
    + intros _ sol Hsol. cbn.
      apply (objective_at_least_duration _ _ _ _ _ 0%nat
               (mkScenario "Invoice Posting" 5 ["Finance"])
               (build_spec posting_and_unparsed one_accountant) Hsol); done.
    + discriminate.
  - vm_compute. reflexivity.
  - intros Hclaim.
    specialize (Hclaim
      [mkRow "Invoice Posting" 5 "2024-01-01 +0h" "2024-01-01 +5h" "Alice" "Finance"]
      (5 # 24) eq_refl).
    vm_compute in Hclaim. discriminate.
Qed.

(** C4.  For the calibration input (Alice:Finance, Bob:Logistics,
    Charlie:IT; P2P End-to-End 12h needing Finance, Logistics and IT;
    Invoice Posting 6h needing Finance), a search that runs to its end under
    the solver contract is OPTIMAL with objective 18, so the function returns
    [total_days = 18 / 24 = 0.75] and a schedule in which the two scenarios
    follow each other on Alice: P2P on [0, 12] then Invoice Posting on
    [12, 18], or Invoice Posting on [0, 6] then P2P on [6, 18]. *)
Theorem calibration_schedule_takes_18_hours `{DateTimeLib} Solve d start_date :
  strptime d = Some start_date ->
  SolverContract (built_model default_scenario_data default_personnel_data)
    (Solve (built_model default_scenario_data default_personnel_data)) ->
  search_completed (Solve (built_model default_scenario_data default_personnel_data)) ->
  status (Solve (built_model default_scenario_data default_personnel_data)) = OPTIMAL
  /\ objective_value (Solve (built_model default_scenario_data default_personnel_data))
     = 18
  /\ (days_of_hours 18 == 3 # 4)%Q
  /\ (returned (find_optimal_schedule Solve default_scenario_data
                  default_personnel_data d)
      = inr (calibration_rows start_date 0 12, Some (days_of_hours 18))
      \/ returned (find_optimal_schedule Solve default_scenario_data
                     default_personnel_data d)
         = inr (calibration_rows start_date 6 0, Some (days_of_hours 18))).
Proof.
  intros Hd [Hsound Hopt Hinf] Hdone.
  destruct default_solution_is_solution as [Hdef Hdef18].
  assert (Hstatus : status (Solve (built_model default_scenario_data
                                     default_personnel_data)) = OPTIMAL).
  { destruct Hdone as [?|Hi]; [assumption|].
    specialize (Hinf Hi default_solution). congruence. }
  assert (Hsolved : solved (Solve (built_model default_scenario_data
                                     default_personnel_data)) = true).
  { unfold solved. rewrite Hstatus. reflexivity. }
  destruct (solved_is_solution _ _ Hsound Hsolved) as [Hsol Hobj].
  pose proof (Hopt Hstatus _ Hdef) as Hle. rewrite Hdef18 in Hle.
  pose proof (default_model_lower_bound _ Hsol) as Hge.
  assert (H18 : objective_value (Solve (built_model default_scenario_data
                                          default_personnel_data)) = 18) by lia.
  split; [exact Hstatus|]. split; [exact H18|]. split; [reflexivity|].
  destruct (default_solution_shape _ Hsol)
    as (H2 & H3 & H4 & H7 & He1 & He6 & Hs0 & Hs5 & Hdis & Hmax).
  rewrite <- Hobj, H18 in Hmax.
  fold (solved_values Solve default_scenario_data default_personnel_data)
    in H2, H3, H4, H7, He1, He6, Hs0, Hs5, Hdis, Hmax.
  destruct Hdis as [Hfirst|Hfirst]; [left|right].
  - destruct (default_regroup start_date
                (solved_values Solve default_scenario_data default_personnel_data) 0 12)
      as (scenario_results & Hre & Hrows); try assumption; try lia.
    rewrite (find_optimal_schedule_solved _ _ _ _ _ _ Hd Hsolved Hre).
    cbn [returned]. by rewrite Hrows, H18.
  - destruct (default_regroup start_date
                (solved_values Solve default_scenario_data default_personnel_data) 6 0)
      as (scenario_results & Hre & Hrows); try assumption; try lia.
    rewrite (find_optimal_schedule_solved _ _ _ _ _ _ Hd Hsolved Hre).
    cbn [returned]. by rewrite Hrows, H18.
Qed.

Lemma calibration_schedule_takes_18_hours_witness :
  status default_response = OPTIMAL
  /\ objective_value default_response = 18
  /\ (days_of_hours 18 == 3 # 4)%Q
  /\ (returned (find_optimal_schedule (H := offset_clock) (fun _ => default_response)
                  default_scenario_data default_personnel_data "2024-01-01")
      = inr (calibration_rows (H := offset_clock) ("2024-01-01", 0) 0 12,
             Some (days_of_hours 18))
      \/ returned (find_optimal_schedule (H := offset_clock) (fun _ => default_response)
                     default_scenario_data default_personnel_data "2024-01-01")
         = inr (calibration_rows (H := offset_clock) ("2024-01-01", 0) 6 0,
                Some (days_of_hours 18))).
Proof.
  apply (@calibration_schedule_takes_18_hours offset_clock (fun _ => default_response)
           "2024-01-01" ("2024-01-01", 0)).
  - reflexivity.
  - split.
    + vm_compute. reflexivity.
    + intros _ sol Hsol. exact (default_model_lower_bound sol Hsol).
    + discriminate.
  - left. reflexivity.
Defined.

(** C1 on the code.  With Alice (Finance) as the only person and a
    scenario that requires IT, the function prints the error line but posts
    no constraint: the model has a solution, so a solver that obeys its
    contract cannot answer INFEASIBLE, and every solved response makes the
    function return a one-row schedule that staffs the IT sub-task with
    Alice of Finance. *)
Theorem unstaffed_workstream_is_scheduled_anyway `{DateTimeLib} Solve d start_date :
  strptime d = Some start_date ->
  SolverContract (built_model security_review one_accountant)
    (Solve (built_model security_review one_accountant)) ->
  status (Solve (built_model security_review one_accountant)) <> INFEASIBLE
  /\ printed (find_optimal_schedule Solve security_review one_accountant d)
     = ["ERROR: No personnel found for workstream: IT"]
  /\ (solved (Solve (built_model security_review one_accountant)) = true ->
      exists start_hour,
        returned (find_optimal_schedule Solve security_review one_accountant d)
        = inr ([mkRow "Security Review" 3
                      (strftime (plus_hours start_date start_hour))
                      (strftime (plus_hours start_date (start_hour + 3)))
                      "Alice" "Finance"],
               Some (days_of_hours (start_hour + 3)))).
Proof.
  intros Hd [Hsound Hopt Hinf].
  assert (Hex : is_solution (built_model security_review one_accountant)
                  (solution security_review_response) = true)
    by (vm_compute; reflexivity).
  split.
  { intros Hi. specialize (Hinf Hi (solution security_review_response)). congruence. }
  destruct (solved (Solve (built_model security_review one_accountant))) eqn:Hsolved.
  - destruct (solved_is_solution _ _ Hsound Hsolved) as [Hsol Hobj].
    destruct (security_review_solution_shape _ Hsol) as (Hp & He & Hmax).
    fold (solved_values Solve security_review one_accountant) in Hp, He.
    assert (Hre : regroup one_accountant start_date
                    (solved_values Solve security_review one_accountant) []
                    (built_subtasks security_review one_accountant)
                  = inr [("Security Review",
                          mkResult "Security Review" 3
                            (strftime (plus_hours start_date
                               (Value (solved_values Solve security_review one_accountant)
                                      0%nat)))
                            (strftime (plus_hours start_date
                               (Value (solved_values Solve security_review one_accountant)
                                      0%nat + 3)))
                            ["Alice"] ["Finance"])]).
    { rewrite security_review_subtasks. cbn [regroup]. unfold record_subtask.
      cbn [st_start st_end st_person st_scenario_name st_duration].
      rewrite Hp, He. reflexivity. }
    rewrite (find_optimal_schedule_solved _ _ _ _ _ _ Hd Hsolved Hre).
    split; [vm_compute; reflexivity|]. intros _.
    exists (Value (solved_values Solve security_review one_accountant) 0%nat).
    cbn [returned map format_result snd res_Scenario res_Duration res_Start_Time
         res_End_Time res_Assigned_Persons res_Workstreams].
    unfold solved_values in *. rewrite Hobj, Hmax, He. reflexivity.
  - rewrite (find_optimal_schedule_unsolved _ _ _ _ _ Hd Hsolved).
    split; [vm_compute; reflexivity|]. discriminate.
Qed.

Lemma unstaffed_workstream_is_scheduled_anyway_witness :
  status security_review_response <> INFEASIBLE
  /\ printed (find_optimal_schedule (H := offset_clock)
                (fun _ => security_review_response) security_review one_accountant
                "2024-01-01")
     = ["ERROR: No personnel found for workstream: IT"]
  /\ (solved security_review_response = true ->
      exists start_hour,
        returned (find_optimal_schedule (H := offset_clock)
                    (fun _ => security_review_response) security_review one_accountant
                    "2024-01-01")
        = inr ([mkRow "Security Review" 3
                      (@strftime offset_clock
                         (@plus_hours offset_clock ("2024-01-01", 0) start_hour))
                      (@strftime offset_clock
                         (@plus_hours offset_clock ("2024-01-01", 0) (start_hour + 3)))
                      "Alice" "Finance"],
               Some (days_of_hours (start_hour + 3)))).
Proof.
  apply (@unstaffed_workstream_is_scheduled_anyway offset_clock
           (fun _ => security_review_response) "2024-01-01" ("2024-01-01", 0)).
  - reflexivity.
  - split.
    + vm_compute. reflexivity.
    + intros _ sol Hsol. cbn.
      apply (objective_at_least_duration _ _ _ _ _ 0%nat
               (mkScenario "Security Review" 3 ["IT"])
               (build_spec security_review one_accountant) Hsol); done.
    + discriminate.
Defined.

(** C2 on the code.  When nobody in [personnel] belongs to a required
    workstream, no constraint restricts that sub-task's person variable, and
    every returned schedule assigns it a person whose workstream differs
    from the required one. *)
Theorem unstaffed_subtask_gets_other_workstream `{DateTimeLib} Solve scenarios
    personnel d df days i sc k ws :
  response_sound (built_model scenarios personnel)
    (Solve (built_model scenarios personnel)) = true ->
  returned (find_optimal_schedule Solve scenarios personnel d) = inr (df, Some days) ->
  scenarios !! i = Some sc ->
  required_workstreams sc !! k = Some ws ->
  (forall p, p ∈ personnel -> workstream p <> ws) ->
  exists s p,
    built_subtasks scenarios personnel !! subtask_index scenarios i k = Some s
    /\ st_workstream s = ws
    /\ py_index personnel (Value (solved_values Solve scenarios personnel) (st_person s))
       = Some p
    /\ workstream p <> ws.
Proof.
  intros Hsound Hret Hi Hk Hnobody.
  pose proof (returned_schedule_solution _ _ _ _ _ _ Hsound Hret) as Hsol.
  pose proof (build_spec scenarios personnel) as Hb.
  destruct (sp_subtasks _ _ _ _ _ _ (bf_scenarios _ _ _ _ Hb i sc Hi) k ws Hk)
    as (s & Hs & Hp).
  pose proof (person_value_in_range _ _ _ _ _ _ _ Hb Hsol Hs) as Hrange.
  destruct (py_index_in_range personnel _ Hrange) as (p & Hpy & Hlook).
  exists s, p. split; [exact Hs|]. split; [exact (posted_workstream _ _ _ _ _ _ _ _ _ Hp)|].
  split; [exact Hpy|]. apply Hnobody. by eapply list_elem_of_lookup_2.
Qed.

Lemma unstaffed_subtask_gets_other_workstream_witness :
  exists s p,
    built_subtasks payroll_run default_personnel_data !! subtask_index payroll_run 0 0
      = Some s
    /\ st_workstream s = "HR"
    /\ py_index default_personnel_data (Value (solution payroll_run_response) (st_person s))
       = Some p
    /\ workstream p <> "HR".
Proof.
  apply (@unstaffed_subtask_gets_other_workstream offset_clock
           (fun _ => payroll_run_response) payroll_run default_personnel_data
           "2024-01-01"
           [mkRow "Payroll Run" 2 "2024-01-01 +0h" "2024-01-01 +2h" "Bob" "Logistics"]
           (2 # 24) 0%nat (mkScenario "Payroll Run" 2 ["HR"]) 0%nat "HR").
  - vm_compute. reflexivity.
  - vm_compute. reflexivity.
  - reflexivity.
  - reflexivity.
  - intros p Hp. repeat (apply elem_of_cons in Hp as [->|Hp]; [discriminate|]).
    by apply elem_of_nil in Hp.
Defined.

(** C3, as the code has it.  When the personnel table or the scenario
    table is empty, the button handler of [app] shows the error message and
    returns before [find_optimal_schedule] is called: there is no engine
    call, hence no model, no variables and no solve. *)
Theorem empty_tables_are_refused_before_the_engine `{DateTimeLib} Solve
    personnel_data scenario_data start_date_str :
  personnel_data = [] \/ scenario_data = [] ->
  on_click Solve personnel_data scenario_data start_date_str
  = mkClick [st_error empty_data_message] None None.
Proof.
  unfold on_click. intros [-> | ->].
  - reflexivity.
  - by rewrite orb_true_r.
Qed.

Lemma empty_tables_are_refused_before_the_engine_witness :
  on_click (H := offset_clock) (fun _ => infeasible_response) [] default_scenario_data
    "2024-01-01"
  = mkClick [st_error empty_data_message] None None.
Proof.
  apply (@empty_tables_are_refused_before_the_engine offset_clock
           (fun _ => infeasible_response) [] default_scenario_data "2024-01-01").
  left. reflexivity.
Defined.

(** C3, as stated, fails for the engine itself.  [find_optimal_schedule]
    has no check of its own: called with no personnel it creates the nine
    variables of the default scenarios, prints one error line per sub-task
    and hands the model to the solver; called with no scenarios it still
    creates [max_end_time] and solves.  Both models have no solution, so the
    call ends in the same empty result as any infeasible problem. *)
Lemma engine_builds_model_for_empty_tables :
  SolverContract (built_model default_scenario_data []) infeasible_response
  /\ SolverContract (built_model [] default_personnel_data) infeasible_response
  /\ length (variables (built_model default_scenario_data [])) = 9%nat
  /\ length (variables (built_model [] default_personnel_data)) = 1%nat
  /\ find_optimal_schedule (H := offset_clock) (fun _ => infeasible_response)
       default_scenario_data [] "2024-01-01"
     = mkOutcome (inr ([], None))
         ["ERROR: No personnel found for workstream: Finance";
          "ERROR: No personnel found for workstream: Logistics";
          "ERROR: No personnel found for workstream: IT";
          "ERROR: No personnel found for workstream: Finance"]
         [built_model default_scenario_data []]
  /\ find_optimal_schedule (H := offset_clock) (fun _ => infeasible_response)
       [] default_personnel_data "2024-01-01"
     = mkOutcome (inr ([], None)) [] [built_model [] default_personnel_data]
  /\ ~ halts_before_model_construction
         (find_optimal_schedule (H := offset_clock) (fun _ => infeasible_response)
            default_scenario_data [] "2024-01-01")
  /\ ~ halts_before_model_construction
         (find_optimal_schedule (H := offset_clock) (fun _ => infeasible_response)
            [] default_personnel_data "2024-01-01").
Proof.
  split; [|split].
  - split; [vm_compute; reflexivity|intros Hst; discriminate Hst|].
    intros _ sol.
    apply (no_personnel_no_solution default_scenario_data 0%nat
             (mkScenario "P2P End-to-End" 12 ["Finance"; "Logistics"; "IT"])); done.
  - split; [vm_compute; reflexivity|intros Hst; discriminate Hst|].
    intros _ sol. apply no_scenarios_no_solution.
  - split; [vm_compute; reflexivity|]. split; [vm_compute; reflexivity|].
    split; [vm_compute; reflexivity|]. split; [vm_compute; reflexivity|].
    split; intros [Hcalls _]; vm_compute in Hcalls; discriminate.
Qed.

(** C10.  The returned DataFrame has one row per distinct scenario name
    among the sub-tasks, in order of first appearance, not one per input
    scenario.  The row of a name carries the duration and the start and end
    timestamps of the first sub-task of that name, and the persons and
    workstreams of all sub-tasks of that name put together (sorted and
    comma-joined).  The names are those of the scenarios with at least one
    required workstream. *)
Theorem same_name_scenarios_share_one_row `{DateTimeLib} Solve scenarios personnel
    d start_date df days :
  strptime d = Some start_date ->
  returned (find_optimal_schedule Solve scenarios personnel d) = inr (df, Some days) ->
  map row_Scenario df = distinct_names (built_subtasks scenarios personnel)
  /\ NoDup (map row_Scenario df)
  /\ (forall n, n ∈ map row_Scenario df
        <-> exists i sc, scenarios !! i = Some sc /\ scenario_name sc = n
                         /\ required_workstreams sc <> [])
  /\ Forall2 (merged_row personnel start_date (solved_values Solve scenarios personnel)
                (built_subtasks scenarios personnel))
             (distinct_names (built_subtasks scenarios personnel)) df.
Proof.
  intros Hd Hret.
  destruct (returned_schedule _ _ _ _ _ _ Hret)
    as (_ & _ & start_date' & dict & Hd' & Hre & ->).
  rewrite Hd in Hd'. injection Hd' as <-.
  pose proof (regroup_merged _ _ _ _ _ Hre) as Hm.
  assert (Hrows : Forall2 (fun n row => row_Scenario row = n
                    /\ merged_row personnel start_date
                         (solved_values Solve scenarios personnel)
                         (built_subtasks scenarios personnel) n row)
                    (distinct_names (built_subtasks scenarios personnel))
                    (map (fun kv => format_result kv.2) dict)).
  { apply Forall2_fmap_r. eapply Forall2_impl; [exact Hm|].
    cbn. intros n kv [_ Hr]. split; [|by apply merged_result_row].
    destruct Hr as (first & rest & persons & _ & _ & ->). reflexivity. }
  assert (Hnames : map row_Scenario (map (fun kv => format_result kv.2) dict)
                   = distinct_names (built_subtasks scenarios personnel)).
  { clear -Hrows. induction Hrows as [|n row names rows [Hn _] _ IH]; cbn; [reflexivity|].
    by rewrite Hn, IH. }
  split; [exact Hnames|]. split; [rewrite Hnames; apply NoDup_distinct_names|]. split.
  - intros n. rewrite Hnames, elem_of_distinct_names.
    apply (subtask_names_are_staffed_scenarios _ _ _ _ _ (build_spec scenarios personnel)).
  - eapply Forall2_impl; [exact Hrows|]. by intros n row [_ Hr].
Qed.

Lemma same_name_scenarios_share_one_row_witness :
  map row_Scenario
    [mkRow "Regression" 4 "2024-03-01 +0h" "2024-03-01 +4h" "Alice, Charlie" "Finance, IT"]
  = distinct_names (built_subtasks two_regressions default_personnel_data)
  /\ NoDup (map row_Scenario
              [mkRow "Regression" 4 "2024-03-01 +0h" "2024-03-01 +4h"
                     "Alice, Charlie" "Finance, IT"])
  /\ (forall n, n ∈ map row_Scenario
                      [mkRow "Regression" 4 "2024-03-01 +0h" "2024-03-01 +4h"
                             "Alice, Charlie" "Finance, IT"]
        <-> exists i sc, two_regressions !! i = Some sc /\ scenario_name sc = n
                         /\ required_workstreams sc <> [])
  /\ Forall2 (merged_row (H := offset_clock) default_personnel_data ("2024-03-01", 0)
                (solution two_regressions_response)
                (built_subtasks two_regressions default_personnel_data))
             (distinct_names (built_subtasks two_regressions default_personnel_data))
             [mkRow "Regression" 4 "2024-03-01 +0h" "2024-03-01 +4h"
                    "Alice, Charlie" "Finance, IT"].
Proof.
  apply (@same_name_scenarios_share_one_row offset_clock
           (fun _ => two_regressions_response) two_regressions default_personnel_data
           "2024-03-01" ("2024-03-01", 0)
           [mkRow "Regression" 4 "2024-03-01 +0h" "2024-03-01 +4h"
                  "Alice, Charlie" "Finance, IT"]
           (6 # 24)).
  - reflexivity.
  - vm_compute. reflexivity.
Defined.








(** X3.  The total of a returned schedule lies between the longest
    scenario that has a workstream and the 60-day horizon. *)
Theorem total_days_between_longest_scenario_and_horizon `{DateTimeLib} Solve
    scenarios personnel d df days :
  response_sound (built_model scenarios personnel)
    (Solve (built_model scenarios personnel)) = true ->
  returned (find_optimal_schedule Solve scenarios personnel d) = inr (df, Some days) ->
  (0 <= days)%Q /\ (days <= 60)%Q
  /\ forall i sc, scenarios !! i = Some sc -> required_workstreams sc <> [] ->
       (days_of_hours (duration_hours sc) <= days)%Q.
Proof.
  intros Hsound Hret.
  pose proof (returned_schedule_solution _ _ _ _ _ _ Hsound Hret) as Hsol.
  destruct (returned_schedule _ _ _ _ _ _ Hret) as (Hsolved & -> & _).
  destruct (solved_is_solution _ _ Hsound Hsolved) as [_ ->].
  pose proof (build_spec scenarios personnel) as Hb.
  destruct (bf_objective _ _ _ _ Hb) as (mx & Hobj & Hmx & _).
  pose proof (is_solution_domain _ _ _ _ Hsol Hmx) as Hdom.
  cbn [var_lb var_ub] in Hdom.
  assert (objective_of (built_model scenarios personnel)
            (solved_values Solve scenarios personnel)
          = Value (solved_values Solve scenarios personnel) mx) as Hval.
  { unfold objective_of. by rewrite Hobj. }
  fold (solved_values Solve scenarios personnel). rewrite Hval.
  split; [|split].
  - by apply days_of_hours_bounds.
  - by apply days_of_hours_bounds.
  - intros i sc Hi Hne. apply days_of_hours_le. rewrite <- Hval.
    exact (objective_at_least_duration _ _ _ _ _ _ _ Hb Hsol Hi Hne).
Qed.

Lemma total_days_between_longest_scenario_and_horizon_witness :
  (0 <= days_of_hours 18)%Q /\ (days_of_hours 18 <= 60)%Q
  /\ forall i sc, default_scenario_data !! i = Some sc ->
       required_workstreams sc <> [] ->
       (days_of_hours (duration_hours sc) <= days_of_hours 18)%Q.
Proof.
  apply (@total_days_between_longest_scenario_and_horizon offset_clock
           (fun _ => default_response) default_scenario_data default_personnel_data
           "2024-01-01"
           (calibration_rows (H := offset_clock) ("2024-01-01", 0) 0 12)).
  - vm_compute. reflexivity.
  - vm_compute. reflexivity.
Defined.

(** X4.  Every row of a returned schedule shows a window of exactly the
    row's duration: it starts at a non-negative hour offset from the start
    date, ends within the 1440-hour horizon and no later than the total. *)
Theorem rows_show_window_of_their_duration `{DateTimeLib} Solve scenarios personnel
    d start_date df days row :
  strptime d = Some start_date ->
  response_sound (built_model scenarios personnel)
    (Solve (built_model scenarios personnel)) = true ->
  returned (find_optimal_schedule Solve scenarios personnel d) = inr (df, Some days) ->
  row ∈ df ->
  exists start_hour,
    0 <= start_hour /\ 0 <= row_Duration row
    /\ start_hour + row_Duration row <= horizon
    /\ (days_of_hours (start_hour + row_Duration row) <= days)%Q
    /\ row_Start_Time row = strftime (plus_hours start_date start_hour)
    /\ row_End_Time row
       = strftime (plus_hours start_date (start_hour + row_Duration row)).
Proof.
  intros Hd Hsound Hret Hrow.
  pose proof (returned_schedule_solution _ _ _ _ _ _ Hsound Hret) as Hsol.
  destruct (row_of_returned_schedule _ _ _ _ _ _ _ _ Hd Hret Hrow)
    as (n & first & rest & persons & Hnamed & _ & ->).
  destruct (returned_schedule _ _ _ _ _ _ Hret) as (Hsolved & -> & _).
  destruct (solved_is_solution _ _ Hsound Hsolved) as [_ ->].
  pose proof (build_spec scenarios personnel) as Hb.
  assert (first ∈ built_subtasks scenarios personnel) as Hin.
  { eapply (proj1 (list_elem_of_filter _ _ _)). unfold subtasks_named in Hnamed.
    rewrite Hnamed. by left. }
  apply list_elem_of_lookup in Hin as (t & Ht).
  destruct (subtask_solution_facts _ _ _ _ _ _ _ Hb Hsol Ht) as (He & Hs & _ & Hobj & _).
  pose proof (subtask_duration_nonneg _ _ _ _ _ _ _ Hb Hsol Ht) as Hdur.
  pose proof (objective_within_horizon _ _ _ _ _ Hb Hsol) as Hhor.
  exists (Value (solved_values Solve scenarios personnel) (st_start first)).
  cbn [row_Duration row_Start_Time row_End_Time]. rewrite <- He.
  repeat split; try lia. by apply days_of_hours_le.
Qed.

Lemma rows_show_window_of_their_duration_witness :
  exists start_hour,
    0 <= start_hour /\ 0 <= 6
    /\ start_hour + 6 <= horizon
    /\ (days_of_hours (start_hour + 6) <= days_of_hours 18)%Q
    /\ "2024-01-01 +12h"
       = @strftime offset_clock (@plus_hours offset_clock ("2024-01-01", 0) start_hour)
    /\ "2024-01-01 +18h"
       = @strftime offset_clock
           (@plus_hours offset_clock ("2024-01-01", 0) (start_hour + 6)).
Proof.
  apply (@rows_show_window_of_their_duration offset_clock (fun _ => default_response)
           default_scenario_data default_personnel_data "2024-01-01" ("2024-01-01", 0)
           (calibration_rows (H := offset_clock) ("2024-01-01", 0) 0 12)
           (days_of_hours 18)
           (mkRow "Invoice Posting" 6 "2024-01-01 +12h" "2024-01-01 +18h"
                  "Alice" "Finance")).
  - reflexivity.
  - vm_compute. reflexivity.
  - vm_compute. reflexivity.
  - vm_compute. right. left.
Defined.









(** X9.  Which indices a sub-task may take: [valid_people_indices] holds
    [idx] exactly when [idx] is the last position in [personnel] that
    carries the name of some member of the workstream.  With two persons
    of one name only the later one is eligible, whatever their own
    workstream. *)
Theorem valid_index_is_last_of_a_member_name personnel ws idx :
  idx ∈ valid_people_indices personnel ws
  <-> exists p q,
        p ∈ personnel /\ workstream p = ws
        /\ personnel !! idx = Some q /\ name q = name p
        /\ forall j q', (idx < j)%nat -> personnel !! j = Some q' -> name q' <> name p.
Proof.
  rewrite valid_people_indices_elem. split.
  - intros (p & Hp & Hws & Hi). apply people_map_lookup in Hi as [(q & Hq & Hn) Hlast].
    exists p, q. by eauto.
  - intros (p & q & Hp & Hws & Hq & Hn & Hlast). exists p. split; [done|].
    split; [done|]. apply people_map_lookup. by eauto.
Qed.

(** X10.  When the persons' names are pairwise different and the required
    workstream has a member, every returned schedule gives the sub-task a
    person of that workstream. *)
Theorem staffed_subtask_gets_member_of_workstream `{DateTimeLib} Solve scenarios
    personnel d df days i sc k ws :
  NoDup (map name personnel) ->
  (exists p, p ∈ personnel /\ workstream p = ws) ->
  response_sound (built_model scenarios personnel)
    (Solve (built_model scenarios personnel)) = true ->
  returned (find_optimal_schedule Solve scenarios personnel d) = inr (df, Some days) ->
  scenarios !! i = Some sc ->
  required_workstreams sc !! k = Some ws ->
  exists s p,
    built_subtasks scenarios personnel !! subtask_index scenarios i k = Some s
    /\ st_workstream s = ws
    /\ py_index personnel (Value (solved_values Solve scenarios personnel) (st_person s))
       = Some p
    /\ workstream p = ws.
Proof.
  intros Hnd (p0 & Hp0 & Hws0) Hsound Hret Hi Hk.
  pose proof (returned_schedule_solution _ _ _ _ _ _ Hsound Hret) as Hsol.
  pose proof (build_spec scenarios personnel) as Hb.
  destruct (sp_subtasks _ _ _ _ _ _ (bf_scenarios _ _ _ _ Hb _ _ Hi) _ _ Hk)
    as (s & Hs & Hp).
  destruct (subtask_solution_facts _ _ _ _ _ _ _ Hb Hsol Hs) as (_ & _ & Hr & _ & Hv).
  rewrite (posted_workstream _ _ _ _ _ _ _ _ _ Hp) in Hv.
  assert (valid_people_indices personnel ws <> []) as Hvalid.
  { intros Hnil. by apply (proj1 (valid_people_indices_nil _ _) Hnil p0). }
  apply Hv in Hvalid. apply list_elem_of_fmap in Hvalid as (idx & Hidx & Hin).
  apply valid_people_indices_elem in Hin as (p & Hpin & Hws & Hmap).
  apply people_map_lookup in Hmap as [(q & Hq & Hn) _].
  apply list_elem_of_lookup in Hpin as (j & Hj).
  pose proof (distinct_names_same_person _ _ _ _ _ Hnd Hq Hj Hn) as ->.
  destruct (py_index_in_range personnel _ Hr) as (p' & Hpy & Hp').
  rewrite Hidx, Nat2Z.id, Hq in Hp'. injection Hp' as <-.
  exists s, p. split; [exact Hs|]. split; [exact (posted_workstream _ _ _ _ _ _ _ _ _ Hp)|].
  by split.
Qed.

Lemma staffed_subtask_gets_member_of_workstream_witness :
  exists s p,
    built_subtasks default_scenario_data default_personnel_data
      !! subtask_index default_scenario_data 0 1 = Some s
    /\ st_workstream s = "Logistics"
    /\ py_index default_personnel_data
         (Value (solved_values (fun _ => default_response) default_scenario_data
                   default_personnel_data) (st_person s))
       = Some p
    /\ workstream p = "Logistics".
Proof.
  apply (@staffed_subtask_gets_member_of_workstream offset_clock
           (fun _ => default_response) default_scenario_data default_personnel_data
           "2024-01-01"
           (calibration_rows (H := offset_clock) ("2024-01-01", 0) 0 12)
           (days_of_hours 18) 0%nat
           (mkScenario "P2P End-to-End" 12 ["Finance"; "Logistics"; "IT"]) 1%nat
           "Logistics").
  - apply (bool_decide_unpack (NoDup (map name default_personnel_data))).
    vm_compute. exact I.
  - exists (mkPerson "Bob" "Logistics"). split; [|reflexivity].
    vm_compute. right. left.
  - vm_compute. reflexivity.
  - vm_compute. reflexivity.
  - reflexivity.
  - reflexivity.
Defined.


(** X12.  The size of the model handed to the solver, for [S] scenarios,
    [T] sub-tasks and [P] persons: [2S + T + T*P + 1] variables (start and
    end per scenario, a person per sub-task, an indicator per sub-task and
    person, the makespan) and [S + (T + staffed T) + 3*T*P + P + 1]
    constraints. *)
Theorem built_model_size scenarios personnel :
  length (variables (built_model scenarios personnel))
  = (2 * length scenarios + subtask_count scenarios
     + subtask_count scenarios * length personnel + 1)%nat
  /\ length (constraints (built_model scenarios personnel))
     = (length scenarios + subtask_constraints personnel (all_requirements scenarios)
        + 3 * subtask_count scenarios * length personnel + length personnel + 1)%nat
  /\ subtask_count scenarios = length (all_requirements scenarios).
Proof.
  destruct (grows_by_build scenarios personnel initial_state) as (_ & Hv & Hc).
  unfold built_model. rewrite Hv, Hc. split; [reflexivity|]. split; [reflexivity|].
  clear Hv Hc. unfold subtask_count, all_requirements.
  induction scenarios as [|sc scs IH]; [done|].
  cbn [map concat sum_list_with]. by rewrite length_app, IH.
Qed.

(** X13.  In a returned schedule nobody is booked for more hours than the
    schedule lasts: the durations of the sub-tasks given to one person add
    up to at most the total. *)
Theorem nobody_is_booked_beyond_the_total `{DateTimeLib} Solve scenarios personnel
    d df days p :
  response_sound (built_model scenarios personnel)
    (Solve (built_model scenarios personnel)) = true ->
  returned (find_optimal_schedule Solve scenarios personnel d) = inr (df, Some days) ->
  (days_of_hours (person_hours (solved_values Solve scenarios personnel)
                    (built_subtasks scenarios personnel) p) <= days)%Q.
Proof.
  intros Hsound Hret.
  pose proof (returned_schedule_solution _ _ _ _ _ _ Hsound Hret) as Hsol.
  destruct (returned_schedule _ _ _ _ _ _ Hret) as (Hsolved & -> & _).
  destruct (solved_is_solution _ _ Hsound Hsolved) as [_ ->].
  apply days_of_hours_le.
  exact (person_hours_le_objective _ _ _ _ _ _ (build_spec scenarios personnel) Hsol).
Qed.

Lemma nobody_is_booked_beyond_the_total_witness :
  (days_of_hours (person_hours (solved_values (fun _ => default_response)
                                  default_scenario_data default_personnel_data)
                    (built_subtasks default_scenario_data default_personnel_data) 0)
   <= days_of_hours 18)%Q.
Proof.
  apply (@nobody_is_booked_beyond_the_total offset_clock (fun _ => default_response)
           default_scenario_data default_personnel_data "2024-01-01"
           (calibration_rows (H := offset_clock) ("2024-01-01", 0) 0 12)
           (days_of_hours 18) 0).
  - vm_compute. reflexivity.
  - vm_compute. reflexivity.
Defined.

(** X14.  A workstream with a single member is a bottleneck: the scenarios
    that require it run one after the other, so the total of a returned
    schedule is at least the sum of their durations. *)
Theorem sole_member_workstream_bounds_total `{DateTimeLib} Solve scenarios personnel
    d df days ws :
  response_sound (built_model scenarios personnel)
    (Solve (built_model scenarios personnel)) = true ->
  returned (find_optimal_schedule Solve scenarios personnel d) = inr (df, Some days) ->
  length (members personnel ws) = 1%nat ->
  (days_of_hours (workstream_hours scenarios ws) <= days)%Q.
Proof.
  intros Hsound Hret Hone.
  pose proof (returned_schedule_solution _ _ _ _ _ _ Hsound Hret) as Hsol.
  destruct (returned_schedule _ _ _ _ _ _ Hret) as (Hsolved & -> & _).
  destruct (solved_is_solution _ _ Hsound Hsolved) as [_ ->].
  pose proof (build_spec scenarios personnel) as Hb.
  apply days_of_hours_le.
  rewrite <- (workstream_hours_of_subtasks _ _ _ _ ws Hb).
  rewrite <- valid_people_indices_length in Hone.
  destruct (valid_people_indices personnel ws) as [|p0 [|? ?]] eqn:Hvalid;
    try discriminate Hone.
  etrans; [|exact (person_hours_le_objective _ _ _ _ _ (Z.of_nat p0) Hb Hsol)].
  apply sum_with_filter_le.
  - apply Forall_lookup. intros t s Hs.
    exact (subtask_duration_nonneg _ _ _ _ _ _ _ Hb Hsol Hs).
  - apply Forall_lookup. intros t s Hs Hws.
    destruct (subtask_solution_facts _ _ _ _ _ _ _ Hb Hsol Hs) as (_ & _ & _ & _ & Hv).
    rewrite Hws, Hvalid in Hv. specialize (Hv ltac:(discriminate)).
    cbn in Hv. by apply list_elem_of_singleton in Hv.
Qed.

Lemma sole_member_workstream_bounds_total_witness :
  (days_of_hours (workstream_hours default_scenario_data "Finance")
   <= days_of_hours 18)%Q.
Proof.
  apply (@sole_member_workstream_bounds_total offset_clock (fun _ => default_response)
           default_scenario_data default_personnel_data "2024-01-01"
           (calibration_rows (H := offset_clock) ("2024-01-01", 0) 0 12)
           (days_of_hours 18) "Finance").
  - vm_compute. reflexivity.
  - vm_compute. reflexivity.
  - vm_compute. reflexivity.
Defined.

(** X15.  The Workstreams column.  When the persons' names are pairwise
    different and every workstream required under the row's scenario name
    has a member, the column is the sorted, comma-separated list of the
    workstreams required by the scenarios of that name. *)
Theorem workstreams_column_lists_required_workstreams `{DateTimeLib} Solve scenarios
    personnel d start_date df days row :
  strptime d = Some start_date ->
  NoDup (map name personnel) ->
  response_sound (built_model scenarios personnel)
    (Solve (built_model scenarios personnel)) = true ->
  returned (find_optimal_schedule Solve scenarios personnel d) = inr (df, Some days) ->
  row ∈ df ->
  (forall ws, ws ∈ requirements_named (row_Scenario row) scenarios ->
     exists p, p ∈ personnel /\ workstream p = ws) ->
  row_Workstreams row
  = join ", " (sorted (requirements_named (row_Scenario row) scenarios)).
Proof.
  intros Hd Hnd Hsound Hret Hrow Hstaffed.
  pose proof (returned_schedule_solution _ _ _ _ _ _ Hsound Hret) as Hsol.
  pose proof (build_spec scenarios personnel) as Hb.
  destruct (row_of_returned_schedule _ _ _ _ _ _ _ _ Hd Hret Hrow)
    as (n & first & rest & persons & Hnamed & Hassigned & ->).
  cbn [row_Scenario row_Workstreams] in *.
  rewrite <- (subtasks_named_workstreams _ _ _ _ n Hb) in Hstaffed |- *.
  rewrite Hnamed in Hstaffed |- *.
  assert (Forall (fun s => s ∈ built_subtasks scenarios personnel) (first :: rest))
    as Hsub.
  { rewrite <- Hnamed. apply Forall_forall.
    by intros s [_ Hs]%list_elem_of_filter. }
  do 2 f_equal. clear Hrow.
  revert Hassigned Hstaffed Hsub. generalize (first :: rest) as named.
  intros named Hassigned. induction Hassigned as [|s p named persons Hsp _ IH];
    intros Hstaffed Hsub; [done|].
  apply Forall_cons in Hsub as [Hs Hsub].
  apply list_elem_of_lookup in Hs as (t & Ht).
  change (workstream p :: map workstream persons
          = st_workstream s :: (st_workstream <$> named)).
  f_equal.
  - apply (assigned_person_workstream _ _ _ _ _ _ _ _ Hb Hsol Hnd Ht); [|done].
    apply Hstaffed. rewrite fmap_cons. by left.
  - apply IH; [|done]. intros ws Hws. apply Hstaffed. rewrite fmap_cons. by right.
Qed.

Lemma workstreams_column_lists_required_workstreams_witness :
  "Finance, IT, Logistics"
  = join ", " (sorted (requirements_named "P2P End-to-End" default_scenario_data)).
Proof.
  apply (@workstreams_column_lists_required_workstreams offset_clock
           (fun _ => default_response) default_scenario_data default_personnel_data
           "2024-01-01" ("2024-01-01", 0)
           (calibration_rows (H := offset_clock) ("2024-01-01", 0) 0 12)
           (days_of_hours 18)
           (mkRow "P2P End-to-End" 12 "2024-01-01 +0h" "2024-01-01 +12h"
                  "Alice, Bob, Charlie" "Finance, IT, Logistics")).
  - reflexivity.
  - apply (bool_decide_unpack (NoDup (map name default_personnel_data))).
    vm_compute. exact I.
  - vm_compute. reflexivity.
  - vm_compute. reflexivity.
  - vm_compute. left.
  - intros ws Hws.
    change (ws ∈ ["Finance"; "Logistics"; "IT"]) in Hws.
    apply elem_of_cons in Hws as [->|Hws];
      [exists (mkPerson "Alice" "Finance"); split; [vm_compute; left|reflexivity]|].
    apply elem_of_cons in Hws as [->|Hws];
      [exists (mkPerson "Bob" "Logistics");
       split; [vm_compute; right; left|reflexivity]|].
    apply list_elem_of_singleton in Hws as ->.
    exists (mkPerson "Charlie" "IT"). split; [vm_compute; do 2 right; left|reflexivity].
Defined.





